(* ===== verification/_CoqProject ===== *)
-Q . S2P
Prelude.v
RustStr.v
Utf8.v
RustPath.v
Fs.v
Serde.v
Process.v
Git.v
Template.v
Trace.v
Main.v
Samples.v
