(* ===== verification/Prelude.v ===== *)
(** * A verification development for the action generator [generate.rs]

    The program (src/rust-action/examples/generate.rs, 219 lines) is the
    scaffolding generator of a GitHub-action template written in Rust.  Its
    [main] (lines 6-25) builds a [Config] with [Config::new] (read
    [../config.yaml], deserialize it, then run [git remote] and
    [git remote get-url origin] and derive the repository name and owner
    from the URL), creates a minijinja [Environment] with [trim_blocks] set,
    constructs four [Template]s (each reads its source file at once; the
    fourth's destination comes from [git rev-parse --show-toplevel] through
    [join_root_path]), registers them ([Template::read_templates]) and
    renders each one against the configuration, writing the result after
    creating its parent directories ([Template::write_rendered_templates]).
    Every failure is a panic.

    ** Files, in dependency order

    - [Prelude] (this file): Rust's [Result] as [result] with [Ok]/[Err] and
      the [?] operator as the notation [let? x := c in k] (scope
      [rust_scope]); strings as lists of Unicode scalar values ([list Z])
      with the literal injection [lit]; the tactics [zlia] (lia after
      eliminating [/] and [mod]), [decide_vm] (a decidable proposition on
      concrete data, by evaluation) and [run_hyps] (run a computation along
      the equations in context); the rewrite database [rust]; [run_Ok]
      and [Ok_unwrap_or], with which the witnesses evaluate only the result
      of a run, not its final state.
    - [RustStr] (Module [RustStr]): [char::is_whitespace], [str::trim],
      [str::contains], [str::split], [str::rsplit], [Iterator::next],
      [str::strip_suffix], with their characterisations ([trim_spec]: the
      unique split into a whitespace prefix, a core and a whitespace suffix;
      [contains_spec]: an infix; [strip_suffix_spec]; [split_app_sep]).
    - [Utf8] (Module [Utf8]): [String::from_utf8_lossy] (the [stdout] of
      [git], lines 90, 112, 214) and the strict validation of
      [fs::read_to_string], both through Rust's [Utf8Chunks] algorithm on
      bytes, with the byte-level bit operations of the source library
      ([Z.land], [Z.lor], [Z.shiftl], [Z.shiftr]); [char::encode_utf8] as
      used by [fs::write].
    - [RustPath] (Module [RustPath]): [Path::components] (with the
      normalisation of empty and [.] components), [Path::parent],
      [Path::join] ([PathBuf::push]), [Path::to_str], [Path::display], and
      the lexical resolution of a path against the working directory.
    - [Fs] (Module [Fs]): the file system as a [gmap] of files (bytes) and a
      [gset] of directories over absolute locations; [mkdir], Rust's
      recursive [create_dir_all] (line 173), [read_to_string] (lines 73,
      142) and [write] (line 177); the well-formedness invariant [fs_wf]
      (hint database [fs_wf]) preserved by each of them.
    - [Serde] (Module [Serde]): serde's data model [Value]; the structs
      [Config], [Input], [Output], [Rust] (lines 27-62) as records; the
      derived [Deserialize] as serde's map visitor (unknown keys ignored,
      duplicate and missing fields rejected, [Option] fields defaulting to
      [None]); the derived [Serialize] with [skip_serializing_if] on the two
      repository fields.
    - [Process] (Module [Process]): the [World] (file system, working
      directory, the [git] oracle [w_exec], the trace of effects) and the
      state and error monad [M] ([let!], [;;] in [m_scope]); the effects
      [Command::output], [fs::read_to_string], [println!],
      [fs::create_dir_all], [fs::write]; [expect], [Option::expect] and
      [unwrap_or_else(|_| panic!(..))], a panic being an error value that
      carries the formatted message; the [Display] of an [i32].
    - [Git] (Module [Git], Module [ConfigImpl] with Section [WithYaml]):
      [Config::serialize], [Config::extract_repo_name_and_owner] (every
      branch of lines 78-130), [Config::new], [get_repository_root_path] and
      [join_root_path].  The YAML text layer of [serde_saphyr] is the class
      [YamlFormat]; the theorems hold for every instance.
    - [Template] (Module [Template], Section [WithEngine]): the template
      engine as the class [TemplateEngine] ([compile] with the
      [trim_blocks] flag, [render]); the [Environment]; [Template::new],
      [Template::read_templates], [Template::write_rendered_templates] (the
      whole loop body of lines 161-183); the preconditions of an iteration
      that writes without creating anything ([parent_ready], [writable]).
    - [Trace] (Module [Trace], Section [Plans]): [emits c w evs], a run of
      [c] from [w] performs a prefix of the events [evs], all of them when it
      returns; its rules for the primitives and [bind] (tactic
      [solve_emits], hint database [emits]) and the plan of each function of
      the program; [writes_logged c], every file a run of [c] changes is at
      the location of a write it logged (tactic [solve_logged]).
    - [Main] (Module [Main], Section [WithCapabilities]): [main], and the
      specification of a run: [main_files] (the writes, from the initial
      world), [main_events] (the effects, in order), [main_plan] (the
      templates as [main] names and places them), [main_sources] and
      [main_dests] (the files read and written).
    - [Samples] (Module [Samples]): a concrete clone of
      [git@github.com:octocat/hello-world.git], with test doubles for the
      YAML parser and the template engine, on which every theorem with
      hypotheses is applied by evaluation.

    ** What the theorems show

    - refinement: a successful run of [main] writes exactly the files of
      [main_files], each template compiled with [trim_blocks] on and rendered
      with the configuration [Config::new] built ([Main.main_refines]); the
      rendering loop is idempotent ([Template.write_rendered_templates_idem]);
    - ordering: the exact sequence of effects of a successful run
      ([Main.main_trace]): the configuration and both [git remote] calls
      come first, [git rev-parse] runs after three template reads;
    - frame: every run, completed or panicked, changes only the files at
      the destinations of the four templates ([Main.main_writes_only]); the
      proof composes [Trace.writes_logged] (every changed file is the
      location of a logged write; tactic [solve_logged], hint database
      [logged]) with the plan of the run; the repository fields are set
      after [Config::new] ([Git.new_populates]);
    - the well-formedness of the file system ([Fs.fs_wf]) is kept by every
      run ([Main.main_wf]; tactic [solve_wf], hint database [fs_wf]), a
      lemma the idempotence proof uses;
    - failures: the writes made before a panic stay
      ([Template.write_rendered_templates_partial]); an unreadable
      configuration stops the run before [git] ([Main.main_config_unreadable]);
      each panic of the inspector on its branch ([Git.extract_no_origin],
      [Git.extract_remote_failed], [Git.extract_get_url_failed],
      [Git.extract_no_repo_name]); outside a repository the run stops at
      [git rev-parse] before writing ([Main.main_root_failed]); a template
      that does not compile stops the run before any write
      ([Main.main_compile_failed]); the substring test of line 91: any
      output of [git remote] containing [origin] passes it
      ([Git.extract_origin_substring]);
    - liveness: [main] completes without a panic whenever [Config::new]
      succeeds, [git rev-parse] answers, the four templates are readable,
      each renders and each destination is writable ([Main.main_succeeds],
      precondition [Template.writable]); the proof is total correctness in
      the [Process] monad ([succeeds] with one rule per primitive) and
      [Config::new]'s result on its success path ([Git.config_new_ok]);
    - idempotence: from a well-formed file system whose destinations are
      none of the files read, a second run after a successful one completes
      and leaves the same file system ([Main.main_idempotent]); the proof
      uses frame lemmas (a read depends on the file read only,
      [Fs.read_to_string_frame]; [Config::new] on the configuration file and
      [git] only, [Git.config_new_frame]) and the directories a successful
      loop leaves in place ([Template.write_rendered_templates_writable]);
    - safety of the order of effects: every run, completed or panicked,
      performs a prefix of [main_events (main_plan w)]
      ([Main.main_trace_prefix]), so nothing is written before all templates
      are registered; where the workflow file goes ([Main.test_action_dest]);
    - URL parsing: the SSH shape ([Git.repo_name_of_url_ssh],
      [Git.owner_of_url_ssh]), the HTTPS shape whose owner is the empty
      string ([Git.owner_of_url_https]), the [.git] suffix being required
      ([Git.repo_name_of_url_no_git]), totality of the owner extraction and
      of [join_root_path];
    - serde: [deserialize (serialize c) = Ok c]; missing required fields,
      duplicate fields and unknown keys;
    - library models: strict UTF-8 decoding exactly inverts encoding; the
      lossy decoding replaces a byte that cannot start a sequence by one
      U+FFFD and decodes the text around it unchanged; a written file reads
      back; [create_dir_all] creates the directory and is
      a no-op on an existing one; [display_i32] within its fuel.

    ** Bounds and fuel

    The fuel of [display_i32] is 16 digits: an [i32] has at most
    ten, and [Process.display_i32_spec] proves the fuel enough on the whole
    range of [i32].  Every other recursion is structural: [create_dir_all]
    recurses on [Path::parent], one component shorter, and is written on the
    reversed components ([Fs.create_dir_all_rev]); [Utf8Chunks] by strong
    induction on the length in its proofs).  Integers are unbounded [Z]:
    bytes are the [Z] in [0, 256) ([is_byte]), characters the Unicode scalar
    values ([valid_scalar]).

    ** Not modelled

    The YAML syntax of [serde_saphyr] and the template language of
    minijinja (including its treatment of undefined variables and the exact
    whitespace rule of [trim_blocks]) are interfaces; the operating system
    is a file system without symbolic links, permissions or other
    processes, with lexical resolution of [..]; the standard error stream
    and the exit status of a panic are not modelled (a panic is its
    message). *)

From stdpp Require Export base list gmap strings.
From Stdlib Require Export ZArith Lia.

(** ** Rust's [Result] *)

Inductive result (A E : Type) : Type :=
| Ok (a : A)
| Err (e : E).
Arguments Ok {A E} a.
Arguments Err {A E} e.

#[export] Instance result_eq_dec {A E} `{EqDecision A, EqDecision E} :
  EqDecision (result A E).
Proof. solve_decision. Defined.

Declare Scope rust_scope.
Delimit Scope rust_scope with rust.

(** [let? x := c in k] is Rust's [let x = c?; k]: an [Err] is returned as it
    is. *)
Notation "'let?' x ':=' c 'in' k" :=
  (match c with Ok x => k | Err e => Err e end)
  (at level 10, x name, c at level 100, k at level 200) : rust_scope.

(** [Result::map_err] *)
Definition map_err {A E F} (f : E -> F) (r : result A E) : result A F :=
  match r with Ok a => Ok a | Err e => Err (f e) end.

(** [Option::ok_or]: the conversion from [Option] to [Result]. *)
Definition ok_or {A E} (o : option A) (e : E) : result A E :=
  match o with Some a => Ok a | None => Err e end.

Definition is_ok {A E} (r : result A E) : bool :=
  match r with Ok _ => true | Err _ => false end.

(** [Result::unwrap_or]. *)
Definition unwrap_or {A E} (r : result A E) (d : A) : A :=
  match r with Ok a => a | Err _ => d end.

(** ** Rust strings *)

(** A Rust [String] or [&str] is a sequence of Unicode scalar values; a
    [char] is its code point. *)
Abbreviation rchar := Z (only parsing).
Abbreviation rstr := (list Z) (only parsing).

(** An ASCII literal of the source, as a Rust string. *)
Definition lit (s : string) : list Z :=
  map (λ a, Z.of_N (Ascii.N_of_ascii a)) (String.list_ascii_of_string s).

(** A Unicode scalar value: a code point that is not a surrogate. *)
Definition valid_scalar (c : Z) : Prop :=
  (0 <= c < 0xD800 \/ 0xE000 <= c < 0x110000)%Z.

#[export] Instance valid_scalar_dec c : Decision (valid_scalar c).
Proof. unfold valid_scalar. apply _. Defined.

(** ** Automation *)

Create Rewrite HintDb rust.

(** [decide_vm]: prove a decidable proposition on concrete data by
    evaluating its decision procedure. *)
Ltac decide_vm := apply (bool_decide_unpack _); vm_compute; exact I.

(** [zlia]: [lia] after turning [/] and [mod] by constants into equations. *)
Ltac zlia := Z.div_mod_to_equations; lia.

(** [run_hyps]: run a computation forward along the facts in context:
    rewrite with a hypothesis whose left side occurs in the goal, simplify,
    and repeat. *)
Ltac run_hyps :=
  repeat (match goal with H : ?l = _ |- context [?l] => rewrite H end; simpl).

(** ** Shared lemmas on lists and options *)

Lemma lit_app (s1 s2 : string) : lit (s1 +:+ s2) = lit s1 ++ lit s2.
Proof.
  unfold lit. induction s1 as [|a s1 IH]; simpl; [done|]. by rewrite IH.
Qed.

Lemma ok_or_Ok {A E} (o : option A) (e : E) a : ok_or o e = Ok a <-> o = Some a.
Proof. destruct o; simpl; split; congruence. Qed.

Lemma map_err_Ok {A E F} (f : E -> F) (r : result A E) a :
  map_err f r = Ok a <-> r = Ok a.
Proof. destruct r; simpl; split; congruence. Qed.

(** A run whose result is [Ok a] is the pair of its final state and [Ok a]:
    the result alone is evaluated, not the state. *)
Lemma run_Ok {W A E} (p : W * result A E) a : snd p = Ok a -> p = (fst p, Ok a).
Proof. destruct p; simpl; by intros ->. Qed.

Lemma Ok_unwrap_or {A E} (r : result A E) d : is_ok r = true -> r = Ok (unwrap_or r d).
Proof. by destruct r. Qed.

Lemma rev_cons_app {A} (x : A) (l : list A) : rev (x :: l) = rev l ++ [x].
Proof. done. Qed.

Lemma rev_inj {A} (l1 l2 : list A) : rev l1 = rev l2 -> l1 = l2.
Proof. intros H. by rewrite <- (rev_involutive l1), H, rev_involutive. Qed.

#[export] Hint Rewrite @rev_involutive @rev_app_distr @length_rev : rust.
