(* ===== verification/RustStr.v ===== *)
(** * The [str] methods of Rust's standard library that [generate.rs] calls

    [char::is_whitespace], [str::trim], [str::contains], [str::split] and
    [str::rsplit] on a [char] followed by [Iterator::next], and
    [str::strip_suffix], on strings modelled as lists of scalar values.  Each
    has a characterisation lemma that the components use instead of the
    definition. *)

From S2P Require Import Prelude.
Local Open Scope Z_scope.

Module RustStr.

(** [char::is_whitespace]: the Unicode [White_Space] property. *)
Definition is_whitespace (c : Z) : bool :=
  ((0x9 <=? c) && (c <=? 0xD)) || (c =? 0x20) || (c =? 0x85) || (c =? 0xA0)
  || (c =? 0x1680) || ((0x2000 <=? c) && (c <=? 0x200A))
  || (c =? 0x2028) || (c =? 0x2029) || (c =? 0x202F) || (c =? 0x205F)
  || (c =? 0x3000).

(** [str::trim_start]: drop the leading whitespace. *)
Fixpoint trim_start (s : list Z) : list Z :=
  match s with
  | [] => []
  | c :: s' => if is_whitespace c then trim_start s' else s
  end.

(** [str::trim_end]: drop the trailing whitespace. *)
Definition trim_end (s : list Z) : list Z := rev (trim_start (rev s)).

(** [str::trim]: both. *)
Definition trim (s : list Z) : list Z := trim_end (trim_start s).

(** [str::starts_with] with a string pattern. *)
Fixpoint starts_with (s p : list Z) : bool :=
  match p, s with
  | [], _ => true
  | a :: p', b :: s' => (a =? b) && starts_with s' p'
  | _ :: _, [] => false
  end.

(** [str::ends_with] with a string pattern. *)
Definition ends_with (s p : list Z) : bool := starts_with (rev s) (rev p).

(** [str::contains] with a string pattern: some suffix of [s] starts with
    [p]. *)
Fixpoint contains (s p : list Z) : bool :=
  starts_with s p || match s with [] => false | _ :: s' => contains s' p end.

(** [str::strip_suffix]. *)
Definition strip_suffix (s suf : list Z) : option (list Z) :=
  if ends_with s suf then Some (take (length s - length suf)%nat s) else None.

(** [str::split] on a [char]: the segments between the separators, in
    order; [n] separators give [n + 1] segments. *)
Fixpoint split (s : list Z) (sep : Z) : list (list Z) :=
  match s with
  | [] => [[]]
  | c :: s' =>
      if c =? sep then [] :: split s' sep
      else match split s' sep with
           | [] => [[c]]
           | w :: ws => (c :: w) :: ws
           end
  end.

(** [str::rsplit] on a [char]: the same segments, from the end. *)
Definition rsplit (s : list Z) (sep : Z) : list (list Z) := rev (split s sep).

(** [Iterator::next] on a fresh iterator over a list. *)
Definition next {A} (l : list A) : option A := head l.

(** ** Characterisations *)

Definition ws (c : Z) : Prop := is_whitespace c = true.

Lemma starts_with_spec s p : starts_with s p = true <-> ∃ r, s = p ++ r.
Proof.
  revert s. induction p as [|a p IH]; intros [|b s]; simpl.
  - split; eauto.
  - split; eauto.
  - split; [done|]. intros [r Hr]. done.
  - rewrite andb_true_iff, Z.eqb_eq, IH. split.
    + intros [-> [r ->]]. eauto.
    + intros [r Hr]. injection Hr as -> ->. eauto.
Qed.

Lemma ends_with_spec s p : ends_with s p = true <-> ∃ r, s = r ++ p.
Proof.
  unfold ends_with. rewrite starts_with_spec. split.
  - intros [r Hr]. exists (rev r). apply rev_inj. by autorewrite with rust.
  - intros [r ->]. exists (rev r). by rewrite rev_app_distr.
Qed.

(** [contains s p] holds exactly when [p] is an infix of [s]. *)
Lemma contains_spec s p : contains s p = true <-> ∃ a b, s = a ++ p ++ b.
Proof.
  assert (Hu : ∀ s, contains s p =
    starts_with s p || match s with [] => false | _ :: s' => contains s' p end)
    by (intros []; reflexivity).
  induction s as [|c s IH]; rewrite Hu, orb_true_iff, starts_with_spec.
  - split.
    + intros [[r Hr]|?]; [|done]. exists [], r. exact Hr.
    + intros [a [b Hab]]. left. exists b. by destruct a, p.
  - rewrite IH. split.
    + intros [[r Hr]|[a [b Hab]]].
      * exists [], r. exact Hr.
      * exists (c :: a), b. by rewrite Hab.
    + intros [[|c' a] [b Hab]].
      * left. eauto.
      * right. injection Hab as -> ->. eauto.
Qed.

Lemma strip_suffix_spec s suf r : strip_suffix s suf = Some r <-> s = r ++ suf.
Proof.
  unfold strip_suffix. destruct (ends_with s suf) eqn:E.
  - apply ends_with_spec in E as [r' ->]. rewrite length_app, Nat.add_sub.
    rewrite take_app_length. split; [congruence|].
    intros H. f_equal. by apply app_inv_tail in H.
  - split; [done|]. intros ->. assert (ends_with (r ++ suf) suf = true) as H.
    { apply ends_with_spec. eauto. }
    congruence.
Qed.

Lemma trim_start_spec s :
  ∃ a, s = a ++ trim_start s /\ Forall ws a /\
       (∀ c t, trim_start s = c :: t -> ¬ ws c).
Proof.
  induction s as [|c s IH]; simpl.
  - exists []. repeat split; [constructor|]. by intros.
  - destruct (is_whitespace c) eqn:Hc.
    + destruct IH as [a [Ha [Hf Hn]]]. exists (c :: a). simpl. rewrite <- Ha.
      repeat split; [by constructor|done].
    + exists []. repeat split; [constructor|]. intros c' t [= -> ->].
      unfold ws. congruence.
Qed.

Lemma trim_start_idem s : trim_start (trim_start s) = trim_start s.
Proof.
  induction s as [|c s IH]; simpl; [done|].
  destruct (is_whitespace c) eqn:Hc; [done|]. simpl. by rewrite Hc.
Qed.

Lemma trim_start_nil s : trim_start s = [] <-> Forall ws s.
Proof.
  induction s as [|c s IH]; simpl; [split; [constructor|done]|].
  destruct (is_whitespace c) eqn:Hc.
  - rewrite IH. split; [by constructor|]. by inversion 1.
  - split; [done|]. inversion 1; unfold ws in *; congruence.
Qed.

Lemma trim_start_app_ws a s : Forall ws a -> trim_start (a ++ s) = trim_start s.
Proof.
  induction 1 as [|c a Hc _ IH]; simpl; [done|]. unfold ws in Hc. by rewrite Hc.
Qed.

Lemma trim_start_no_ws c s : ¬ ws c -> trim_start (c :: s) = c :: s.
Proof. unfold ws. simpl. destruct (is_whitespace c); congruence. Qed.

Lemma trim_end_spec s :
  ∃ b, s = trim_end s ++ b /\ Forall ws b /\
       (∀ c t, trim_end s = t ++ [c] -> ¬ ws c).
Proof.
  destruct (trim_start_spec (rev s)) as [b [Hb [Hfb Hnb]]].
  unfold trim_end. exists (rev b). repeat split.
  - apply rev_inj. by autorewrite with rust.
  - by apply Forall_rev.
  - intros c t Ht. apply (Hnb c (rev t)).
    by rewrite <- (rev_involutive (trim_start _)), Ht, rev_app_distr.
Qed.

(** [trim s] splits [s] into a whitespace prefix, the result, and a
    whitespace suffix, and the result neither starts nor ends with
    whitespace. *)
Lemma trim_spec s :
  ∃ a b, s = a ++ trim s ++ b /\ Forall ws a /\ Forall ws b /\
         (∀ c t, trim s = c :: t -> ¬ ws c) /\
         (∀ c t, trim s = t ++ [c] -> ¬ ws c).
Proof.
  destruct (trim_start_spec s) as [a [Ha [Hfa Hna]]].
  destruct (trim_end_spec (trim_start s)) as [b [Hb [Hfb Hnb]]].
  unfold trim. exists a, b. repeat split; [|done|done| |done].
  - by rewrite Ha at 1; rewrite Hb at 1; rewrite app_assoc.
  - intros c t Ht. apply (Hna c (t ++ b)). by rewrite Hb, Ht.
Qed.

(** [split] never yields an empty iterator: [n] separators give [n + 1]
    segments. *)
Lemma length_split s sep : length (split s sep) = S (length (filter (λ c, c = sep) s)).
Proof.
  induction s as [|c s IH]; simpl; [done|]. rewrite filter_cons.
  destruct (Z.eqb_spec c sep).
  - rewrite decide_True by done. simpl. by rewrite IH.
  - rewrite decide_False by done. destruct (split s sep); simpl in *; lia.
Qed.

Lemma split_nonempty s sep : split s sep <> [].
Proof. intros H. pose proof (length_split s sep) as Hl. by rewrite H in Hl. Qed.

(** A string without the separator is one segment. *)
Lemma split_no_sep s sep : sep ∉ s -> split s sep = [s].
Proof.
  induction s as [|c s IH]; intros Hn; simpl; [done|].
  apply not_elem_of_cons in Hn as [Hc Hn].
  destruct (Z.eqb_spec c sep); [congruence|]. by rewrite IH.
Qed.

(** A separator splits the segments of both sides. *)
Lemma split_app_sep a b sep : split (a ++ sep :: b) sep = split a sep ++ split b sep.
Proof.
  induction a as [|c a IH]; simpl.
  - by rewrite Z.eqb_refl.
  - rewrite IH. destruct (c =? sep); [done|].
    destruct (split a sep) eqn:E; [by apply split_nonempty in E|done].
Qed.

Lemma next_split_first a b sep : sep ∉ a -> next (split (a ++ sep :: b) sep) = Some a.
Proof.
  intros Ha. rewrite split_app_sep, split_no_sep by done. done.
Qed.

Lemma next_rsplit_last a b sep : sep ∉ b -> next (rsplit (a ++ sep :: b) sep) = Some b.
Proof.
  intros Hb. unfold rsplit. rewrite split_app_sep, (split_no_sep b) by done.
  by rewrite rev_app_distr.
Qed.

Lemma next_split_whole s sep : sep ∉ s -> next (split s sep) = Some s.
Proof. intros H. by rewrite split_no_sep. Qed.

Lemma next_rsplit_whole s sep : sep ∉ s -> next (rsplit s sep) = Some s.
Proof. intros H. unfold rsplit. by rewrite split_no_sep. Qed.

(** [next] on [split] and [rsplit] is never [None]. *)
Lemma next_split_Some s sep : ∃ w, next (split s sep) = Some w.
Proof. destruct (split s sep) eqn:E; [by apply split_nonempty in E|]. eauto. Qed.

Lemma next_rsplit_Some s sep : ∃ w, next (rsplit s sep) = Some w.
Proof.
  unfold rsplit. destruct (rev (split s sep)) eqn:E; [|eauto].
  apply (f_equal (@rev _)) in E. autorewrite with rust in E. by apply split_nonempty in E.
Qed.

(** [trim] returns a substring: a property of every character of a
    string holds of every character of the result. *)
Lemma Forall_trim (P : Z -> Prop) s : Forall P s -> Forall P (trim s).
Proof.
  destruct (trim_spec s) as (a & b & Hs & _). rewrite Hs at 1.
  by intros (_ & (? & _)%Forall_app)%Forall_app.
Qed.

End RustStr.
