(* ===== verification/Utf8.v ===== *)
(** * UTF-8 as Rust's standard library implements it

    [String::from_utf8_lossy], which [generate.rs] applies to the [stdout] of
    every [git] call (lines 90, 112, 213), and the strict validation of
    [String::from_utf8] that [fs::read_to_string] performs (lines 73, 142),
    both through the chunking of [core::str::lossy::Utf8Chunks]: a maximal
    invalid prefix of a sequence becomes one [Invalid] piece.  The encoder is
    [char::encode_utf8], which [fs::write] applies to the rendered [String]
    (line 177).  Bytes are integers in [0, 256). *)

From Stdlib Require Import Zbitwise.
From S2P Require Import Prelude.
Local Open Scope Z_scope.

Module Utf8.

Definition is_byte (b : Z) : Prop := 0 <= b < 256.

#[export] Instance is_byte_dec b : Decision (is_byte b).
Proof. unfold is_byte. apply _. Defined.

(** [core::str::utf8_char_width]: the length announced by a first byte, [0]
    for a byte that cannot start a sequence. *)
Definition utf8_char_width (b : Z) : nat :=
  if b <? 0x80 then 1%nat
  else if b <? 0xC2 then 0%nat
  else if b <? 0xE0 then 2%nat
  else if b <? 0xF0 then 3%nat
  else if b <? 0xF5 then 4%nat
  else 0%nat.

(** A continuation byte: [b as i8 < -64]. *)
Definition cont (b : Z) : bool := (0x80 <=? b) && (b <=? 0xBF).

(** The admissible second bytes of a three- and a four-byte sequence (no
    overlong forms, no surrogates, nothing above U+10FFFF). *)
Definition second3_ok (b0 b1 : Z) : bool :=
  if b0 =? 0xE0 then (0xA0 <=? b1) && (b1 <=? 0xBF)
  else if b0 =? 0xED then (0x80 <=? b1) && (b1 <=? 0x9F)
  else cont b1.

Definition second4_ok (b0 b1 : Z) : bool :=
  if b0 =? 0xF0 then (0x90 <=? b1) && (b1 <=? 0xBF)
  else if b0 =? 0xF4 then (0x80 <=? b1) && (b1 <=? 0x8F)
  else cont b1.

(** The code point of a validated sequence, as [core::str::next_code_point]
    accumulates it. *)
Definition acc_cont (ch b : Z) : Z := Z.lor (Z.shiftl ch 6) (Z.land b 0x3F).

Definition dec2 (b0 b1 : Z) : Z := acc_cont (Z.land b0 0x1F) b1.

Definition dec3 (b0 b1 b2 : Z) : Z :=
  Z.lor (Z.shiftl (Z.land b0 0x1F) 12) (acc_cont (Z.land b1 0x3F) b2).

Definition dec4 (b0 b1 b2 b3 : Z) : Z :=
  Z.lor (Z.shiftl (Z.land (Z.land b0 0x1F) 7) 18)
        (acc_cont (acc_cont (Z.land b1 0x3F) b2) b3).

Inductive piece := Scalar (c : Z) | Invalid.

#[export] Instance piece_eq_dec : EqDecision piece.
Proof. solve_decision. Defined.

(** [Utf8Chunks]: one [Scalar] per valid sequence, one [Invalid] per maximal
    invalid prefix. *)
Fixpoint utf8_chunks (bs : list Z) : list piece :=
  match bs with
  | [] => []
  | b0 :: r0 =>
      match utf8_char_width b0 with
      | 1%nat => Scalar b0 :: utf8_chunks r0
      | 2%nat =>
          match r0 with
          | b1 :: r1 =>
              if cont b1 then Scalar (dec2 b0 b1) :: utf8_chunks r1
              else Invalid :: utf8_chunks r0
          | [] => [Invalid]
          end
      | 3%nat =>
          match r0 with
          | b1 :: r1 =>
              if second3_ok b0 b1 then
                match r1 with
                | b2 :: r2 =>
                    if cont b2 then Scalar (dec3 b0 b1 b2) :: utf8_chunks r2
                    else Invalid :: utf8_chunks r1
                | [] => [Invalid]
                end
              else Invalid :: utf8_chunks r0
          | [] => [Invalid]
          end
      | 4%nat =>
          match r0 with
          | b1 :: r1 =>
              if second4_ok b0 b1 then
                match r1 with
                | b2 :: r2 =>
                    if cont b2 then
                      match r2 with
                      | b3 :: r3 =>
                          if cont b3 then Scalar (dec4 b0 b1 b2 b3) :: utf8_chunks r3
                          else Invalid :: utf8_chunks r2
                      | [] => [Invalid]
                      end
                    else Invalid :: utf8_chunks r1
                | [] => [Invalid]
                end
              else Invalid :: utf8_chunks r0
          | [] => [Invalid]
          end
      | _ => Invalid :: utf8_chunks r0
      end
  end.

(** U+FFFD REPLACEMENT CHARACTER *)
Definition replacement_char : Z := 0xFFFD.

Definition piece_char (p : piece) : Z :=
  match p with Scalar c => c | Invalid => replacement_char end.

(** [String::from_utf8_lossy]. *)
Definition from_utf8_lossy (bs : list Z) : list Z := map piece_char (utf8_chunks bs).

Fixpoint all_scalars (ps : list piece) : option (list Z) :=
  match ps with
  | [] => Some []
  | Scalar c :: ps' =>
      match all_scalars ps' with Some cs => Some (c :: cs) | None => None end
  | Invalid :: _ => None
  end.

(** [String::from_utf8]: [None] on the first invalid sequence. *)
Definition from_utf8 (bs : list Z) : option (list Z) := all_scalars (utf8_chunks bs).

(** [char::encode_utf8] ([core::char::encode_utf8_raw]). *)
Definition encode_char (c : Z) : list Z :=
  if c <? 0x80 then [c]
  else if c <? 0x800 then
    [Z.lor (Z.land (Z.shiftr c 6) 0x1F) 0xC0; Z.lor (Z.land c 0x3F) 0x80]
  else if c <? 0x10000 then
    [Z.lor (Z.land (Z.shiftr c 12) 0x0F) 0xE0;
     Z.lor (Z.land (Z.shiftr c 6) 0x3F) 0x80; Z.lor (Z.land c 0x3F) 0x80]
  else
    [Z.lor (Z.land (Z.shiftr c 18) 0x07) 0xF0;
     Z.lor (Z.land (Z.shiftr c 12) 0x3F) 0x80;
     Z.lor (Z.land (Z.shiftr c 6) 0x3F) 0x80; Z.lor (Z.land c 0x3F) 0x80].

(** The bytes of a [String]. *)
Definition encode (s : list Z) : list Z := concat (map encode_char s).

(** ** Bit operations as arithmetic *)

Lemma lor_disjoint a x n :
  0 <= n -> a mod 2 ^ n = 0 -> 0 <= x < 2 ^ n -> Z.lor a x = a + x.
Proof.
  intros Hn Ha Hx.
  assert (Hl : Z.land a x = 0).
  { rewrite <- (Z.mod_small x (2 ^ n)) by lia. rewrite <- Z.land_ones by lia.
    rewrite (Z.land_comm x), Z.land_assoc, Z.land_ones, Ha by lia.
    apply Z.land_0_l. }
  pose proof (Z.add_lor_land a x). lia.
Qed.

Lemma lor_disjoint_r x a n :
  0 <= n -> a mod 2 ^ n = 0 -> 0 <= x < 2 ^ n -> Z.lor x a = a + x.
Proof. intros. rewrite Z.lor_comm. by apply (lor_disjoint _ _ n). Qed.

Lemma land_low (y : Z) n : 0 <= n -> Z.land y (Z.ones n) = y mod 2 ^ n.
Proof. apply Z.land_ones. Qed.

Lemma land_3F y : Z.land y 0x3F = y mod 64.
Proof. exact (land_low y 6 ltac:(lia)). Qed.
Lemma land_1F y : Z.land y 0x1F = y mod 32.
Proof. exact (land_low y 5 ltac:(lia)). Qed.
Lemma land_0F y : Z.land y 0x0F = y mod 16.
Proof. exact (land_low y 4 ltac:(lia)). Qed.
Lemma land_07 y : Z.land y 0x07 = y mod 8.
Proof. exact (land_low y 3 ltac:(lia)). Qed.

Lemma shiftr_div c n : 0 <= n -> Z.shiftr c n = c / 2 ^ n.
Proof. apply Z.shiftr_div_pow2. Qed.
Lemma shiftl_mul c n : 0 <= n -> Z.shiftl c n = c * 2 ^ n.
Proof. apply Z.shiftl_mul_pow2. Qed.

Lemma pow2_3 : 2 ^ 3 = 8. Proof. done. Qed.
Lemma pow2_4 : 2 ^ 4 = 16. Proof. done. Qed.
Lemma pow2_5 : 2 ^ 5 = 32. Proof. done. Qed.
Lemma pow2_6 : 2 ^ 6 = 64. Proof. done. Qed.
Lemma pow2_12 : 2 ^ 12 = 4096. Proof. done. Qed.
Lemma pow2_18 : 2 ^ 18 = 262144. Proof. done. Qed.

(** [bits]: turn the masks and shifts of a goal into [mod], [/] and [*]. *)
Ltac bits :=
  rewrite ?shiftr_div, ?shiftl_mul by lia;
  rewrite ?land_3F, ?land_1F, ?land_0F, ?land_07, ?pow2_3, ?pow2_4, ?pow2_5, ?pow2_6, ?pow2_12, ?pow2_18.

Lemma acc_cont_arith ch b : 0 <= ch -> acc_cont ch b = ch * 64 + b mod 64.
Proof.
  intros Hch. unfold acc_cont. bits.
  rewrite (lor_disjoint _ _ 6); rewrite ?pow2_6; zlia.
Qed.

(** [zbool]: split on every comparison of integers in the goal. *)
Ltac zbool :=
  repeat match goal with
  | |- context [?a <=? ?b] => destruct (Z.leb_spec a b)
  | |- context [?a <? ?b] => destruct (Z.ltb_spec a b)
  | |- context [?a =? ?b] => destruct (Z.eqb_spec a b)
  end.

(** [zbool_hyps]: the same in the hypotheses, then simplify. *)
Ltac zbool_hyps :=
  repeat match goal with
  | H : context [?a <=? ?b] |- _ => destruct (Z.leb_spec a b)
  | H : context [?a <? ?b] |- _ => destruct (Z.ltb_spec a b)
  | H : context [?a =? ?b] |- _ => destruct (Z.eqb_spec a b)
  end; simpl in *; try discriminate.

Lemma dec2_arith b0 b1 : dec2 b0 b1 = (b0 mod 32) * 64 + b1 mod 64.
Proof. unfold dec2. rewrite acc_cont_arith; bits; zlia. Qed.

Lemma dec3_arith b0 b1 b2 :
  dec3 b0 b1 b2 = (b0 mod 32) * 4096 + (b1 mod 64) * 64 + b2 mod 64.
Proof.
  unfold dec3. rewrite acc_cont_arith; bits; [|zlia].
  rewrite (lor_disjoint _ _ 12); bits; zlia.
Qed.

Lemma dec4_arith b0 b1 b2 b3 :
  dec4 b0 b1 b2 b3 =
  (b0 mod 32 mod 8) * 262144 + (b1 mod 64) * 4096 + (b2 mod 64) * 64 + b3 mod 64.
Proof.
  unfold dec4. rewrite (acc_cont_arith (Z.land b1 0x3F)) by (bits; zlia).
  rewrite acc_cont_arith by (bits; zlia). bits.
  rewrite (lor_disjoint _ _ 18); bits; zlia.
Qed.

Lemma encode_char_1 c : c < 0x80 -> encode_char c = [c].
Proof. intros. unfold encode_char. zbool; done || lia. Qed.

Lemma encode_char_2 c :
  0x80 <= c < 0x800 -> encode_char c = [0xC0 + c / 64; 0x80 + c mod 64].
Proof.
  intros. unfold encode_char. zbool; try lia. bits.
  rewrite (lor_disjoint_r _ 0xC0 5), (lor_disjoint_r _ 0x80 6); bits; try zlia.
  repeat f_equal; zlia.
Qed.

Lemma encode_char_3 c :
  0x800 <= c < 0x10000 ->
  encode_char c = [0xE0 + c / 4096; 0x80 + (c / 64) mod 64; 0x80 + c mod 64].
Proof.
  intros. unfold encode_char. zbool; try lia. bits.
  rewrite (lor_disjoint_r _ 0xE0 4), !(lor_disjoint_r _ 0x80 6); bits; try zlia.
  repeat f_equal; zlia.
Qed.

Lemma encode_char_4 c :
  0x10000 <= c < 0x110000 ->
  encode_char c = [0xF0 + c / 262144; 0x80 + (c / 4096) mod 64;
                   0x80 + (c / 64) mod 64; 0x80 + c mod 64].
Proof.
  intros. unfold encode_char. zbool; try lia. bits.
  rewrite (lor_disjoint_r _ 0xF0 3), !(lor_disjoint_r _ 0x80 6); bits; try zlia.
  repeat f_equal; zlia.
Qed.

Lemma width_lits b :
  (0 <= b < 0x80 -> utf8_char_width b = 1%nat) /\
  (0xC2 <= b < 0xE0 -> utf8_char_width b = 2%nat) /\
  (0xE0 <= b < 0xF0 -> utf8_char_width b = 3%nat) /\
  (0xF0 <= b < 0xF5 -> utf8_char_width b = 4%nat).
Proof. unfold utf8_char_width. repeat split; intros; zbool; lia. Qed.

Lemma cont_true b : 0x80 <= b <= 0xBF -> cont b = true.
Proof. intros. unfold cont. zbool; done || lia. Qed.

(** One encoded scalar value is one [Scalar] piece. *)
Lemma chunks_encode_char c rest :
  valid_scalar c -> utf8_chunks (encode_char c ++ rest) = Scalar c :: utf8_chunks rest.
Proof.
  intros Hc. unfold valid_scalar in Hc.
  destruct (width_lits (0xC0 + c / 64)) as [_ [W2 _]].
  destruct (width_lits (0xE0 + c / 4096)) as [_ [_ [W3 _]]].
  destruct (width_lits (0xF0 + c / 262144)) as [_ [_ [_ W4]]].
  destruct (Z.ltb_spec c 0x80).
  { rewrite encode_char_1 by lia. cbn [app utf8_chunks].
    by rewrite (proj1 (width_lits c)) by lia. }
  destruct (Z.ltb_spec c 0x800).
  { rewrite encode_char_2 by lia. cbn [app utf8_chunks]. rewrite W2 by zlia.
    cbn iota. rewrite cont_true by zlia. rewrite dec2_arith. repeat f_equal; zlia. }
  destruct (Z.ltb_spec c 0x10000).
  { rewrite encode_char_3 by lia. cbn [app utf8_chunks]. rewrite W3 by zlia.
    cbn iota. rewrite !cont_true by zlia.
    assert (second3_ok (0xE0 + c / 4096) (0x80 + (c / 64) mod 64) = true) as ->.
    { unfold second3_ok, cont. zbool; done || zlia. }
    rewrite dec3_arith. repeat f_equal; zlia. }
  rewrite encode_char_4 by lia. cbn [app utf8_chunks]. rewrite W4 by zlia.
  cbn iota. rewrite !cont_true by zlia.
  assert (second4_ok (0xF0 + c / 262144) (0x80 + (c / 4096) mod 64) = true) as ->.
  { unfold second4_ok, cont. zbool; done || zlia. }
  rewrite dec4_arith. repeat f_equal; zlia.
Qed.

Lemma chunks_encode s : Forall valid_scalar s -> utf8_chunks (encode s) = map Scalar s.
Proof.
  induction 1 as [|c s Hc _ IH]; [done|].
  unfold encode. cbn [map concat]. rewrite chunks_encode_char by done.
  by rewrite <- IH.
Qed.

Lemma all_scalars_map s : all_scalars (map Scalar s) = Some s.
Proof. induction s as [|c s IH]; simpl; [done|]. by rewrite IH. Qed.

Lemma from_utf8_encode s : Forall valid_scalar s -> from_utf8 (encode s) = Some s.
Proof. intros H. unfold from_utf8. rewrite chunks_encode by done. apply all_scalars_map. Qed.

Lemma from_utf8_lossy_encode s : Forall valid_scalar s -> from_utf8_lossy (encode s) = s.
Proof.
  intros H. unfold from_utf8_lossy. rewrite chunks_encode, map_map by done.
  apply map_id.
Qed.

Lemma width_cases b :
  is_byte b ->
  (utf8_char_width b = 1%nat /\ b < 0x80) \/
  (utf8_char_width b = 2%nat /\ 0xC2 <= b < 0xE0) \/
  (utf8_char_width b = 3%nat /\ 0xE0 <= b < 0xF0) \/
  (utf8_char_width b = 4%nat /\ 0xF0 <= b < 0xF5) \/
  utf8_char_width b = 0%nat.
Proof. unfold is_byte, utf8_char_width. intros. zbool; auto 10 with lia. Qed.

(** What a validated sequence decodes to re-encodes to the same bytes. *)
Lemma encode_dec2 b0 b1 :
  0xC2 <= b0 < 0xE0 -> cont b1 = true ->
  encode_char (dec2 b0 b1) = [b0; b1] /\ valid_scalar (dec2 b0 b1).
Proof.
  unfold cont, valid_scalar. intros Hb0 Hb1. zbool_hyps. rewrite dec2_arith.
  rewrite encode_char_2 by zlia. split; [repeat f_equal|]; zlia.
Qed.

Lemma encode_dec3 b0 b1 b2 :
  0xE0 <= b0 < 0xF0 -> second3_ok b0 b1 = true -> cont b2 = true ->
  encode_char (dec3 b0 b1 b2) = [b0; b1; b2] /\ valid_scalar (dec3 b0 b1 b2).
Proof.
  unfold second3_ok, cont, valid_scalar. intros Hb0 Hb1 Hb2. rewrite dec3_arith.
  zbool_hyps; (rewrite encode_char_3 by zlia; split; [repeat f_equal|]; zlia).
Qed.

Lemma encode_dec4 b0 b1 b2 b3 :
  0xF0 <= b0 < 0xF5 -> second4_ok b0 b1 = true -> cont b2 = true -> cont b3 = true ->
  encode_char (dec4 b0 b1 b2 b3) = [b0; b1; b2; b3] /\ valid_scalar (dec4 b0 b1 b2 b3).
Proof.
  unfold second4_ok, cont, valid_scalar. intros Hb0 Hb1 Hb2 Hb3. rewrite dec4_arith.
  zbool_hyps; (rewrite encode_char_4 by zlia; split; [repeat f_equal|]; zlia).
Qed.

(** A step of the chunking: the bytes it consumes and the piece it emits; a
    [Scalar] piece consumes exactly the encoding of a valid scalar value. *)
Definition seg_ok (p : list Z) (pc : piece) : Prop :=
  match pc with
  | Scalar c => encode_char c = p /\ valid_scalar c
  | Invalid => p <> []
  end.

Local Ltac fin p rest pc :=
  exists p, rest, pc; split; [done|split; [done|split; [done|cbn [seg_ok]; try done]]].

Lemma chunks_step b0 r0 :
  Forall is_byte (b0 :: r0) ->
  ∃ p rest pc, b0 :: r0 = p ++ rest /\ p <> [] /\
               utf8_chunks (b0 :: r0) = pc :: utf8_chunks rest /\ seg_ok p pc.
Proof.
  intros Hb. inversion Hb as [|? ? Hb0 Hr0]; subst.
  destruct (width_cases b0 Hb0) as [[W H]|[[W H]|[[W H]|[[W H]|W]]]];
    cbn [utf8_chunks]; rewrite W; cbn iota.
  - fin [b0] r0 (Scalar b0). rewrite encode_char_1 by lia.
    unfold is_byte, valid_scalar in *. split; [done|lia].
  - destruct r0 as [|b1 r1]; [fin [b0] (@nil Z) Invalid|].
    destruct (cont b1) eqn:C; [|fin [b0] (b1 :: r1) Invalid].
    fin [b0; b1] r1 (Scalar (dec2 b0 b1)). by apply encode_dec2.
  - destruct r0 as [|b1 r1]; [fin [b0] (@nil Z) Invalid|].
    destruct (second3_ok b0 b1) eqn:C1; [|fin [b0] (b1 :: r1) Invalid].
    destruct r1 as [|b2 r2]; [fin [b0; b1] (@nil Z) Invalid|].
    destruct (cont b2) eqn:C2; [|fin [b0; b1] (b2 :: r2) Invalid].
    fin [b0; b1; b2] r2 (Scalar (dec3 b0 b1 b2)). by apply encode_dec3.
  - destruct r0 as [|b1 r1]; [fin [b0] (@nil Z) Invalid|].
    destruct (second4_ok b0 b1) eqn:C1; [|fin [b0] (b1 :: r1) Invalid].
    destruct r1 as [|b2 r2]; [fin [b0; b1] (@nil Z) Invalid|].
    destruct (cont b2) eqn:C2; [|fin [b0; b1] (b2 :: r2) Invalid].
    destruct r2 as [|b3 r3]; [fin [b0; b1; b2] (@nil Z) Invalid|].
    destruct (cont b3) eqn:C3; [|fin [b0; b1; b2] (b3 :: r3) Invalid].
    fin [b0; b1; b2; b3] r3 (Scalar (dec4 b0 b1 b2 b3)). by apply encode_dec4.
  - fin [b0] r0 Invalid.
Qed.

(** The chunking splits any byte string into consumed segments, each with
    its piece. *)
Lemma chunks_decomp bs :
  Forall is_byte bs ->
  ∃ segs : list (list Z * piece),
    bs = concat (map fst segs) /\ utf8_chunks bs = map snd segs /\
    Forall (λ sp, seg_ok sp.1 sp.2) segs.
Proof.
  induction bs as [bs IH] using (induction_ltof1 _ (@length Z)); unfold ltof in IH.
  intros Hb. destruct bs as [|b0 r0]; [by exists []|].
  destruct (chunks_step b0 r0 Hb) as (p & rest & pc & Heq & Hp & Hc & Hok).
  destruct (IH rest) as (segs & H1 & H2 & H3).
  - rewrite Heq, length_app. destruct p; [done|]. simpl. lia.
  - rewrite Heq in Hb. by apply Forall_app in Hb as [_ ?].
  - exists ((p, pc) :: segs). cbn [map concat fst snd]. rewrite Hc, <- H1, <- H2.
    by repeat split; [|constructor].
Qed.

Lemma all_scalars_Some ps s : all_scalars ps = Some s <-> ps = map Scalar s.
Proof.
  split; [|intros ->; apply all_scalars_map].
  revert s. induction ps as [|[c|] ps IH]; intros s; simpl; [by intros [= <-]| |done].
  destruct (all_scalars ps) as [cs|] eqn:E; intros H; [|done].
  injection H as <-. by rewrite (IH cs).
Qed.

Lemma segs_scalars segs s :
  Forall (λ sp, seg_ok sp.1 sp.2) segs -> map snd segs = map Scalar s ->
  concat (map fst segs) = encode s /\ Forall valid_scalar s.
Proof.
  intros Hok. revert s. induction Hok as [|[p pc] segs Hp _ IH]; intros [|c s] Hm;
    try done.
  simpl in Hm. injection Hm as -> Hm. simpl in Hp. destruct Hp as [<- Hc].
  destruct (IH s Hm) as [He Hv]. unfold encode in *. simpl. rewrite He.
  split; [done|by constructor].
Qed.

Lemma piece_char_valid p pc : seg_ok p pc -> valid_scalar (piece_char pc).
Proof. destruct pc; simpl; [tauto|]. unfold valid_scalar, replacement_char. lia. Qed.

(** ** What the program relies on *)

(** C31 Strict decoding accepts exactly the encodings of strings of scalar
    values, and returns the string: [String::from_utf8] inverts
    [char::encode_utf8]. *)
Theorem from_utf8_iff bs s :
  Forall is_byte bs ->
  from_utf8 bs = Some s <-> bs = encode s /\ Forall valid_scalar s.
Proof.
  intros Hb. split.
  - intros H. destruct (chunks_decomp bs Hb) as (segs & H1 & H2 & H3).
    unfold from_utf8 in H. rewrite H2, all_scalars_Some in H.
    rewrite H1. by apply segs_scalars.
  - intros [-> Hv]. by apply from_utf8_encode.
Qed.

(** The lossy decoding of any byte string is a string of scalar values. *)
Theorem from_utf8_lossy_valid bs :
  Forall is_byte bs -> Forall valid_scalar (from_utf8_lossy bs).
Proof.
  intros Hb. destruct (chunks_decomp bs Hb) as (segs & _ & H2 & H3).
  unfold from_utf8_lossy. rewrite H2, map_map, Forall_map.
  eapply Forall_impl; [exact H3|]. intros [p pc]. apply piece_char_valid.
Qed.

(** Decoding an encoded prefix yields its scalar values and goes on with
    the rest. *)
Lemma chunks_encode_app s rest :
  Forall valid_scalar s -> utf8_chunks (encode s ++ rest) = map Scalar s ++ utf8_chunks rest.
Proof.
  induction 1 as [|c s Hc _ IH]; [done|].
  unfold encode in *. cbn [map concat]. rewrite <- app_assoc, chunks_encode_char by done.
  by rewrite IH.
Qed.

(** C32 The lossy decoding of [git]'s output replaces a byte that cannot
    start a sequence (a continuation byte [0x80]-[0xBF], the overlong leads
    [0xC0] and [0xC1], or [0xF5]-[0xFF]) by exactly one U+FFFD and
    resynchronises on the next byte: the valid text on both sides is
    decoded unchanged. *)
Theorem from_utf8_lossy_invalid_byte s1 b s2 :
  Forall valid_scalar s1 -> Forall valid_scalar s2 ->
  0x80 <= b < 0xC2 \/ 0xF5 <= b < 0x100 ->
  from_utf8_lossy (encode s1 ++ b :: encode s2) = s1 ++ replacement_char :: s2.
Proof.
  intros H1 H2 Hb. unfold from_utf8_lossy.
  rewrite chunks_encode_app by done. cbn [utf8_chunks].
  assert (utf8_char_width b = 0%nat) as -> by (unfold utf8_char_width; zbool; lia).
  rewrite chunks_encode by done. rewrite map_app. cbn [map].
  assert (Hm : ∀ s, map piece_char (map Scalar s) = s) by (intros s; rewrite map_map; apply map_id).
  by rewrite !Hm.
Qed.

(** ASCII bytes decode to themselves. *)
Lemma from_utf8_lossy_ascii bs :
  Forall (λ b, 0 <= b < 0x80) bs -> from_utf8_lossy bs = bs.
Proof.
  induction 1 as [|b bs Hb _ IH]; [done|]. unfold from_utf8_lossy in *.
  cbn [utf8_chunks]. rewrite (proj1 (width_lits b)) by done. simpl. by rewrite IH.
Qed.

Lemma encode_ascii s : Forall (λ b, 0 <= b < 0x80) s -> encode s = s.
Proof.
  induction 1 as [|b s Hb _ IH]; [done|]. unfold encode in *. simpl.
  rewrite encode_char_1 by lia. simpl. by rewrite IH.
Qed.

End Utf8.
