(* ===== verification/RustPath.v ===== *)
(** * Unix paths as [std::path] handles them

    [Path::components] (with the normalisation of empty and [.] components
    and the leading [CurDir]), [Path::parent] (used on each destination at
    line 171), [Path::join] ([PathBuf::push], line 194), [Path::to_str]
    (line 196), [Path::display] (line 174) and the lookup of a path relative
    to the working directory, as the file system performs it (lexically: the
    model has no symbolic links).  [components_join]: joining a relative
    path onto an absolute one appends its components. *)

From S2P Require Import Prelude RustStr.
Local Open Scope Z_scope.

Module RustPath.
Import RustStr.

Inductive Component :=
| RootDir
| CurDir
| ParentDir
| Normal (s : list Z).

#[export] Instance Component_eq_dec : EqDecision Component.
Proof. solve_decision. Defined.

Definition slash : Z := 47.
Definition dot : Z := 46.

(** The classification of a segment between separators
    ([Components::parse_single_component]): empty and [.] segments are
    normalised away. *)
Definition classify (seg : list Z) : option Component :=
  if decide (seg = []) then None
  else if decide (seg = [dot]) then None
  else if decide (seg = [dot; dot]) then Some ParentDir
  else Some (Normal seg).

(** [Components::include_cur_dir]: a relative path that is [.] or starts
    with [./] keeps a leading [CurDir]. *)
Definition include_cur_dir (p : list Z) : bool :=
  match p with
  | [c] => bool_decide (c = dot)
  | c :: c' :: _ => bool_decide (c = dot) && bool_decide (c' = slash)
  | [] => false
  end.

Definition has_root (p : list Z) : bool :=
  match p with c :: _ => bool_decide (c = slash) | [] => false end.

(** [Path::components]. *)
Definition components (p : list Z) : list Component :=
  (if has_root p then [RootDir] else []) ++
  (if has_root p then [] else if include_cur_dir p then [CurDir] else []) ++
  omap classify (split p slash).

(** [Path::parent]: drop the last component unless it is the root. *)
Definition parent (cs : list Component) : option (list Component) :=
  match last cs with
  | Some RootDir | None => None
  | Some _ => Some (removelast cs)
  end.

(** [Path::join]: [PathBuf::push] of a relative path adds a separator when
    the base does not end with one; an absolute path replaces the base. *)
Definition join (base p : list Z) : list Z :=
  if has_root p then p
  else match last base with
       | Some c => if bool_decide (c = slash) then base ++ p else base ++ [slash] ++ p
       | None => p
       end.

(** [Path::to_str]: [Some] on valid Unicode. *)
Definition to_str (p : list Z) : option (list Z) :=
  if bool_decide (Forall valid_scalar p) then Some p else None.

Definition component_text (c : Component) : list Z :=
  match c with
  | RootDir => []
  | CurDir => [dot]
  | ParentDir => [dot; dot]
  | Normal s => s
  end.

(** The texts of [parts] joined with [sep] in between. *)
Fixpoint join_with (sep : list Z) (parts : list (list Z)) : list Z :=
  match parts with
  | [] => []
  | [w] => w
  | w :: ws => w ++ sep ++ join_with sep ws
  end.

(** [Path::display] of a path given by its components. *)
Definition display (cs : list Component) : list Z :=
  match cs with
  | RootDir :: cs' => slash :: join_with [slash] (map component_text cs')
  | _ => join_with [slash] (map component_text cs)
  end.

(** The absolute location a path names, from the working directory [cwd]
    (a list of names from the root): [..] at the root stays at the root. *)
Definition step (acc : list (list Z)) (c : Component) : list (list Z) :=
  match c with
  | RootDir => []
  | CurDir => acc
  | ParentDir => removelast acc
  | Normal s => acc ++ [s]
  end.

Definition resolve (cwd : list (list Z)) (cs : list Component) : list (list Z) :=
  foldl step cwd cs.

(** ** Joining and resolving *)

Lemma omap_classify_sep a b :
  omap classify (split (a ++ slash :: b) slash) =
  omap classify (split a slash) ++ omap classify (split b slash).
Proof. by rewrite split_app_sep, omap_app. Qed.

(** [Path::join] onto an absolute base of a relative path that does not
    start with [./]: the components of the base, then those of the path
    (a trailing separator of the base adds none). *)
Lemma components_abs q : has_root q = true -> components q = RootDir :: omap classify (split q slash).
Proof. unfold components. by intros ->. Qed.

Lemma components_join base p :
  has_root base = true -> has_root p = false -> include_cur_dir p = false ->
  components (join base p) = components base ++ omap classify (split p slash).
Proof.
  intros Hb Hp _. unfold join. rewrite Hp.
  destruct (last base) as [l|] eqn:El; [|by apply last_None in El; subst].
  apply last_Some in El as [a ->].
  assert (Hr : ∀ q, has_root ((a ++ [l]) ++ q) = true) by (destruct a; done).
  case_bool_decide as Hl; rewrite !components_abs by (done || apply Hr).
  - subst l. rewrite <- app_assoc. cbn [app]. rewrite !omap_classify_sep.
    assert (E0 : omap classify (split [] slash) = []) by reflexivity.
    by rewrite E0, app_nil_r.
  - cbn [app]. by rewrite omap_classify_sep.
Qed.

(** Resolving ordinary names appends them. *)
Lemma resolve_normals acc xs : resolve acc (map Normal xs) = acc ++ xs.
Proof.
  revert acc. induction xs as [|x xs IH]; intros acc; simpl; [by rewrite app_nil_r|].
  unfold resolve in *. simpl. by rewrite IH, <- app_assoc.
Qed.

(** An absolute path resolves the same from every working directory. *)
Lemma resolve_absolute cwd cwd' p :
  has_root p = true -> resolve cwd (components p) = resolve cwd' (components p).
Proof. intros Hp. unfold components, resolve. by rewrite Hp. Qed.

Lemma resolve_app cwd cs cs' : resolve cwd (cs ++ cs') = resolve (resolve cwd cs) cs'.
Proof. apply foldl_app. Qed.

End RustPath.
