(* ===== verification/Fs.v ===== *)
(** * The file system the program reads and writes

    A file system is a map from absolute locations (lists of names from the
    root) to file contents (bytes) and a set of directories.  The operations
    are the system calls behind the [std::fs] functions [generate.rs] calls:
    [mkdir] (and [DirBuilder::create_dir_all], Rust's recursive algorithm
    over [Path::parent], line 173), [fs::read_to_string] (lines 73, 142) and
    [fs::write] (line 177).  The well-formedness invariant [fs_wf] (the root
    is a directory, every entry's parent is a directory, no location is both
    a file and a directory) is preserved by every operation. *)

From S2P Require Import Prelude RustStr Utf8 RustPath.
Local Open Scope Z_scope.

Module Fs.
Import RustPath.

Create HintDb fs_wf.

Abbreviation loc := (list (list Z)) (only parsing).

Record Fs := mkFs {
  fs_files : gmap (list (list Z)) (list Z);
  fs_dirs : gset (list (list Z));
}.

(** The [io::ErrorKind]s the operations report. *)
Inductive IoErrorKind :=
| NotFound
| AlreadyExists
| NotADirectory
| IsADirectory
| InvalidData
| Uncategorized.

#[export] Instance IoErrorKind_eq_dec : EqDecision IoErrorKind.
Proof. solve_decision. Defined.

Definition fs_wf (fs : Fs) : Prop :=
  [] ∈ fs_dirs fs /\
  (∀ d, d ∈ fs_dirs fs -> d <> [] -> removelast d ∈ fs_dirs fs) /\
  (∀ f b, fs_files fs !! f = Some b -> f <> [] /\ removelast f ∈ fs_dirs fs) /\
  (∀ d, d ∈ fs_dirs fs -> fs_files fs !! d = None).

(** [fs_wf] is decidable: each of its quantifiers ranges over a finite set
    or map. *)
#[export] Instance fs_wf_dec fs : Decision (fs_wf fs).
Proof.
  destruct (decide ([] ∈ fs_dirs fs /\
      set_Forall (λ d, d <> [] -> removelast d ∈ fs_dirs fs) (fs_dirs fs) /\
      map_Forall (λ f _, f <> [] /\ removelast f ∈ fs_dirs fs) (fs_files fs) /\
      set_Forall (λ d, fs_files fs !! d = None) (fs_dirs fs))) as [H|H];
    [left|right]; unfold fs_wf, set_Forall, map_Forall in *; naive_solver.
Defined.

Definition is_dir (fs : Fs) (a : list (list Z)) : bool := bool_decide (a ∈ fs_dirs fs).

Definition is_file (fs : Fs) (a : list (list Z)) : bool :=
  match fs_files fs !! a with Some _ => true | None => false end.

(** The error of a lookup whose parent directory does not exist: [ENOTDIR]
    when a proper prefix is a file, [ENOENT] otherwise. *)
Definition lookup_error (fs : Fs) (a : list (list Z)) : IoErrorKind :=
  if existsb (λ i, is_file fs (take i a)) (seq 1 (length a - 1)) then NotADirectory
  else NotFound.

(** [mkdir(2)] on an absolute location. *)
Definition mkdir (fs : Fs) (a : list (list Z)) : result Fs IoErrorKind :=
  if is_dir fs a || is_file fs a then Err AlreadyExists
  else if is_dir fs (removelast a) then Ok (mkFs (fs_files fs) ({[a]} ∪ fs_dirs fs))
  else Err (lookup_error fs a).

(** [DirBuilder::create_dir_all] on the components of a path, given in
    reverse order so that [Path::parent] is the tail:
    {v
    if path == "" { return Ok(()) }
    match mkdir(path) { Ok => return Ok, Err NotFound => {},
                        Err _ if path.is_dir() => return Ok, Err e => return Err(e) }
    match path.parent() { Some(p) => create_dir_all(p)?,
                          None => return Err("failed to create whole tree") }
    match mkdir(path) { Ok => Ok, Err _ if path.is_dir() => Ok, Err e => Err(e) }
    v} *)
Fixpoint create_dir_all_rev (cwd : list (list Z)) (rcs : list Component) (fs : Fs)
    : result Fs IoErrorKind :=
  match rcs with
  | [] => Ok fs
  | c :: rrest =>
      let a := resolve cwd (rev rcs) in
      match mkdir fs a with
      | Ok fs' => Ok fs'
      | Err NotFound =>
          match c with
          | RootDir => Err Uncategorized
          | _ =>
              match create_dir_all_rev cwd rrest fs with
              | Err e => Err e
              | Ok fs1 =>
                  match mkdir fs1 a with
                  | Ok fs2 => Ok fs2
                  | Err e => if is_dir fs1 a then Ok fs1 else Err e
                  end
              end
          end
      | Err e => if is_dir fs a then Ok fs else Err e
      end
  end.

Definition create_dir_all (cwd : list (list Z)) (cs : list Component) (fs : Fs)
    : result Fs IoErrorKind :=
  create_dir_all_rev cwd (rev cs) fs.

(** [fs::read_to_string]: [open], [read], and UTF-8 validation. *)
Definition read_to_string (cwd : list (list Z)) (cs : list Component) (fs : Fs)
    : result (list Z) IoErrorKind :=
  let a := resolve cwd cs in
  if bool_decide (cs = []) then Err NotFound
  else if is_dir fs a then Err IsADirectory
  else match fs_files fs !! a with
       | Some bytes =>
           match Utf8.from_utf8 bytes with
           | Some s => Ok s
           | None => Err InvalidData
           end
       | None => Err (lookup_error fs a)
       end.

(** [fs::write]: [open] with [O_CREAT | O_TRUNC] and write the UTF-8 bytes
    of the contents. *)
Definition write (cwd : list (list Z)) (cs : list Component) (contents : list Z) (fs : Fs)
    : result Fs IoErrorKind :=
  let a := resolve cwd cs in
  if bool_decide (cs = []) then Err NotFound
  else if is_dir fs a then Err IsADirectory
  else if is_dir fs (removelast a) then
    Ok (mkFs (<[a := Utf8.encode contents]> (fs_files fs)) (fs_dirs fs))
  else Err (lookup_error fs a).

(** ** Well-formedness *)

Lemma is_dir_true fs a : is_dir fs a = true <-> a ∈ fs_dirs fs.
Proof. unfold is_dir. by rewrite bool_decide_eq_true. Qed.

Lemma is_file_false fs a : is_file fs a = false <-> fs_files fs !! a = None.
Proof. unfold is_file. destruct (fs_files fs !! a); split; congruence. Qed.

Lemma mkdir_Ok fs a fs' :
  mkdir fs a = Ok fs' <->
  (a ∉ fs_dirs fs) /\ fs_files fs !! a = None /\ (removelast a ∈ fs_dirs fs) /\
  fs' = mkFs (fs_files fs) ({[a]} ∪ fs_dirs fs).
Proof.
  unfold mkdir. destruct (is_dir fs a) eqn:D, (is_file fs a) eqn:F; simpl;
    rewrite <- ?is_dir_true, <- ?is_file_false;
    try (split; [done|intros (?&?&?&?); congruence]).
  destruct (is_dir fs (removelast a)) eqn:P; split.
  - intros [= <-]. by repeat split; try congruence.
  - by intros (_&_&_&->).
  - done.
  - intros (_&_&?&_). congruence.
Qed.

Lemma mkdir_wf fs a fs' : fs_wf fs -> mkdir fs a = Ok fs' -> fs_wf fs'.
Proof.
  intros (Hr & Hd & Hf & Hx) (Ha & Hfa & Hp & ->)%mkdir_Ok. simpl.
  split_and!.
  - set_solver.
  - intros d [->%elem_of_singleton | Hd']%elem_of_union Hn; [set_solver|].
    apply elem_of_union_r. by apply Hd.
  - intros f b Hb. apply Hf in Hb as [? ?]. split; [done|set_solver].
  - intros d [->%elem_of_singleton | Hd']%elem_of_union; [done|]. by apply Hx.
Qed.

Lemma write_Ok cwd cs contents fs fs' :
  write cwd cs contents fs = Ok fs' <->
  cs <> [] /\ (resolve cwd cs ∉ fs_dirs fs) /\ (removelast (resolve cwd cs) ∈ fs_dirs fs) /\
  fs' = mkFs (<[resolve cwd cs := Utf8.encode contents]> (fs_files fs)) (fs_dirs fs).
Proof.
  unfold write. case_bool_decide; simpl; [split; [done|tauto]|].
  destruct (is_dir fs (resolve cwd cs)) eqn:D; simpl.
  { apply is_dir_true in D. split; [done|tauto]. }
  destruct (is_dir fs (removelast (resolve cwd cs))) eqn:P; simpl.
  - rewrite is_dir_true in P. assert (resolve cwd cs ∉ fs_dirs fs).
    { by intros ?%is_dir_true; congruence. }
    split; [intros [= <-]; done|]. by intros (_&_&_&->).
  - split; [done|]. intros (_&_&?%is_dir_true&_). congruence.
Qed.

Lemma write_wf cwd cs contents fs fs' :
  fs_wf fs -> write cwd cs contents fs = Ok fs' -> fs_wf fs'.
Proof.
  intros (Hr & Hd & Hf & Hx) (_ & Ha & Hp & ->)%write_Ok. simpl.
  split_and!; [done|done| |]; cbn [fs_files fs_dirs].
  - intros f b. rewrite lookup_insert. case_decide; [|by intros ?%Hf].
    intros _. subst. split; [|done]. intros Hn. rewrite Hn in Ha. done.
  - intros d Hd'. rewrite lookup_insert_ne; [by apply Hx|]. set_solver.
Qed.

#[export] Hint Resolve mkdir_wf : fs_wf.

Lemma create_dir_all_rev_wf cwd rcs fs fs' :
  fs_wf fs -> create_dir_all_rev cwd rcs fs = Ok fs' -> fs_wf fs'.
Proof.
  revert fs fs'. induction rcs as [|c rrest IH]; intros fs fs' Hwf; simpl;
    [congruence|].
  repeat case_match; intros Hres; simplify_eq; eauto with fs_wf.
Qed.

Lemma create_dir_all_wf cwd cs fs fs' :
  fs_wf fs -> create_dir_all cwd cs fs = Ok fs' -> fs_wf fs'.
Proof. apply create_dir_all_rev_wf. Qed.

(** ** What [create_dir_all] does *)

Lemma mkdir_mono fs a fs' :
  mkdir fs a = Ok fs' -> fs_files fs' = fs_files fs /\ fs_dirs fs ⊆ fs_dirs fs' /\
                         a ∈ fs_dirs fs'.
Proof. intros (_&_&_&->)%mkdir_Ok. simpl. split_and!; [done|set_solver|set_solver]. Qed.

(** It only adds directories. *)
Lemma create_dir_all_rev_mono cwd rcs fs fs' :
  create_dir_all_rev cwd rcs fs = Ok fs' ->
  fs_files fs' = fs_files fs /\ fs_dirs fs ⊆ fs_dirs fs'.
Proof.
  revert fs fs'. induction rcs as [|c rrest IH]; intros fs fs'; simpl; [by intros [= <-]|].
  repeat case_match; intros Hres; simplify_eq;
    repeat match goal with
    | H : mkdir _ _ = Ok _ |- _ => apply mkdir_mono in H as (? & ? & ?)
    | H : create_dir_all_rev _ _ _ = Ok _ |- _ => apply IH in H as [? ?]
    end; split; try congruence; try set_solver.
Qed.

(** Afterwards the directory exists. *)
Lemma create_dir_all_rev_exists cwd c rrest fs fs' :
  create_dir_all_rev cwd (c :: rrest) fs = Ok fs' ->
  resolve cwd (rev (c :: rrest)) ∈ fs_dirs fs'.
Proof.
  simpl. repeat case_match; intros Hres; simplify_eq;
    repeat match goal with
    | H : mkdir _ _ = Ok _ |- _ => apply mkdir_mono in H as (? & ? & ?)
    | H : is_dir _ _ = true |- _ => apply is_dir_true in H
    end; done.
Qed.

Lemma create_dir_all_mono cwd cs fs fs' :
  create_dir_all cwd cs fs = Ok fs' ->
  fs_files fs' = fs_files fs /\ fs_dirs fs ⊆ fs_dirs fs'.
Proof. apply create_dir_all_rev_mono. Qed.

(** Afterwards the directory a non-empty path names exists. *)
Lemma create_dir_all_made cwd cs fs fs' :
  cs <> [] -> create_dir_all cwd cs fs = Ok fs' -> resolve cwd cs ∈ fs_dirs fs'.
Proof.
  unfold create_dir_all. intros Hcs. destruct (rev cs) as [|c rrest] eqn:E.
  - by apply (f_equal (@rev _)) in E; autorewrite with rust in E.
  - intros H%create_dir_all_rev_exists. by rewrite <- E, rev_involutive in H.
Qed.

(** On an existing directory it is a no-op. *)
Lemma create_dir_all_noop cwd cs fs :
  resolve cwd cs ∈ fs_dirs fs -> create_dir_all cwd cs fs = Ok fs.
Proof.
  unfold create_dir_all. destruct (rev cs) as [|c rrest] eqn:E; [done|].
  intros Hd. rewrite <- (rev_involutive cs), E in Hd. cbn [create_dir_all_rev].
  assert (Hm : mkdir fs (resolve cwd (rev (c :: rrest))) = Err AlreadyExists).
  { unfold mkdir. by rewrite (proj2 (is_dir_true _ _) Hd). }
  rewrite Hm. by rewrite (proj2 (is_dir_true _ _) Hd).
Qed.

(** C34 After [create_dir_all] of a non-empty path succeeds, the directory
    the path names exists. *)
Theorem create_dir_all_exists cwd cs fs fs' :
  cs <> [] -> create_dir_all cwd cs fs = Ok fs' -> resolve cwd cs ∈ fs_dirs fs'.
Proof. apply create_dir_all_made. Qed.

(** C35 [create_dir_all] on a directory that exists succeeds and changes
    nothing: a second rendering run finds its directories in place. *)
Theorem create_dir_all_existing cwd cs fs :
  resolve cwd cs ∈ fs_dirs fs -> create_dir_all cwd cs fs = Ok fs.
Proof. apply create_dir_all_noop. Qed.

Lemma fs_eq fs fs' : fs_files fs = fs_files fs' -> fs_dirs fs = fs_dirs fs' -> fs = fs'.
Proof. destruct fs, fs'. simpl. by intros -> ->. Qed.

(** A read depends on the file read only: in a well-formed file system
    holding the same bytes at that location, it returns the same text. *)
Lemma read_to_string_frame cwd cs fs fs' s :
  fs_wf fs' -> fs_files fs' !! resolve cwd cs = fs_files fs !! resolve cwd cs ->
  read_to_string cwd cs fs = Ok s -> read_to_string cwd cs fs' = Ok s.
Proof.
  intros (_ & _ & _ & Hx) Hsame. unfold read_to_string.
  case_bool_decide; [done|]. destruct (is_dir fs _); [done|].
  rewrite <- Hsame. destruct (fs_files fs' !! _) as [b|] eqn:Hb; [|done].
  destruct (is_dir fs' _) eqn:Hd; [|done].
  apply is_dir_true, Hx in Hd. congruence.
Qed.

(** C33 [fs::write] followed by [fs::read_to_string] of the same path returns
    the string written: the bytes are its UTF-8 encoding, which decodes back
    to it. *)
Theorem write_read cwd cs s fs fs' :
  Forall valid_scalar s -> write cwd cs s fs = Ok fs' -> read_to_string cwd cs fs' = Ok s.
Proof.
  intros Hs (Hcs & Ha & _ & ->)%write_Ok. unfold read_to_string. simpl.
  rewrite bool_decide_eq_false_2 by done.
  destruct (is_dir _ _) eqn:D; [apply is_dir_true in D; done|].
  by rewrite lookup_insert_eq, Utf8.from_utf8_encode.
Qed.

End Fs.
