(* ===== verification/Serde.v ===== *)
(** * The configuration records and their serde implementations

    The structs [Config], [Input], [Output] and [Rust] of lines 27-62 with
    their [#[derive(Serialize, Deserialize)]] implementations, on serde's
    data model [Value] (what a self-describing format such as YAML hands to a
    visitor after scalar resolution, and what minijinja's
    [Value::from_serialize] receives).  The derived deserializer of a struct
    is serde's map visitor: it walks the entries in order, rejects a second
    occurrence of a field ([duplicate_field]), deserializes each known
    field's value when it meets it, ignores unknown keys ([IgnoredAny]), and
    at the end reports the first missing field in declaration order
    ([missing_field]), except that a missing [Option] field is [None].  The
    derived serializer writes the fields in declaration order and skips
    [repository_name]/[repository_owner] when they are [None]
    ([skip_serializing_if = "Option::is_none"], lines 36 and 39). *)

From S2P Require Import Prelude.
Local Open Scope Z_scope.
Local Open Scope rust_scope.

Module Serde.

(** ** serde's data model *)

Inductive Value :=
| VNull
| VBool (b : bool)
| VStr (s : list Z)
| VSeq (l : list Value)
| VMap (m : list (list Z * Value)).

(** What a deserializer expected when it met a value of another type. *)
Inductive Expected := ExpString | ExpBool | ExpSeq | ExpStruct (name : list Z).

#[export] Instance Expected_eq_dec : EqDecision Expected.
Proof. solve_decision. Defined.

(** [serde::de::Error] as the derived code raises it. *)
Inductive DeError :=
| InvalidType (exp : Expected)
| MissingField (field : list Z)
| DuplicateField (field : list Z).

#[export] Instance DeError_eq_dec : EqDecision DeError.
Proof. solve_decision. Defined.

(** ** The deserializers of the field types *)

Definition de_string (v : Value) : result (list Z) DeError :=
  match v with VStr s => Ok s | _ => Err (InvalidType ExpString) end.

Definition de_bool (v : Value) : result bool DeError :=
  match v with VBool b => Ok b | _ => Err (InvalidType ExpBool) end.

(** [Option<T>]: [null] is [None]. *)
Definition de_option {A} (de : Value -> result A DeError) (v : Value)
    : result (option A) DeError :=
  match v with
  | VNull => Ok None
  | _ => let? a := de v in Ok (Some a)
  end.

Fixpoint de_list {A} (de : Value -> result A DeError) (l : list Value)
    : result (list A) DeError :=
  match l with
  | [] => Ok []
  | v :: l' => let? a := de v in let? r := de_list de l' in Ok (a :: r)
  end.

(** [Vec<T>]: a sequence, elements in order, the first error wins. *)
Definition de_vec {A} (de : Value -> result A DeError) (v : Value)
    : result (list A) DeError :=
  match v with VSeq l => de_list de l | _ => Err (InvalidType ExpSeq) end.

(** ** The derived map visitor *)

(** A field of a struct: its name and the deserializer of its type, run for
    its errors when the visitor meets the key. *)
Record Field := { f_name : list Z; f_check : Value -> option DeError }.

Definition check_with {A} (de : Value -> result A DeError) (v : Value) : option DeError :=
  match de v with Ok _ => None | Err e => Some e end.

Fixpoint field_index (fields : list Field) (k : list Z) : option nat :=
  match fields with
  | [] => None
  | f :: fs => if decide (f_name f = k) then Some 0%nat else S <$> field_index fs k
  end.

(** The [while let Some(key) = map.next_key()?] loop: [slots] holds the
    values met so far, one slot per field. *)
Fixpoint visit_map (fields : list Field) (slots : list (option Value))
    (kvs : list (list Z * Value)) : result (list (option Value)) DeError :=
  match kvs with
  | [] => Ok slots
  | (k, v) :: kvs' =>
      match field_index fields k with
      | None => visit_map fields slots kvs'
      | Some i =>
          match mjoin (slots !! i) with
          | Some _ => Err (DuplicateField k)
          | None =>
              match nth i (map f_check fields) (λ _, None) v with
              | Some e => Err e
              | None => visit_map fields (<[i := Some v]> slots) kvs'
              end
          end
      end
  end.

(** The code after the loop: a required field. *)
Definition required {A} (de : Value -> result A DeError) (name : list Z)
    (slot : option Value) : result A DeError :=
  match slot with None => Err (MissingField name) | Some v => de v end.

(** An [Option] field: missing is [None]. *)
Definition optional {A} (de : Value -> result A DeError) (slot : option Value)
    : result (option A) DeError :=
  match slot with None => Ok None | Some v => de_option de v end.

Definition slot (slots : list (option Value)) (i : nat) : option Value :=
  mjoin (slots !! i).

(** ** The structs of lines 27-62 *)

Module Input.
Record t := mk { name : list Z; description : list Z; required : bool;
                 default : option (list Z) }.
End Input.

Module Output.
Record t := mk { name : list Z; description : list Z; value : list Z }.
End Output.

Module Rust.
Record t := mk { name : list Z; edition : list Z; version : list Z }.
End Rust.

Module Config.
Record t := mk {
  action_name : list Z;
  description : list Z;
  author : list Z;
  inputs : list Input.t;
  outputs : list Output.t;
  rust : Rust.t;
  repository_name : option (list Z);
  repository_owner : option (list Z);
}.
End Config.

(** ** Derived [Deserialize] *)

Definition input_fields : list Field :=
  [ {| f_name := lit "name"; f_check := check_with de_string |};
    {| f_name := lit "description"; f_check := check_with de_string |};
    {| f_name := lit "required"; f_check := check_with de_bool |};
    {| f_name := lit "default"; f_check := check_with (de_option de_string) |} ].

Definition de_Input (v : Value) : result Input.t DeError :=
  match v with
  | VMap kvs =>
      let? sl := visit_map input_fields (replicate 4 None) kvs in
      let? n := required de_string (lit "name") (slot sl 0) in
      let? d := required de_string (lit "description") (slot sl 1) in
      let? r := required de_bool (lit "required") (slot sl 2) in
      let? df := optional de_string (slot sl 3) in
      Ok (Input.mk n d r df)
  | _ => Err (InvalidType (ExpStruct (lit "Input")))
  end.

Definition output_fields : list Field :=
  [ {| f_name := lit "name"; f_check := check_with de_string |};
    {| f_name := lit "description"; f_check := check_with de_string |};
    {| f_name := lit "value"; f_check := check_with de_string |} ].

Definition de_Output (v : Value) : result Output.t DeError :=
  match v with
  | VMap kvs =>
      let? sl := visit_map output_fields (replicate 3 None) kvs in
      let? n := required de_string (lit "name") (slot sl 0) in
      let? d := required de_string (lit "description") (slot sl 1) in
      let? x := required de_string (lit "value") (slot sl 2) in
      Ok (Output.mk n d x)
  | _ => Err (InvalidType (ExpStruct (lit "Output")))
  end.

Definition rust_fields : list Field :=
  [ {| f_name := lit "name"; f_check := check_with de_string |};
    {| f_name := lit "edition"; f_check := check_with de_string |};
    {| f_name := lit "version"; f_check := check_with de_string |} ].

Definition de_Rust (v : Value) : result Rust.t DeError :=
  match v with
  | VMap kvs =>
      let? sl := visit_map rust_fields (replicate 3 None) kvs in
      let? n := required de_string (lit "name") (slot sl 0) in
      let? e := required de_string (lit "edition") (slot sl 1) in
      let? x := required de_string (lit "version") (slot sl 2) in
      Ok (Rust.mk n e x)
  | _ => Err (InvalidType (ExpStruct (lit "Rust")))
  end.

Definition config_fields : list Field :=
  [ {| f_name := lit "action_name"; f_check := check_with de_string |};
    {| f_name := lit "description"; f_check := check_with de_string |};
    {| f_name := lit "author"; f_check := check_with de_string |};
    {| f_name := lit "inputs"; f_check := check_with (de_vec de_Input) |};
    {| f_name := lit "outputs"; f_check := check_with (de_vec de_Output) |};
    {| f_name := lit "rust"; f_check := check_with de_Rust |};
    {| f_name := lit "repository_name"; f_check := check_with (de_option de_string) |};
    {| f_name := lit "repository_owner"; f_check := check_with (de_option de_string) |} ].

Definition de_Config (v : Value) : result Config.t DeError :=
  match v with
  | VMap kvs =>
      let? sl := visit_map config_fields (replicate 8 None) kvs in
      let? a := required de_string (lit "action_name") (slot sl 0) in
      let? d := required de_string (lit "description") (slot sl 1) in
      let? au := required de_string (lit "author") (slot sl 2) in
      let? ins := required (de_vec de_Input) (lit "inputs") (slot sl 3) in
      let? outs := required (de_vec de_Output) (lit "outputs") (slot sl 4) in
      let? r := required de_Rust (lit "rust") (slot sl 5) in
      let? rn := optional de_string (slot sl 6) in
      let? ro := optional de_string (slot sl 7) in
      Ok (Config.mk a d au ins outs r rn ro)
  | _ => Err (InvalidType (ExpStruct (lit "Config")))
  end.

(** ** Derived [Serialize] *)

Definition ser_option (o : option (list Z)) : Value :=
  match o with Some s => VStr s | None => VNull end.

Definition ser_Input (i : Input.t) : Value :=
  VMap [ (lit "name", VStr (Input.name i));
         (lit "description", VStr (Input.description i));
         (lit "required", VBool (Input.required i));
         (lit "default", ser_option (Input.default i)) ].

Definition ser_Output (o : Output.t) : Value :=
  VMap [ (lit "name", VStr (Output.name o));
         (lit "description", VStr (Output.description o));
         (lit "value", VStr (Output.value o)) ].

Definition ser_Rust (r : Rust.t) : Value :=
  VMap [ (lit "name", VStr (Rust.name r));
         (lit "edition", VStr (Rust.edition r));
         (lit "version", VStr (Rust.version r)) ].

(** A field with [skip_serializing_if = "Option::is_none"]. *)
Definition skip_none (k : list Z) (o : option (list Z)) : list (list Z * Value) :=
  match o with Some s => [(k, VStr s)] | None => [] end.

Definition config_entries (c : Config.t) : list (list Z * Value) :=
  [ (lit "action_name", VStr (Config.action_name c));
    (lit "description", VStr (Config.description c));
    (lit "author", VStr (Config.author c));
    (lit "inputs", VSeq (map ser_Input (Config.inputs c)));
    (lit "outputs", VSeq (map ser_Output (Config.outputs c)));
    (lit "rust", ser_Rust (Config.rust c)) ] ++
  skip_none (lit "repository_name") (Config.repository_name c) ++
  skip_none (lit "repository_owner") (Config.repository_owner c).

Definition ser_Config (c : Config.t) : Value := VMap (config_entries c).

(** ** Round trip *)

Lemma de_Input_ser i : de_Input (ser_Input i) = Ok i.
Proof. by destruct i as [? ? ? []]. Qed.

Lemma de_Output_ser o : de_Output (ser_Output o) = Ok o.
Proof. by destruct o. Qed.

Lemma de_Rust_ser r : de_Rust (ser_Rust r) = Ok r.
Proof. by destruct r. Qed.

Lemma de_list_ser {A} (de : Value -> result A DeError) ser l :
  (∀ a, de (ser a) = Ok a) -> de_list de (map ser l) = Ok l.
Proof. intros H. induction l as [|a l IH]; simpl; [done|]. by rewrite H, IH. Qed.

Lemma de_vec_ser {A} (de : Value -> result A DeError) ser l :
  (∀ a, de (ser a) = Ok a) -> de_vec de (VSeq (map ser l)) = Ok l.
Proof. apply de_list_ser. Qed.

(** C27 Deserializing a serialized configuration gives it back. *)
Lemma de_Config_ser c : de_Config (ser_Config c) = Ok c.
Proof.
  destruct c as [a d au ins outs [] rn ro].
  pose proof (de_list_ser de_Input ser_Input ins de_Input_ser) as Hi.
  pose proof (de_list_ser de_Output ser_Output outs de_Output_ser) as Ho.
  destruct rn, ro; simpl; unfold check_with; simpl; rewrite ?Hi, ?Ho; simpl;
    by rewrite ?Hi, ?Ho.
Qed.

(** ** Unknown, duplicate and missing fields *)

Lemma visit_map_unknown fields slots kvs1 kvs2 k v :
  field_index fields k = None ->
  visit_map fields slots (kvs1 ++ (k, v) :: kvs2) = visit_map fields slots (kvs1 ++ kvs2).
Proof.
  intros Hk. revert slots. induction kvs1 as [|[k1 v1] kvs1 IH]; intros slots; simpl.
  - by rewrite Hk.
  - repeat case_match; auto.
Qed.

Lemma visit_map_duplicate fields slots k v v' kvs i :
  field_index fields k = Some i -> slots !! i = Some None ->
  nth i (map f_check fields) (λ _, None) v = None ->
  visit_map fields slots ((k, v) :: (k, v') :: kvs) = Err (DuplicateField k).
Proof.
  intros Hk Hs Hc. simpl. rewrite Hk, Hs. simpl. rewrite Hc.
  rewrite list_lookup_insert_eq; [done|]. by eapply lookup_lt_Some.
Qed.

Lemma field_index_lt fields k i : field_index fields k = Some i -> (i < length fields)%nat.
Proof.
  revert i. induction fields as [|f fs IH]; intros i; simpl; [done|].
  case_decide; [intros [= <-]; lia|].
  destruct (field_index fs k) as [j|] eqn:E; [|done]. intros [= <-]. specialize (IH j eq_refl). lia.
Qed.

(** C30 A document that gives a field of [Config] twice in a row is
    rejected with the error naming that field (the first value being of the
    right type). *)
Theorem de_Config_duplicate_field k v v' kvs i :
  field_index config_fields k = Some i ->
  nth i (map f_check config_fields) (λ _, None) v = None ->
  de_Config (VMap ((k, v) :: (k, v') :: kvs)) = Err (DuplicateField k).
Proof.
  intros Hk Hc. unfold de_Config.
  rewrite (visit_map_duplicate _ _ _ _ _ _ i); [done|done| |done].
  apply lookup_replicate_2. by apply field_index_lt in Hk.
Qed.

(** C29 An entry whose key is not a field of [Config] changes nothing: serde
    ignores unknown fields. *)
Theorem de_Config_unknown_field kvs1 kvs2 k v :
  field_index config_fields k = None ->
  de_Config (VMap (kvs1 ++ (k, v) :: kvs2)) = de_Config (VMap (kvs1 ++ kvs2)).
Proof. intros Hk. unfold de_Config. by rewrite visit_map_unknown. Qed.

Definition config_required_fields : list (list Z) :=
  [lit "action_name"; lit "description"; lit "author"; lit "inputs"; lit "outputs";
   lit "rust"].

(** C28 Dropping a required field from a valid document makes deserialization
    fail with the error that names that field. *)
Theorem de_Config_missing_field c f :
  f ∈ config_required_fields ->
  de_Config (VMap (filter (λ kv, kv.1 <> f) (config_entries c))) = Err (MissingField f).
Proof.
  destruct c as [a d au ins outs [] rn ro].
  pose proof (de_list_ser de_Input ser_Input ins de_Input_ser) as Hi.
  pose proof (de_list_ser de_Output ser_Output outs de_Output_ser) as Ho.
  unfold config_required_fields. intros Hf.
  repeat (apply elem_of_cons in Hf as [->|Hf]; [|]); [..|by apply elem_of_nil in Hf];
    destruct rn, ro; simpl; unfold check_with; simpl; rewrite ?Hi, ?Ho; simpl;
    by rewrite ?Hi, ?Ho.
Qed.

End Serde.
