(* ===== verification/Process.v ===== *)
(** * The world the program runs in, and the monad that threads it

    The program is a single-threaded batch process.  Its effects are the
    subprocesses it spawns ([Command::output], lines 84-87, 106-109,
    207-210), the files it reads and writes through [std::fs], and the lines
    it prints.  A [World] holds the file system, the working directory, the
    [exec] oracle (what a command prints and how it exits; [Err] when it
    cannot be spawned) and the trace of effects performed so far.  [M] is the
    state and error monad of a run: an [Err] is a panic, with the world as it
    was when the panic happened (writes done before a panic stay done).
    [Panic] has a constructor for [panic!] with its formatted message and one
    for [Result::expect]/[Option::expect] with the message and the cause.
    [preserves_wf] states that a computation keeps the file system well
    formed whatever its outcome; [solve_wf] proves it of a composite
    computation from the lemmas of its primitives. *)

From S2P Require Import Prelude RustStr Utf8 RustPath Fs Serde.
Local Open Scope Z_scope.

Module Process.
Import RustPath Fs Serde.

(** [std::process::Output]; [status] is [ExitStatus::code] ([None] when the
    process was killed by a signal). *)
Record Output := mkOutput {
  status : option Z;
  stdout : list Z;
  stderr : list Z;
}.

(** [ExitStatus::success]. *)
Definition success (o : Output) : bool :=
  match status o with Some 0 => true | _ => false end.

(** [status.code().unwrap_or(d)]. *)
Definition code_unwrap_or (o : Output) (d : Z) : Z :=
  match status o with Some c => c | None => d end.

Inductive Event :=
| EvSpawn (program : list Z) (args : list (list Z))
| EvRead (path : list Z)
| EvPrintln (line : list Z)
| EvCreateDirAll (path : list Component)
| EvWrite (path : list Z).

#[export] Instance Event_eq_dec : EqDecision Event.
Proof. solve_decision. Defined.

(** [serde_saphyr::Error]: a syntax error of the YAML text, or an error of
    the derived deserializer. *)
Inductive ConfigError := YamlError (msg : list Z) | DataError (e : DeError).

Inductive Cause :=
| CauseIo (k : IoErrorKind)
| CauseConfig (e : ConfigError)
| CauseTemplate (msg : list Z)
| CauseNone.

Inductive Panic :=
| PanicMsg (msg : list Z)
| ExpectFailed (msg : list Z) (cause : Cause).

Record World := mkWorld {
  w_fs : Fs.Fs;
  w_cwd : list (list Z);
  w_exec : list Z -> list (list Z) -> result Output IoErrorKind;
  w_trace : list Event;
}.

Definition log (e : Event) (w : World) : World :=
  mkWorld (w_fs w) (w_cwd w) (w_exec w) (w_trace w ++ [e]).

Definition set_fs (fs : Fs.Fs) (w : World) : World :=
  mkWorld fs (w_cwd w) (w_exec w) (w_trace w).

(** ** The monad *)

Definition M (A : Type) : Type := World -> World * result A Panic.

Definition ret {A} (a : A) : M A := λ w, (w, Ok a).

Definition bind {A B} (c : M A) (k : A -> M B) : M B :=
  λ w, match c w with
       | (w', Ok a) => k a w'
       | (w', Err p) => (w', Err p)
       end.

Definition panic {A} (p : Panic) : M A := λ w, (w, Err p).

Declare Scope m_scope.
Delimit Scope m_scope with m.
Notation "'let!' x ':=' c 'in' k" := (bind c (λ x, k))
  (at level 10, x name, c at level 100, k at level 200) : m_scope.
Notation "c ;; k" := (bind c (λ _ : unit, k))
  (at level 100, right associativity) : m_scope.
Local Open Scope m_scope.

(** [for x in l { body(x) }]. *)
Fixpoint for_each {A} (l : list A) (body : A -> M unit) : M unit :=
  match l with
  | [] => ret tt
  | x :: l' => body x ;; for_each l' body
  end.

(** ** The effects *)

(** [Command::new(program).args(args).output()]. *)
Definition command_output (program : list Z) (args : list (list Z))
    : M (result Output IoErrorKind) :=
  λ w, (log (EvSpawn program args) w, Ok (w_exec w program args)).

(** [std::fs::read_to_string(path)]. *)
Definition read_to_string (path : list Z) : M (result (list Z) IoErrorKind) :=
  λ w, (log (EvRead path) w,
        Ok (Fs.read_to_string (w_cwd w) (components path) (w_fs w))).

(** [println!]. *)
Definition println (line : list Z) : M unit := λ w, (log (EvPrintln line) w, Ok tt).

(** [std::fs::create_dir_all(path)]. *)
Definition create_dir_all (path : list Component) : M (result unit IoErrorKind) :=
  λ w, let w1 := log (EvCreateDirAll path) w in
       match Fs.create_dir_all (w_cwd w) path (w_fs w) with
       | Ok fs' => (set_fs fs' w1, Ok (Ok tt))
       | Err e => (w1, Ok (Err e))
       end.

(** [std::fs::write(path, contents)]. *)
Definition write (path contents : list Z) : M (result unit IoErrorKind) :=
  λ w, let w1 := log (EvWrite path) w in
       match Fs.write (w_cwd w) (components path) contents (w_fs w) with
       | Ok fs' => (set_fs fs' w1, Ok (Ok tt))
       | Err e => (w1, Ok (Err e))
       end.

(** [Result::expect(msg)]: the cause is the [Debug] of the error. *)
Definition expect {A E} (cause : E -> Cause) (r : result A E) (msg : list Z) : M A :=
  match r with Ok a => ret a | Err e => panic (ExpectFailed msg (cause e)) end.

(** [Option::expect(msg)]. *)
Definition expect_some {A} (o : option A) (msg : list Z) : M A :=
  match o with Some a => ret a | None => panic (ExpectFailed msg CauseNone) end.

(** [x.unwrap_or_else(|_| panic!(msg))]. *)
Definition unwrap_or_panic {A E} (r : result A E) (msg : list Z) : M A :=
  match r with Ok a => ret a | Err _ => panic (PanicMsg msg) end.

(** ** Formatting *)

Fixpoint digits_aux (fuel : nat) (n : Z) (acc : list Z) : list Z :=
  match fuel with
  | O => acc
  | S f =>
      let acc' := (48 + n mod 10) :: acc in
      if n <? 10 then acc' else digits_aux f (n / 10) acc'
  end.

(** [Display] of an [i32]: ten digits at most, so the fuel of 16 digits
    suffices. *)
Definition display_i32 (z : Z) : list Z :=
  if z <? 0 then 45 :: digits_aux 16 (- z) [] else digits_aux 16 z [].

(** The number a string of decimal digits denotes. *)
Definition digits_value (ds : list Z) : Z := foldl (λ acc d, acc * 10 + (d - 48)) 0 ds.

(** A canonical decimal numeral: digits, no leading zero but for [0]. *)
Definition numeral (ds : list Z) : Prop :=
  ds <> [] /\ Forall (λ d, 48 <= d <= 57) ds /\ (head ds = Some 48 -> ds = [48]).

(** ** Reasoning about runs *)

Lemma bind_Ok_inv {A B} (c : M A) (k : A -> M B) w w' b :
  bind c k w = (w', Ok b) -> ∃ w1 a, c w = (w1, Ok a) /\ k a w1 = (w', Ok b).
Proof. unfold bind. destruct (c w) as [w1 [a|p]]; [eauto|congruence]. Qed.

Lemma bind_Ok {A B} (c : M A) (k : A -> M B) w w1 a :
  c w = (w1, Ok a) -> bind c k w = k a w1.
Proof. unfold bind. by intros ->. Qed.

Lemma bind_Err {A B} (c : M A) (k : A -> M B) w w1 p :
  c w = (w1, Err p) -> bind c k w = (w1, Err p).
Proof. unfold bind. by intros ->. Qed.

Lemma log_exec e w : w_exec (log e w) = w_exec w.
Proof. done. Qed.

Lemma log_cwd e w : w_cwd (log e w) = w_cwd w.
Proof. done. Qed.

Lemma log_fs e w : w_fs (log e w) = w_fs w.
Proof. done. Qed.

Lemma log_trace e w : w_trace (log e w) = w_trace w ++ [e].
Proof. done. Qed.

(** Inversion of the primitives on a successful run. *)

Lemma ret_inv {A} (a : A) w w' a' : ret a w = (w', Ok a') -> w' = w /\ a' = a.
Proof. by intros [= <- <-]. Qed.

Lemma expect_inv {A E} (f : E -> Cause) r msg w w' (a : A) :
  expect f r msg w = (w', Ok a) -> r = Ok a /\ w' = w.
Proof. unfold expect, ret, panic. destruct r; by intros [= <- <-]. Qed.

Lemma expect_some_inv {A} (o : option A) msg w w' a :
  expect_some o msg w = (w', Ok a) -> o = Some a /\ w' = w.
Proof. unfold expect_some, ret, panic. destruct o; by intros [= <- <-]. Qed.

Lemma unwrap_or_panic_inv {A E} (r : result A E) msg w w' a :
  unwrap_or_panic r msg w = (w', Ok a) -> r = Ok a /\ w' = w.
Proof. unfold unwrap_or_panic, ret, panic. destruct r; by intros [= <- <-]. Qed.

Lemma println_inv l w w' u : println l w = (w', Ok u) -> w' = log (EvPrintln l) w.
Proof. by intros [= <- _]. Qed.

Lemma command_output_inv p args w w' r :
  command_output p args w = (w', Ok r) -> w' = log (EvSpawn p args) w /\ r = w_exec w p args.
Proof. by intros [= <- <-]. Qed.

Lemma read_to_string_inv p w w' r :
  read_to_string p w = (w', Ok r) ->
  w' = log (EvRead p) w /\ r = Fs.read_to_string (w_cwd w) (components p) (w_fs w).
Proof. by intros [= <- <-]. Qed.

Lemma create_dir_all_inv p w w' :
  create_dir_all p w = (w', Ok (Ok tt)) ->
  ∃ fs', Fs.create_dir_all (w_cwd w) p (w_fs w) = Ok fs' /\
         w' = set_fs fs' (log (EvCreateDirAll p) w).
Proof. unfold create_dir_all. case_match; intros [= <-]; eauto. Qed.

Lemma write_inv p s w w' :
  write p s w = (w', Ok (Ok tt)) ->
  ∃ fs', Fs.write (w_cwd w) (components p) s (w_fs w) = Ok fs' /\
         w' = set_fs fs' (log (EvWrite p) w).
Proof. unfold write. case_match; intros [= <-]; eauto. Qed.

(** ** Monad laws, pointwise *)

Lemma bind_ret_l {A B} (a : A) (k : A -> M B) w : bind (ret a) k w = k a w.
Proof. done. Qed.

Lemma bind_ret_r {A} (c : M A) w : bind c ret w = c w.
Proof. unfold bind, ret. by destruct (c w) as [w1 [a|p]]. Qed.

Lemma bind_assoc {A B C} (c : M A) (k1 : A -> M B) (k2 : B -> M C) w :
  bind (bind c k1) k2 w = bind c (λ a, bind (k1 a) k2) w.
Proof. unfold bind. by destruct (c w) as [w1 [a|p]]. Qed.

(** ** Total correctness

    [succeeds c Q w]: run from [w], [c] returns (does not panic) a value
    [a] in a world [w'] with [Q a w'].  The rules below follow the
    primitives and [bind], so that a proof that a composite computation
    completes follows its code. *)

Definition succeeds {A} (c : M A) (Q : A -> World -> Prop) (w : World) : Prop :=
  ∃ w' a, c w = (w', Ok a) /\ Q a w'.

Lemma succeeds_of_eq {A} (c : M A) (Q : A -> World -> Prop) w w' a :
  c w = (w', Ok a) -> Q a w' -> succeeds c Q w.
Proof. intros; by do 2 eexists. Qed.

Lemma succeeds_weaken {A} (c : M A) (Q Q' : A -> World -> Prop) w :
  succeeds c Q w -> (∀ a w', Q a w' -> Q' a w') -> succeeds c Q' w.
Proof. intros (w' & a & Hc & HQ) HQQ. exists w', a. auto. Qed.

Lemma succeeds_ret {A} (a : A) (Q : A -> World -> Prop) w : Q a w -> succeeds (ret a) Q w.
Proof. intros; by do 2 eexists. Qed.

Lemma succeeds_bind {A B} (c : M A) (k : A -> M B) Q w :
  succeeds c (λ a w1, succeeds (k a) Q w1) w -> succeeds (bind c k) Q w.
Proof.
  intros (w1 & a & Hc & w' & b & Hk & HQ). exists w', b. unfold bind. by rewrite Hc.
Qed.

Lemma succeeds_println l (Q : unit -> World -> Prop) w :
  Q tt (log (EvPrintln l) w) -> succeeds (println l) Q w.
Proof. intros; by do 2 eexists. Qed.

Lemma succeeds_expect {A E} (f : E -> Cause) r msg (Q : A -> World -> Prop) w a :
  r = Ok a -> Q a w -> succeeds (expect f r msg) Q w.
Proof. intros -> ?. by do 2 eexists. Qed.

Lemma succeeds_unwrap_or_panic {A E} (r : result A E) msg (Q : A -> World -> Prop) w a :
  r = Ok a -> Q a w -> succeeds (unwrap_or_panic r msg) Q w.
Proof. intros -> ?. by do 2 eexists. Qed.

Lemma succeeds_create_dir_all p (Q : result unit IoErrorKind -> World -> Prop) w fs' :
  Fs.create_dir_all (w_cwd w) p (w_fs w) = Ok fs' ->
  Q (Ok tt) (set_fs fs' (log (EvCreateDirAll p) w)) -> succeeds (create_dir_all p) Q w.
Proof. intros Hc HQ. do 2 eexists. unfold create_dir_all. by rewrite Hc. Qed.

Lemma succeeds_write p s (Q : result unit IoErrorKind -> World -> Prop) w fs' :
  Fs.write (w_cwd w) (components p) s (w_fs w) = Ok fs' ->
  Q (Ok tt) (set_fs fs' (log (EvWrite p) w)) -> succeeds (write p s) Q w.
Proof. intros Hc HQ. do 2 eexists. unfold write. by rewrite Hc. Qed.

(** A loop completes when each iteration completes from every world of an
    invariant [I] and keeps it. *)
Lemma succeeds_for_each {A} (l : list A) body (I : World -> Prop) w :
  (∀ x w1, x ∈ l -> I w1 -> succeeds (body x) (λ _ w2, I w2) w1) ->
  I w -> succeeds (for_each l body) (λ _ w', I w') w.
Proof.
  revert w. induction l as [|x l IH]; intros w Hb Hw; simpl; [by apply succeeds_ret|].
  apply succeeds_bind. apply (succeeds_weaken _ _ _ _ (Hb x w ltac:(set_solver) Hw)).
  intros [] w1 Hw1. apply IH; [|done]. intros y w2 Hy. apply Hb. set_solver.
Qed.

(** [mstep H]: split a successful [bind] in [H] into its two runs. *)
Ltac mstep H := apply bind_Ok_inv in H as (?w & ?x & ?Hs & H).

(** ** The file-system invariant along a run

    [preserves_wf c]: whatever [c] does, and whether it returns or panics, a
    well-formed file system stays well formed.  The primitives have it and
    [bind] composes it, so every computation of the program has it. *)

Definition preserves_wf {A} (c : M A) : Prop :=
  ∀ w, fs_wf (w_fs w) -> fs_wf (w_fs (fst (c w))).

Lemma ret_preserves_wf {A} (a : A) : preserves_wf (ret a).
Proof. by intros w. Qed.

Lemma panic_preserves_wf {A} p : preserves_wf (A:=A) (panic p).
Proof. by intros w. Qed.

Lemma bind_preserves_wf {A B} (c : M A) (k : A -> M B) :
  preserves_wf c -> (∀ a, preserves_wf (k a)) -> preserves_wf (bind c k).
Proof.
  intros Hc Hk w Hw. specialize (Hc w Hw). unfold bind.
  destruct (c w) as [w1 [a|p]]; [by apply Hk|done].
Qed.

Lemma println_preserves_wf l : preserves_wf (println l).
Proof. by intros w. Qed.

Lemma command_output_preserves_wf p args : preserves_wf (command_output p args).
Proof. by intros w. Qed.

Lemma read_to_string_preserves_wf p : preserves_wf (read_to_string p).
Proof. by intros w. Qed.

Lemma create_dir_all_preserves_wf p : preserves_wf (create_dir_all p).
Proof.
  intros w Hw. unfold create_dir_all.
  destruct (Fs.create_dir_all _ _ _) eqn:E; [|done]. by eapply create_dir_all_wf.
Qed.

Lemma write_preserves_wf p s : preserves_wf (write p s).
Proof.
  intros w Hw. unfold write. destruct (Fs.write _ _ _ _) eqn:E; [|done]. by eapply write_wf.
Qed.

Lemma expect_preserves_wf {A E} (f : E -> Cause) (r : result A E) msg :
  preserves_wf (expect f r msg).
Proof. destruct r; by intros w. Qed.

Lemma expect_some_preserves_wf {A} (o : option A) msg : preserves_wf (expect_some o msg).
Proof. destruct o; by intros w. Qed.

Lemma unwrap_or_panic_preserves_wf {A E} (r : result A E) msg :
  preserves_wf (unwrap_or_panic r msg).
Proof. destruct r; by intros w. Qed.

Lemma for_each_preserves_wf {A} (l : list A) body :
  (∀ x, preserves_wf (body x)) -> preserves_wf (for_each l body).
Proof.
  intros Hb. induction l as [|x l IH]; simpl.
  - apply ret_preserves_wf.
  - apply bind_preserves_wf; [done|]. by intros [].
Qed.

#[export] Hint Resolve ret_preserves_wf panic_preserves_wf println_preserves_wf
  command_output_preserves_wf read_to_string_preserves_wf create_dir_all_preserves_wf
  write_preserves_wf expect_preserves_wf expect_some_preserves_wf
  unwrap_or_panic_preserves_wf : fs_wf.

(** [solve_wf]: take a computation apart along its [bind]s, its [if]s and its
    [match]es, and close each primitive from the hint database [fs_wf]. *)
Ltac solve_wf :=
  repeat first
    [ solve [eauto with fs_wf]
    | apply bind_preserves_wf; [|intros ?]
    | apply for_each_preserves_wf; intros ?
    | progress cbv zeta
    | case_match ].

(** ** Decimal formatting *)

Lemma digits_value_snoc ds d : digits_value (ds ++ [d]) = digits_value ds * 10 + (d - 48).
Proof. unfold digits_value. by rewrite foldl_app. Qed.

Lemma digits_aux_S f n acc :
  digits_aux (S f) n acc =
  if n <? 10 then (48 + n mod 10) :: acc else digits_aux f (n / 10) ((48 + n mod 10) :: acc).
Proof. done. Qed.

Lemma digits_aux_spec fuel n acc :
  0 <= n < 10 ^ Z.of_nat (S fuel) ->
  ∃ ds, digits_aux (S fuel) n acc = ds ++ acc /\ numeral ds /\ digits_value ds = n.
Proof.
  revert n acc. induction fuel as [|f IH]; intros n acc Hn;
    rewrite Nat2Z.inj_succ, Z.pow_succ_r in Hn by lia; rewrite digits_aux_S.
  all: destruct (Z.ltb_spec n 10) as [Hlt|Hge].
  1,3: exists [48 + n mod 10]; split_and!; [done|split_and!| ];
    [done|repeat constructor; zlia|intros [= ?]; f_equal; zlia|unfold digits_value; simpl; zlia].
  - simpl in Hn. lia.
  - destruct (IH (n / 10) ((48 + n mod 10) :: acc)) as (ds & -> & (Hne & Hd & Hz) & Hv);
      [zlia|].
    exists (ds ++ [48 + n mod 10]). rewrite <- app_assoc. split_and!; [done|split_and!|].
    + by destruct ds.
    + apply Forall_app. split; [done|]. repeat constructor; zlia.
    + destruct ds as [|d ds]; [done|]. simpl. intros [= ->].
      assert (ds = []) as -> by (specialize (Hz eq_refl); congruence).
      unfold digits_value in Hv. simpl in Hv. zlia.
    + rewrite digits_value_snoc, Hv. zlia.
Qed.

(** C36 [Display] of an [i32]: within the range of [i32] the fuel of 16
    digits suffices, and the result is a minus sign for a negative number
    followed by the canonical decimal numeral of its absolute value. *)
Theorem display_i32_spec z :
  - 2 ^ 31 <= z < 2 ^ 31 ->
  ∃ ds, display_i32 z = (if z <? 0 then [45] else []) ++ ds /\ numeral ds /\
        digits_value ds = Z.abs z.
Proof.
  intros Hz. unfold display_i32.
  destruct (digits_aux_spec 15 (Z.abs z) [])
    as (ds & Hds & Hn & Hv); [simpl; lia|].
  exists ds. rewrite app_nil_r in Hds. split_and!; [|done|done].
  destruct (Z.ltb_spec z 0).
  - rewrite Z.abs_neq in Hds by lia. by rewrite Hds.
  - rewrite Z.abs_eq in Hds by lia. by rewrite Hds.
Qed.

End Process.
