(* ===== verification/Git.v ===== *)
(** * Configuration loading and the repository inspector

    The inherent [impl Config] block (lines 64-131): [Config::serialize]
    reads the YAML file and deserializes it (the ConfigLoader of the spec),
    [Config::extract_repo_name_and_owner] runs [git remote] and
    [git remote get-url origin] and derives the repository name and owner from
    the URL (the RepositoryInspector), [Config::new] composes them (the
    ConfigAssembler); and the free functions [get_repository_root_path]
    (lines 201-220) and [join_root_path] (lines 187-199).  The YAML text
    layer of [serde_saphyr] is an interface, [YamlFormat]: the theorems hold
    for every parser.  Every panic carries the message the source formats. *)

From S2P Require Import Prelude RustStr Utf8 RustPath Fs Serde Process.
Local Open Scope Z_scope.

Module Git.
Import RustStr RustPath Serde Process.
Local Open Scope m_scope.

(** [serde_saphyr]'s parsing of YAML text into serde's data model. *)
Class YamlFormat := { yaml_from_str : list Z -> result Value (list Z) }.

Definition git : list Z := lit "git".
Definition colon : Z := 58.

(** ** URL parsing (lines 113 and 118) *)

(** [url.rsplit('/').next().and_then(|s| s.strip_suffix(".git"))] *)
Definition repo_name_of_url (url : list Z) : option (list Z) :=
  match next (rsplit url slash) with
  | Some s => strip_suffix s (lit ".git")
  | None => None
  end.

(** [url.split('/').next().and_then(|s| s.rsplit(':').next())] *)
Definition owner_of_url (url : list Z) : option (list Z) :=
  match next (split url slash) with
  | Some s => next (rsplit s colon)
  | None => None
  end.

(** ** Messages of the source *)

(** Lines 81-83: a backslash at the end of a line of a Rust string literal
    drops the line break and the next line's leading blanks. *)
Definition remotes_err_msg : list Z :=
  lit "Failed to get git remotes or git is not installed," ++
  lit "please ensure git is installed and the current directory is a" ++
  lit "git repository with a remote set up.".

Definition no_origin_msg : list Z :=
  lit "No 'origin' remote found. Please ensure the current directory is a git repository with an 'origin' remote set up.".

Definition status_msg (code : Z) : list Z :=
  lit "Git command failed with status: " ++ display_i32 code.

Definition get_url_err_msg : list Z := lit "Failed to get git remote origin URL".

(** Lines 204-206. *)
Definition root_err_msg : list Z :=
  lit "Failed to get git repository root path," ++
  lit "please ensure git is installed and the current directory is a" ++
  lit "git repository.".

Definition with_repository_name (c : Config.t) (n : option (list Z)) : Config.t :=
  Config.mk (Config.action_name c) (Config.description c) (Config.author c)
    (Config.inputs c) (Config.outputs c) (Config.rust c) n (Config.repository_owner c).

Definition with_repository_owner (c : Config.t) (o : option (list Z)) : Config.t :=
  Config.mk (Config.action_name c) (Config.description c) (Config.author c)
    (Config.inputs c) (Config.outputs c) (Config.rust c) (Config.repository_name c) o.

Module ConfigImpl.
Section WithYaml.
Context {YF : YamlFormat}.

(** [serde_saphyr::from_str::<Config>]. *)
Definition from_str (s : list Z) : result Config.t ConfigError :=
  match yaml_from_str s with
  | Err m => Err (YamlError m)
  | Ok v => map_err DataError (de_Config v)
  end.

(** [Config::serialize] (lines 72-76). *)
Definition serialize (path : list Z) : M Config.t :=
  let! r := read_to_string path in
  let! config_str := unwrap_or_panic r (lit "Failed to read config file: " ++ path) in
  expect CauseConfig (from_str config_str) (lit "Failed to parse config JSON").

(** [Config::extract_repo_name_and_owner] (lines 78-130). *)
Definition extract_repo_name_and_owner (self : Config.t) : M Config.t :=
  let! r := command_output git [lit "remote"] in
  let! output := expect CauseIo r remotes_err_msg in
  (if success output then
     let command_output := trim (Utf8.from_utf8_lossy (stdout output)) in
     if negb (contains command_output (lit "origin")) then panic (PanicMsg no_origin_msg)
     else ret tt
   else panic (PanicMsg (status_msg (code_unwrap_or output (-1))))) ;;
  let! r2 := command_output git [lit "remote"; lit "get-url"; lit "origin"] in
  let! output2 := expect CauseIo r2 get_url_err_msg in
  if success output2 then
    let url := trim (Utf8.from_utf8_lossy (stdout output2)) in
    let! name := match repo_name_of_url url with
                 | Some n => ret n
                 | None => panic (PanicMsg (lit "Failed to extract repository name from URL: " ++ url))
                 end in
    let self1 := with_repository_name self (Some name) in
    let! owner := match owner_of_url url with
                  | Some o => ret o
                  | None => panic (PanicMsg (lit "Failed to extract author name from URL: " ++ url))
                  end in
    ret (with_repository_owner self1 (Some owner))
  else
    panic (PanicMsg (get_url_err_msg ++ lit ", status code: '" ++
                     display_i32 (code_unwrap_or output2 (-1)) ++ lit "'")).

(** [Config::new] (lines 65-70). *)
Definition new (path : list Z) : M Config.t :=
  let! config := serialize path in
  extract_repo_name_and_owner config.

End WithYaml.
End ConfigImpl.

(** [command_args] of [get_repository_root_path] (line 203). *)
Definition root_args : list (list Z) := [lit "rev-parse"; lit "--show-toplevel"].

(** [get_repository_root_path] (lines 201-220). *)
Definition get_repository_root_path : M (list Z) :=
  let! r := command_output git root_args in
  let! output := expect CauseIo r root_err_msg in
  if success output then ret (trim (Utf8.from_utf8_lossy (stdout output)))
  else panic (PanicMsg (status_msg (code_unwrap_or output (-1)))).

(** [join_root_path] (lines 187-199). *)
Definition join_root_path (relative_path : list Z) : M (list Z) :=
  let! repository_root := get_repository_root_path in
  let err_msg := lit "Failed to join repository root path '" ++ repository_root ++
                 lit "' with relative path '" ++ relative_path ++ lit "'" in
  expect_some (to_str (join repository_root relative_path)) err_msg.

(** ** URL parsing *)

Lemma slash_not_in_git : slash ∉ lit ".git".
Proof. vm_compute. intros H. repeat (apply elem_of_cons in H as [H|H]; [discriminate|]).
  by apply elem_of_nil in H. Qed.

(** The name is the last [/]-segment with [.git] stripped. *)
Lemma repo_name_of_url_last a seg :
  slash ∉ seg -> repo_name_of_url (a ++ slash :: seg) = strip_suffix seg (lit ".git").
Proof. intros Hs. unfold repo_name_of_url. by rewrite next_rsplit_last. Qed.

(** The owner is the part after the last [:] of the first [/]-segment. *)
Lemma owner_of_url_first f rest :
  slash ∉ f -> owner_of_url (f ++ slash :: rest) = next (rsplit f colon).
Proof. intros Hs. unfold owner_of_url. by rewrite next_split_first. Qed.

Lemma colon_not_slash : colon <> slash.
Proof. done. Qed.

(** C12 An SSH-style URL [prefix/name.git] yields the repository name
    [name]. *)
Theorem repo_name_of_url_ssh prefix name :
  slash ∉ name -> repo_name_of_url (prefix ++ slash :: name ++ lit ".git") = Some name.
Proof.
  intros Hn. rewrite repo_name_of_url_last.
  - by apply strip_suffix_spec.
  - apply not_elem_of_app. split; [done|apply slash_not_in_git].
Qed.

(** C15 When the last [/]-segment of the URL does not end in [.git] there is
    no repository name (and the program panics): the suffix is required,
    not stripped "if present". *)
Theorem repo_name_of_url_no_git a seg :
  slash ∉ seg -> (∀ r, seg <> r ++ lit ".git") -> repo_name_of_url (a ++ slash :: seg) = None.
Proof.
  intros Hs Hn. rewrite repo_name_of_url_last by done.
  destruct (strip_suffix seg (lit ".git")) as [r|] eqn:E; [|done].
  apply strip_suffix_spec in E. by destruct (Hn r).
Qed.

(** C13 In [user@host:owner/rest] the owner is [owner]. *)
Theorem owner_of_url_ssh user owner rest :
  slash ∉ user -> slash ∉ owner -> colon ∉ owner ->
  owner_of_url (user ++ colon :: owner ++ slash :: rest) = Some owner.
Proof.
  intros Hu Ho Hc.
  replace (user ++ colon :: owner ++ slash :: rest)
    with ((user ++ colon :: owner) ++ slash :: rest) by by rewrite <- app_assoc.
  rewrite owner_of_url_first; [by apply next_rsplit_last|].
  apply not_elem_of_app. split; [done|]. apply not_elem_of_cons. split; [done|done].
Qed.

(** C14 For an HTTPS URL the first [/]-segment is [https:], and the owner is
    the empty string after its colon. *)
Theorem owner_of_url_https rest : owner_of_url (lit "https:" ++ slash :: rest) = Some [].
Proof.
  rewrite owner_of_url_first; [reflexivity|].
  vm_compute. intros H. repeat (apply elem_of_cons in H as [H|H]; [discriminate|]).
  by apply elem_of_nil in H.
Qed.

(** C25 Owner extraction never fails: the [None] branch of line 119 (and its
    panic) is unreachable. *)
Theorem owner_of_url_total url : ∃ o, owner_of_url url = Some o.
Proof.
  unfold owner_of_url. destruct (next_split_Some url slash) as [w ->].
  apply next_rsplit_Some.
Qed.

(** ** The inspector's runs *)

Definition remote_args : list (list Z) := [lit "remote"].
Definition get_url_args : list (list Z) := [lit "remote"; lit "get-url"; lit "origin"].

(** The URL the program reads from the output of [git remote get-url]. *)
Definition url_of (o : Output) : list Z := trim (Utf8.from_utf8_lossy (stdout o)).

(** Unfold the inspector and run it along the answers of [git] in
    context. *)
Ltac run_extract :=
  unfold ConfigImpl.extract_repo_name_and_owner, bind, command_output, expect;
  cbn [w_exec log]; fold remote_args get_url_args; run_hyps.

(** C11 When [git remote] lists a remote whose name contains [origin] and
    [git remote get-url origin] prints a URL with a name and an owner, the
    configuration gets them, after exactly these two commands. *)
Theorem extract_ok self w o1 o2 n ow :
  w_exec w git remote_args = Ok o1 -> success o1 = true ->
  contains (trim (Utf8.from_utf8_lossy (stdout o1))) (lit "origin") = true ->
  w_exec w git get_url_args = Ok o2 -> success o2 = true ->
  repo_name_of_url (url_of o2) = Some n -> owner_of_url (url_of o2) = Some ow ->
  ConfigImpl.extract_repo_name_and_owner self w =
    (log (EvSpawn git get_url_args) (log (EvSpawn git remote_args) w),
     Ok (with_repository_owner (with_repository_name self (Some n)) (Some ow))).
Proof.
  intros. unfold url_of in *. run_extract. reflexivity.
Qed.

(** C16 When [git remote] succeeds but lists no remote containing
    [origin], the program panics with its message after that one command:
    [git remote get-url origin] is never run. *)
Theorem extract_no_origin self w o1 :
  w_exec w git remote_args = Ok o1 -> success o1 = true ->
  contains (trim (Utf8.from_utf8_lossy (stdout o1))) (lit "origin") = false ->
  ConfigImpl.extract_repo_name_and_owner self w =
    (log (EvSpawn git remote_args) w, Err (PanicMsg no_origin_msg)).
Proof.
  intros. run_extract. reflexivity.
Qed.

(** C18 When [git remote] runs but exits unsuccessfully, the inspector
    panics with [Git command failed with status: ] and the exit code ([-1]
    when the process was killed by a signal), after that single command. *)
Theorem extract_remote_failed self w o1 :
  w_exec w git remote_args = Ok o1 -> success o1 = false ->
  ConfigImpl.extract_repo_name_and_owner self w =
    (log (EvSpawn git remote_args) w,
     Err (PanicMsg (status_msg (code_unwrap_or o1 (-1))))).
Proof.
  intros. run_extract. reflexivity.
Qed.

(** C19 When [git remote get-url origin] runs but exits unsuccessfully, the
    inspector panics after both commands with
    [Failed to get git remote origin URL, status code: '<code>'], the exit
    code printed as a decimal [i32] ([-1] when killed by a signal). *)
Theorem extract_get_url_failed self w o1 o2 :
  w_exec w git remote_args = Ok o1 -> success o1 = true ->
  contains (url_of o1) (lit "origin") = true ->
  w_exec w git get_url_args = Ok o2 -> success o2 = false ->
  ConfigImpl.extract_repo_name_and_owner self w =
    (log (EvSpawn git get_url_args) (log (EvSpawn git remote_args) w),
     Err (PanicMsg (get_url_err_msg ++ lit ", status code: '" ++
                    display_i32 (code_unwrap_or o2 (-1)) ++ lit "'"))).
Proof. intros. unfold url_of in *. run_extract. reflexivity. Qed.

(** C20 When the origin URL has no [<name>.git] last segment (an HTTPS URL
    without the suffix, say), the inspector panics after both commands with
    [Failed to extract repository name from URL: <url>]. *)
Theorem extract_no_repo_name self w o1 o2 :
  w_exec w git remote_args = Ok o1 -> success o1 = true ->
  contains (url_of o1) (lit "origin") = true ->
  w_exec w git get_url_args = Ok o2 -> success o2 = true ->
  repo_name_of_url (url_of o2) = None ->
  ConfigImpl.extract_repo_name_and_owner self w =
    (log (EvSpawn git get_url_args) (log (EvSpawn git remote_args) w),
     Err (PanicMsg (lit "Failed to extract repository name from URL: " ++ url_of o2))).
Proof. intros. unfold url_of in *. run_extract. reflexivity. Qed.

(** C17 The check of line 91 is a substring test on the whole output of
    [git remote]: whenever [origin] occurs anywhere in it (a single remote
    named [upstream-origin], say), the inspector does not stop with its
    "No 'origin' remote found" message, whatever [git] answers next; it runs
    [git remote get-url origin]. *)
Theorem extract_origin_substring self w o1 pre suf :
  w_exec w git remote_args = Ok o1 -> success o1 = true ->
  url_of o1 = pre ++ lit "origin" ++ suf ->
  snd (ConfigImpl.extract_repo_name_and_owner self w) <> Err (PanicMsg no_origin_msg) /\
  EvSpawn git get_url_args ∈ w_trace (fst (ConfigImpl.extract_repo_name_and_owner self w)).
Proof.
  intros H1 S1 Hs.
  assert (C1 : contains (trim (Utf8.from_utf8_lossy (stdout o1))) (lit "origin") = true).
  { apply contains_spec. exists pre, suf. exact Hs. }
  clear Hs. run_extract.
  repeat (simpl; match goal with
    | |- context [match ?x with Ok _ => _ | Err _ => _ end] => destruct x
    | |- context [match ?x with Some _ => _ | None => _ end] => destruct x
    | |- context [if ?b then _ else _] => destruct b
    end); (split; [intros [= Hm]; vm_compute in Hm; discriminate|set_solver]).
Qed.

(** Whatever [git] answers, a successful run only sets the two repository
    fields, and sets both. *)
Lemma extract_Ok_shape self w w' c :
  ConfigImpl.extract_repo_name_and_owner self w = (w', Ok c) ->
  ∃ n o, c = with_repository_owner (with_repository_name self (Some n)) (Some o).
Proof.
  unfold ConfigImpl.extract_repo_name_and_owner, bind, command_output, expect, ret, panic.
  simpl. repeat (case_match; simpl in *; simplify_eq); intros Hres; simplify_eq; eauto.
Qed.

(** [Config::serialize] reads the configuration file and nothing else. *)
Lemma serialize_world `{YamlFormat} path w w' c :
  ConfigImpl.serialize path w = (w', Ok c) -> w' = log (EvRead path) w.
Proof.
  unfold ConfigImpl.serialize, bind, read_to_string, unwrap_or_panic, expect, ret, panic.
  repeat case_match; simplify_eq; congruence.
Qed.

(** C21 After [Config::new] returns, the repository name and owner are both
    set: rendering never sees them unset. *)
Theorem new_populates `{YamlFormat} path w w' c :
  ConfigImpl.new path w = (w', Ok c) ->
  ∃ n o, Config.repository_name c = Some n /\ Config.repository_owner c = Some o.
Proof.
  intros (w1 & c0 & _ & Hx)%bind_Ok_inv.
  destruct (extract_Ok_shape _ _ _ _ Hx) as (n & o & ->). by exists n, o.
Qed.

(** A successful inspection runs the two commands and touches nothing
    else. *)
Lemma extract_Ok_world self w w' c :
  ConfigImpl.extract_repo_name_and_owner self w = (w', Ok c) ->
  w' = log (EvSpawn git get_url_args) (log (EvSpawn git remote_args) w).
Proof.
  unfold ConfigImpl.extract_repo_name_and_owner, bind, command_output, expect, ret, panic.
  simpl. repeat (case_match; simpl in *; simplify_eq); intros Hres; simplify_eq; eauto.
Qed.

(** [Config::new] on success: the file is read, the two commands run, and
    only the repository fields of the deserialized value are set. *)
Lemma config_new_Ok `{YamlFormat} path w w' c :
  ConfigImpl.new path w = (w', Ok c) ->
  w' = log (EvSpawn git get_url_args) (log (EvSpawn git remote_args) (log (EvRead path) w)) /\
  ∃ c0 n o, snd (ConfigImpl.serialize path w) = Ok c0 /\
    c = with_repository_owner (with_repository_name c0 (Some n)) (Some o).
Proof.
  intros (w1 & c0 & Hs & Hx)%bind_Ok_inv.
  pose proof (serialize_world _ _ _ _ Hs) as ->.
  split; [by apply extract_Ok_world in Hx|].
  destruct (extract_Ok_shape _ _ _ _ Hx) as (n & o & ->). exists c0, n, o. by rewrite Hs.
Qed.

Lemma root_path_Ok w w' r :
  get_repository_root_path w = (w', Ok r) ->
  ∃ o, w_exec w git root_args = Ok o /\ success o = true /\ r = url_of o /\
       w' = log (EvSpawn git root_args) w.
Proof.
  unfold get_repository_root_path, bind, command_output, expect, ret, panic.
  simpl. destruct (w_exec w git root_args) as [o|]; [|done].
  destruct (success o) eqn:So; intros [= <- <-]. by exists o.
Qed.

Lemma join_root_path_Ok rel w w' p :
  join_root_path rel w = (w', Ok p) ->
  ∃ o, w_exec w git root_args = Ok o /\ success o = true /\
       to_str (join (url_of o) rel) = Some p /\ w' = log (EvSpawn git root_args) w.
Proof.
  intros (w1 & r & (o & Ho & So & -> & ->)%root_path_Ok & H)%bind_Ok_inv.
  apply expect_some_inv in H as [Hp ->]. eauto.
Qed.

(** C22 [Config::new] when everything it depends on is in place: the file
    reads as text that parses to [c0], [git remote] succeeds and lists
    [origin], [git remote get-url origin] succeeds with a URL of name [n]
    and owner [ow].  It returns [c0] with exactly the two repository fields
    set, after one read and these two commands, in this order. *)
Theorem config_new_ok `{YamlFormat} path w s c0 o1 o2 n ow :
  Fs.read_to_string (w_cwd w) (components path) (w_fs w) = Ok s ->
  ConfigImpl.from_str s = Ok c0 ->
  w_exec w git remote_args = Ok o1 -> success o1 = true ->
  contains (url_of o1) (lit "origin") = true ->
  w_exec w git get_url_args = Ok o2 -> success o2 = true ->
  repo_name_of_url (url_of o2) = Some n -> owner_of_url (url_of o2) = Some ow ->
  ConfigImpl.new path w =
    (log (EvSpawn git get_url_args) (log (EvSpawn git remote_args) (log (EvRead path) w)),
     Ok (with_repository_owner (with_repository_name c0 (Some n)) (Some ow))).
Proof.
  intros. unfold url_of in *. unfold ConfigImpl.new, ConfigImpl.serialize, read_to_string.
  run_extract. reflexivity.
Qed.

(** The inspector and the loader only read and spawn: they keep the file
    system well formed, whether they return or panic. *)
Lemma config_new_preserves_wf `{YamlFormat} path : preserves_wf (ConfigImpl.new path).
Proof.
  unfold ConfigImpl.new, ConfigImpl.serialize, ConfigImpl.extract_repo_name_and_owner.
  solve_wf.
Qed.

Lemma join_root_path_preserves_wf rel : preserves_wf (join_root_path rel).
Proof. unfold join_root_path, get_repository_root_path. solve_wf. Qed.

#[export] Hint Resolve config_new_preserves_wf join_root_path_preserves_wf : fs_wf.



Lemma Forall_join (P : Z -> Prop) base p :
  P slash -> Forall P base -> Forall P p -> Forall P (join base p).
Proof.
  intros Hs Hb Hp. unfold join. destruct (has_root p); [done|].
  destruct (last base); [|done]. case_bool_decide; rewrite ?Forall_app; auto.
Qed.

(** The text the program reads from a command is valid Unicode: lossy
    decoding yields scalar values and [trim] keeps a part of them. *)
Lemma url_of_valid o : Forall Utf8.is_byte (stdout o) -> Forall valid_scalar (url_of o).
Proof. intros Hb. apply Forall_trim, Utf8.from_utf8_lossy_valid, Hb. Qed.

(** The URL-derived strings are valid Unicode: [url_of] of any byte output,
    joined with a valid relative path, passes [Path::to_str]. *)
Lemma to_str_join_url o rel :
  Forall Utf8.is_byte (stdout o) -> Forall valid_scalar rel ->
  to_str (join (url_of o) rel) = Some (join (url_of o) rel).
Proof.
  intros Hb Hr. unfold to_str. rewrite bool_decide_eq_true_2; [done|].
  apply Forall_join; [unfold valid_scalar, slash; lia| |done]. by apply url_of_valid.
Qed.

Lemma join_root_path_eq rel w o p :
  w_exec w git root_args = Ok o -> success o = true -> to_str (join (url_of o) rel) = Some p ->
  join_root_path rel w = (log (EvSpawn git root_args) w, Ok p).
Proof.
  intros Ho So Hp.
  unfold join_root_path, get_repository_root_path, bind, command_output, expect.
  cbn [w_exec]. rewrite Ho. simpl. rewrite So. simpl. fold (url_of o). by rewrite Hp.
Qed.

(** C23 The [expect] of line 197 is unreachable: when [git rev-parse]
    succeeds, joining its (lossily decoded, trimmed) output with a relative
    path of valid characters is always valid Unicode, and [join_root_path]
    returns the joined path after that one command. *)
Theorem join_root_path_total rel w o :
  w_exec w git root_args = Ok o -> success o = true -> Forall Utf8.is_byte (stdout o) ->
  Forall valid_scalar rel ->
  join_root_path rel w = (log (EvSpawn git root_args) w, Ok (join (url_of o) rel)).
Proof. intros Ho So Hb Hr. by apply (join_root_path_eq _ _ o), to_str_join_url. Qed.

(** [get_repository_root_path] outside a repository: [git rev-parse]
    exits unsuccessfully and [join_root_path] panics with its status. *)
Lemma join_root_path_failed rel w o :
  w_exec w git root_args = Ok o -> success o = false ->
  join_root_path rel w =
    (log (EvSpawn git root_args) w, Err (PanicMsg (status_msg (code_unwrap_or o (-1))))).
Proof.
  intros. unfold join_root_path, get_repository_root_path, bind, command_output, expect.
  cbn [w_exec]. run_hyps. reflexivity.
Qed.

(** ** What the inspector and the loader depend on *)

(** The inspector's outcome depends on the answers of [git] only. *)
Lemma extract_frame self w w' :
  w_exec w' = w_exec w ->
  snd (ConfigImpl.extract_repo_name_and_owner self w') =
  snd (ConfigImpl.extract_repo_name_and_owner self w).
Proof.
  intros He. unfold ConfigImpl.extract_repo_name_and_owner, bind, command_output, expect,
    ret, panic. cbn [w_exec log]. rewrite He.
  repeat (simpl; rewrite ?He; match goal with
    | |- context [match ?x with Ok _ => _ | Err _ => _ end] => destruct x
    | |- context [match ?x with Some _ => _ | None => _ end] => destruct x
    | |- context [if ?b then _ else _] => destruct b
    end); reflexivity.
Qed.

(** A [Config::new] that succeeded read its file. *)
Lemma config_new_read `{YamlFormat} path w c :
  snd (ConfigImpl.new path w) = Ok c ->
  ∃ s, Fs.read_to_string (w_cwd w) (components path) (w_fs w) = Ok s.
Proof.
  unfold ConfigImpl.new, ConfigImpl.serialize, bind, read_to_string, unwrap_or_panic. simpl.
  destruct (Fs.read_to_string _ _ _); [by eexists|done].
Qed.

(** [Config::new]'s outcome depends on the configuration file's contents
    and the answers of [git] only. *)
Lemma config_new_frame `{YamlFormat} path w w' :
  w_exec w' = w_exec w -> w_cwd w' = w_cwd w ->
  Fs.read_to_string (w_cwd w) (components path) (w_fs w') =
    Fs.read_to_string (w_cwd w) (components path) (w_fs w) ->
  snd (ConfigImpl.new path w') = snd (ConfigImpl.new path w).
Proof.
  intros He Hc Hr. unfold ConfigImpl.new, ConfigImpl.serialize, bind,
    read_to_string, unwrap_or_panic, expect. simpl. rewrite Hc, Hr.
  destruct (Fs.read_to_string (w_cwd w) (components path) (w_fs w)); simpl; [|done].
  destruct (ConfigImpl.from_str _); simpl; [|done]. by apply extract_frame.
Qed.

End Git.
