(* ===== verification/Template.v ===== *)
(** * Templates, the rendering environment and the rendering loop

    The template language is minijinja's, an external capability: the class
    [TemplateEngine] states what the program uses of it, [compile] (run by
    [Environment::add_template] with the environment's [trim_blocks]
    setting) and [render] (run by [Template::render] on the serialized
    configuration).  The [Environment] is modelled with its [trim_blocks]
    flag and its map of compiled templates ([add_template] replaces a
    template of the same name).  [Template] is the struct of lines 133-138,
    with [Template::new] (lines 141-150), [Template::read_templates] (lines
    152-158) and [Template::write_rendered_templates] (lines 160-184).
    The lemmas give the loop's writes against its specification
    ([outputs]), when it completes ([writable]), what it leaves in place
    for a second run ([write_rendered_templates_writable]) and where
    registration stops ([read_templates_fail]). *)

From S2P Require Import Prelude RustStr Utf8 RustPath Fs Serde Process.
Local Open Scope Z_scope.

Module Template.
Import RustPath Fs Serde Process.
Local Open Scope m_scope.

(** What the program uses of minijinja: errors are their display text. *)
Class TemplateEngine := {
  Compiled : Type;
  compile : bool -> list Z -> list Z -> result Compiled (list Z);
  render : Compiled -> Value -> result (list Z) (list Z);
}.

Section WithEngine.
Context {TE : TemplateEngine}.

(** [minijinja::Environment]. *)
Record Environment := mkEnv {
  trim_blocks : bool;
  templates : gmap (list Z) Compiled;
}.

(** [Environment::new()]. *)
Definition env_new : Environment := mkEnv false ∅.

(** [Environment::set_trim_blocks]. *)
Definition set_trim_blocks (b : bool) (env : Environment) : Environment :=
  mkEnv b (templates env).

(** [Environment::add_template]: compile with the current settings. *)
Definition add_template (env : Environment) (name source : list Z)
    : result Environment (list Z) :=
  match compile (trim_blocks env) name source with
  | Ok c => Ok (mkEnv (trim_blocks env) (<[name := c]> (templates env)))
  | Err e => Err e
  end.

(** [Environment::get_template]. *)
Definition get_template (env : Environment) (name : list Z) : result Compiled (list Z) :=
  match templates env !! name with
  | Some c => Ok c
  | None => Err (lit "template not found")
  end.

(** The struct [Template] (lines 133-138). *)
Record t := mk { name : list Z; content : list Z; rendered_path : list Z }.

(** [Template::new]: the source is read at construction. *)
Definition new (name : list Z) (src_path : list Z) (rendered_path : list Z) : M t :=
  let! r := read_to_string src_path in
  let! content := unwrap_or_panic r (lit "Failed to read template file: " ++ src_path) in
  ret (mk name content rendered_path).

(** One iteration of [Template::read_templates]. *)
Definition read_one (env : Environment) (tp : t) : M Environment :=
  println (lit "Reading template: " ++ name tp) ;;
  expect CauseTemplate (add_template env (name tp) (content tp))
    (lit "Failed to add template to environment").

(** [Template::read_templates]: the loop over [&mut env]. *)
Fixpoint read_templates (ts : list t) (env : Environment) : M Environment :=
  match ts with
  | [] => ret env
  | tp :: ts' => let! env' := read_one env tp in read_templates ts' env'
  end.

(** The body of the loop of [Template::write_rendered_templates]. *)
Definition write_one (env : Environment) (config : Config.t) (tp : t) : M unit :=
  let! tmpl := expect CauseTemplate (get_template env (name tp))
                 (lit "Failed to get template from environment") in
  println (lit "Rendering template: " ++ name tp) ;;
  let! rendered := expect CauseTemplate (render tmpl (ser_Config config))
                     (lit "Failed to render template") in
  println (lit "Writing rendered template to: " ++ rendered_path tp) ;;
  (match parent (components (rendered_path tp)) with
   | Some p =>
       let! r := create_dir_all p in
       unwrap_or_panic r (lit "Failed to create directories for path: " ++ display p)
   | None => ret tt
   end) ;;
  let! r := write (rendered_path tp) rendered in
  unwrap_or_panic r (lit "Failed to write rendered template to file: " ++ rendered_path tp).

(** [Template::write_rendered_templates]. *)
Definition write_rendered_templates (ts : list t) (env : Environment) (config : Config.t)
    : M unit :=
  for_each ts (write_one env config).

(** ** One iteration of the rendering loop *)

(** Where a template's output goes. *)
Definition dest (cwd : list (list Z)) (tp : t) : list (list Z) :=
  resolve cwd (components (rendered_path tp)).

(** The events of one iteration of the rendering loop, in order. *)
Definition write_events (tp : t) : list Event :=
  [EvPrintln (lit "Rendering template: " ++ name tp);
   EvPrintln (lit "Writing rendered template to: " ++ rendered_path tp)] ++
  (match parent (components (rendered_path tp)) with
   | Some p => [EvCreateDirAll p]
   | None => []
   end) ++ [EvWrite (rendered_path tp)].

(** ** Preconditions of one iteration *)

(** What the directories must offer for a template's output to be written
    without creating anything: the path is not empty, the destination's
    directory exists, and so does the directory [create_dir_all] is asked
    for (or it is the empty path, for which it does nothing).  It only
    grows with the set of directories. *)
Definition parent_ready (cwd : list (list Z)) (D : gset (list (list Z))) (tp : t) : Prop :=
  components (rendered_path tp) <> [] /\ (removelast (dest cwd tp) ∈ D) /\
  match parent (components (rendered_path tp)) with
  | Some p => p = [] \/ resolve cwd p ∈ D
  | None => True
  end.

(** ... and the destination is not a directory. *)
Definition writable (cwd : list (list Z)) (D : gset (list (list Z))) (tp : t) : Prop :=
  (dest cwd tp ∉ D) /\ parent_ready cwd D tp.

#[export] Instance parent_ready_dec cwd D tp : Decision (parent_ready cwd D tp).
Proof. unfold parent_ready. case_match; apply _. Defined.

#[export] Instance writable_dec cwd D tp : Decision (writable cwd D tp).
Proof. unfold writable. apply _. Defined.

Lemma parent_ready_mono cwd D D' tp :
  D ⊆ D' -> parent_ready cwd D tp -> parent_ready cwd D' tp.
Proof. unfold parent_ready. intros HD (? & ? & ?). case_match; set_solver. Qed.

Lemma parent_step w w' tp :
  (match parent (components (rendered_path tp)) with
   | Some p =>
       let! r := create_dir_all p in
       unwrap_or_panic r (lit "Failed to create directories for path: " ++ display p)
   | None => ret tt
   end) w = (w', Ok tt) ->
  w_cwd w' = w_cwd w /\ w_exec w' = w_exec w /\
  fs_files (w_fs w') = fs_files (w_fs w) /\ fs_dirs (w_fs w) ⊆ fs_dirs (w_fs w') /\
  w_trace w' = w_trace w ++ match parent (components (rendered_path tp)) with
                            | Some p => [EvCreateDirAll p] | None => [] end /\
  match parent (components (rendered_path tp)) with
  | Some p => p = [] \/ resolve (w_cwd w) p ∈ fs_dirs (w_fs w')
  | None => True
  end.
Proof.
  destruct (parent _) as [p|]; [|intros [= <-]; by rewrite app_nil_r].
  intros H. mstep H. apply unwrap_or_panic_inv in H as [-> ->].
  apply create_dir_all_inv in Hs as (fs' & Hc & ->).
  assert (p = [] \/ resolve (w_cwd w) p ∈ fs_dirs fs').
  { destruct (decide (p = [])) as [|Hne]; [by left|right; by eapply create_dir_all_made]. }
  apply create_dir_all_mono in Hc as [? ?]. naive_solver.
Qed.

(** A successful iteration renders the template and writes the result to
    its destination, and only adds directories. *)
Lemma write_one_effect env config tp w w' :
  write_one env config tp w = (w', Ok tt) ->
  ∃ c s, get_template env (name tp) = Ok c /\ render c (ser_Config config) = Ok s /\
    w_cwd w' = w_cwd w /\ w_exec w' = w_exec w /\
    fs_files (w_fs w') = <[dest (w_cwd w) tp := Utf8.encode s]> (fs_files (w_fs w)) /\
    fs_dirs (w_fs w) ⊆ fs_dirs (w_fs w') /\ w_trace w' = w_trace w ++ write_events tp /\
    parent_ready (w_cwd w) (fs_dirs (w_fs w')) tp.
Proof.
  unfold write_one. intros H.
  apply bind_Ok_inv in H as (w1 & c & Hs & H). apply expect_inv in Hs as [Hg ->].
  apply bind_Ok_inv in H as (w1 & [] & Hs & H). apply println_inv in Hs as ->.
  apply bind_Ok_inv in H as (w1 & s & Hs & H). apply expect_inv in Hs as [Hr ->].
  apply bind_Ok_inv in H as (w1 & [] & Hs & H). apply println_inv in Hs as ->.
  apply bind_Ok_inv in H as (w1 & [] & Hs & H).
  apply parent_step in Hs as (Hcwd & Hex & Hf & Hd & Ht & Hp).
  apply bind_Ok_inv in H as (w2 & r & Hs & H). apply unwrap_or_panic_inv in H as [-> ->].
  apply write_inv in Hs as (fs' & Hw & ->).
  apply write_Ok in Hw as (Hne & _ & Hrl & ->).
  exists c, s. cbn in *. rewrite Hcwd, Hex, Hf in *. split_and!; try (done || set_solver).
  rewrite Ht. unfold write_events. by rewrite <- !app_assoc.
Qed.

(** ** The rendering loop against its specification *)

(** The text a template renders to, when it is registered and renders. *)
Definition render_one (env : Environment) (config : Config.t) (tp : t) : option (list Z) :=
  match get_template env (name tp) with
  | Ok c => match render c (ser_Config config) with Ok s => Some s | Err _ => None end
  | Err _ => None
  end.

(** The specification: the list of (location, bytes) the loop writes, in
    order; [None] when some template does not render. *)
Fixpoint outputs (cwd : list (list Z)) (env : Environment) (config : Config.t) (ts : list t)
    : option (list (list (list Z) * list Z)) :=
  match ts with
  | [] => Some []
  | tp :: ts' =>
      match render_one env config tp, outputs cwd env config ts' with
      | Some s, Some rest => Some ((dest cwd tp, Utf8.encode s) :: rest)
      | _, _ => None
      end
  end.

(** A sequence of writes to a map of files: the last write to a key wins. *)
Definition inserts {V} (l : list (list (list Z) * V)) (m : gmap (list (list Z)) V)
    : gmap (list (list Z)) V :=
  foldl (λ m kv, <[kv.1 := kv.2]> m) m l.

Lemma inserts_union {V} (l : list (list (list Z) * V)) m : inserts l m = inserts l ∅ ∪ m.
Proof.
  induction l as [|[k v] l IH] using rev_ind; unfold inserts in *; simpl.
  - by rewrite map_empty_union.
  - rewrite !foldl_app. simpl. rewrite IH. by rewrite insert_union_l.
Qed.

(** Writing the same sequence twice is writing it once. *)
Lemma inserts_idem {V} (l : list (list (list Z) * V)) m : inserts l (inserts l m) = inserts l m.
Proof.
  rewrite (inserts_union l (inserts l m)), (inserts_union l m).
  by rewrite map_union_assoc, map_union_idemp.
Qed.

Lemma for_each_cons_inv {A} (x : A) l body w w' :
  for_each (x :: l) body w = (w', Ok tt) ->
  ∃ w1, body x w = (w1, Ok tt) /\ for_each l body w1 = (w', Ok tt).
Proof. simpl. intros H. apply bind_Ok_inv in H as (w1 & [] & ? & ?). eauto. Qed.

(** A successful rendering loop renders every template and leaves the file
    system as the specification says: the files it started with, updated in
    order with each template's rendered text at its destination; directories
    are only added; its events are those of its iterations in order. *)
Lemma write_rendered_templates_run ts env config w w' :
  write_rendered_templates ts env config w = (w', Ok tt) ->
  ∃ outs, outputs (w_cwd w) env config ts = Some outs /\
    fs_files (w_fs w') = inserts outs (fs_files (w_fs w)) /\
    fs_dirs (w_fs w) ⊆ fs_dirs (w_fs w') /\ w_cwd w' = w_cwd w /\ w_exec w' = w_exec w /\
    w_trace w' = w_trace w ++ mjoin (map write_events ts).
Proof.
  unfold write_rendered_templates. revert w.
  induction ts as [|tp ts IH]; intros w H.
  - simpl in H. injection H as <-. exists []. by rewrite app_nil_r.
  - apply for_each_cons_inv in H as (w1 & H1 & H).
    destruct (write_one_effect _ _ _ _ _ H1) as (c & s & Hg & Hr & Hcwd & Hex & Hf & Hd & Ht & _).
    destruct (IH w1 H) as (outs & Ho & Hf' & Hd' & Hcwd' & Hex' & Ht').
    exists ((dest (w_cwd w) tp, Utf8.encode s) :: outs). simpl.
    unfold render_one. rewrite Hg, Hr, <- Hcwd, Ho.
    split_and!; [done| |set_solver|congruence|congruence|].
    + by rewrite Hf', Hf, Hcwd.
    + rewrite Ht', Ht. by rewrite <- app_assoc.
Qed.

(** C26 Rendering is idempotent: a second successful run of the rendering
    loop, from the world the first left, leaves the same files. *)
Theorem write_rendered_templates_idem ts env config w w1 w2 :
  write_rendered_templates ts env config w = (w1, Ok tt) ->
  write_rendered_templates ts env config w1 = (w2, Ok tt) ->
  fs_files (w_fs w2) = fs_files (w_fs w1).
Proof.
  intros (o1 & Ho1 & Hf1 & _ & Hc1 & _)%write_rendered_templates_run
         (o2 & Ho2 & Hf2 & _)%write_rendered_templates_run.
  rewrite Hc1, Ho1 in Ho2. injection Ho2 as <-.
  by rewrite Hf2, Hf1, inserts_idem.
Qed.

(** The loop keeps the file system well formed. *)
Lemma write_rendered_templates_preserves_wf ts env config :
  preserves_wf (write_rendered_templates ts env config).
Proof. unfold write_rendered_templates, write_one. solve_wf. Qed.

(** ** Completion of the rendering loop *)

(** One iteration completes when the template renders and its output is
    writable; it changes neither the working directory nor the
    directories. *)
Lemma write_one_succeeds env config tp w s :
  render_one env config tp = Some s -> writable (w_cwd w) (fs_dirs (w_fs w)) tp ->
  succeeds (write_one env config tp)
    (λ _ w', w_cwd w' = w_cwd w /\ fs_dirs (w_fs w') = fs_dirs (w_fs w)) w.
Proof.
  unfold render_one. intros Hr (Hd & Hne & Hp & Hpar).
  destruct (get_template env (name tp)) as [c|] eqn:Hg; [|done].
  destruct (render c (ser_Config config)) as [s'|] eqn:Hs; [|done]. injection Hr as <-.
  unfold write_one. apply succeeds_bind. eapply succeeds_expect; [exact Hg|].
  apply succeeds_bind, succeeds_println. apply succeeds_bind.
  eapply succeeds_expect; [exact Hs|]. apply succeeds_bind, succeeds_println.
  apply succeeds_bind. destruct (parent _) as [p|] eqn:Ep.
  - apply succeeds_bind. eapply succeeds_create_dir_all.
    { destruct Hpar as [->|Hpar]; [done|by apply create_dir_all_noop]. }
    eapply succeeds_unwrap_or_panic; [done|].
    apply succeeds_bind. eapply succeeds_write; [apply write_Ok; split_and!; done|].
    by eapply succeeds_unwrap_or_panic.
  - apply succeeds_ret. apply succeeds_bind.
    eapply succeeds_write; [apply write_Ok; split_and!; done|].
    by eapply succeeds_unwrap_or_panic.
Qed.

(** The loop completes when every template renders and every output is
    writable in the file system it starts from. *)
Lemma write_rendered_templates_succeeds ts env config w :
  (∀ tp, tp ∈ ts -> is_Some (render_one env config tp) /\
                    writable (w_cwd w) (fs_dirs (w_fs w)) tp) ->
  ∃ w', write_rendered_templates ts env config w = (w', Ok tt) /\
        fs_dirs (w_fs w') = fs_dirs (w_fs w).
Proof.
  intros Hts.
  destruct (succeeds_for_each ts (write_one env config)
              (λ w1, w_cwd w1 = w_cwd w /\ fs_dirs (w_fs w1) = fs_dirs (w_fs w)) w)
    as (w' & [] & Hrun & [_ Hd]); [|done|by exists w'].
  intros tp w1 Htp [Hc Hd]. destruct (Hts tp Htp) as [[s Hs] Hw].
  eapply succeeds_weaken; [apply (write_one_succeeds _ _ _ _ s Hs); by rewrite Hc, Hd|].
  intros _ w2 [-> ->]. done.
Qed.

(** The keys the loop writes are the templates' destinations, in order. *)
Lemma outputs_keys cwd env config ts outs :
  outputs cwd env config ts = Some outs -> map fst outs = map (dest cwd) ts.
Proof.
  revert outs. induction ts as [|tp ts IH]; intros outs; simpl; [by intros [= <-]|].
  destruct (render_one _ _ _), (outputs _ _ _ ts) as [rest|]; intros; simplify_eq.
  simpl. by rewrite (IH rest).
Qed.

Lemma lookup_inserts_not_in {V} (l : list (list (list Z) * V)) m k :
  k ∉ map fst l -> inserts l m !! k = m !! k.
Proof.
  rewrite inserts_union. intros Hk. apply lookup_union_r.
  induction l as [|[k' v] l IH] using rev_ind; [done|].
  unfold inserts in *. rewrite foldl_app. simpl.
  rewrite map_app in Hk. simpl in Hk. rewrite lookup_insert_ne by set_solver. set_solver.
Qed.

Lemma lookup_inserts_in {V} (l : list (list (list Z) * V)) m k :
  k ∈ map fst l -> is_Some (inserts l m !! k).
Proof.
  rewrite inserts_union. intros Hk. apply lookup_union_is_Some. left.
  induction l as [|[k' v] l IH] using rev_ind; [set_solver|].
  unfold inserts in *. rewrite foldl_app. simpl. rewrite map_app in Hk. simpl in Hk.
  destruct (decide (k = k')) as [->|Hne]; [by rewrite lookup_insert_eq|].
  rewrite lookup_insert_ne by done. set_solver.
Qed.

(** After a successful loop, every template's output is ready to be
    written again: the directories the loop needed are in place. *)
Lemma write_rendered_templates_ready ts env config w w' :
  write_rendered_templates ts env config w = (w', Ok tt) ->
  ∀ tp, tp ∈ ts -> parent_ready (w_cwd w') (fs_dirs (w_fs w')) tp.
Proof.
  revert w. induction ts as [|tp ts IH]; intros w H tp' Htp; [set_solver|].
  apply for_each_cons_inv in H as (w1 & H1 & H).
  pose proof H as (_ & _ & _ & Hd & Hc & _)%write_rendered_templates_run.
  apply elem_of_cons in Htp as [->|Htp]; [|by eapply IH].
  destruct (write_one_effect _ _ _ _ _ H1) as (_ & _ & _ & _ & Hc1 & _ & _ & _ & _ & Hr).
  rewrite Hc, Hc1. by eapply parent_ready_mono.
Qed.

(** ... and, from a well-formed file system, every destination is a file,
    so not a directory: the outputs are [writable] once more. *)
Lemma write_rendered_templates_writable ts env config w w' :
  fs_wf (w_fs w) -> write_rendered_templates ts env config w = (w', Ok tt) ->
  ∀ tp, tp ∈ ts -> writable (w_cwd w') (fs_dirs (w_fs w')) tp.
Proof.
  intros Hwf H tp Htp. split; [|by eapply write_rendered_templates_ready].
  pose proof (write_rendered_templates_preserves_wf ts env config w Hwf) as Hwf'.
  rewrite H in Hwf'. simpl in Hwf'. destruct Hwf' as (_ & _ & _ & Hx).
  destruct (write_rendered_templates_run _ _ _ _ _ H) as (outs & Ho & Hf & _ & Hc & _).
  destruct (lookup_inserts_in outs (fs_files (w_fs w)) (dest (w_cwd w) tp)) as [b Hb].
  { rewrite (outputs_keys _ _ _ _ _ Ho). by apply list_elem_of_fmap_2. }
  rewrite Hc. intros Hd%Hx. rewrite Hf in Hd. congruence.
Qed.

(** ** Failures part-way *)

Lemma for_each_app {A} (l1 l2 : list A) body w :
  for_each (l1 ++ l2) body w = bind (for_each l1 body) (λ _, for_each l2 body) w.
Proof.
  revert w. induction l1 as [|x l1 IH]; intros w; [done|]. simpl.
  specialize (IH (fst (body x w))). unfold bind in *.
  destruct (body x w) as [w1 [[]|p]]; [apply IH|done].
Qed.

(** A template that is not registered or does not render stops the loop
    with a panic before anything is written for it. *)
Lemma write_one_fail env config tp w :
  render_one env config tp = None ->
  ∃ w' p, write_one env config tp w = (w', Err p) /\ w_fs w' = w_fs w.
Proof.
  unfold render_one, write_one, bind, expect, println, ret, panic. simpl.
  destruct (get_template env (name tp)) as [c|e]; [|eauto].
  destruct (render c _); [done|]. eauto.
Qed.

(** C7 Rendering is not transactional: when the templates [ts1] have been
    rendered and written and the next template does not render, the run
    panics, and the files written for [ts1] stay as they were written. *)
Theorem write_rendered_templates_partial ts1 tp ts2 env config w w1 :
  write_rendered_templates ts1 env config w = (w1, Ok tt) ->
  render_one env config tp = None ->
  ∃ outs1 w' p, outputs (w_cwd w) env config ts1 = Some outs1 /\
    write_rendered_templates (ts1 ++ tp :: ts2) env config w = (w', Err p) /\
    fs_files (w_fs w') = inserts outs1 (fs_files (w_fs w)).
Proof.
  intros H1 Hr. pose proof H1 as (outs1 & Ho & Hf & _)%write_rendered_templates_run.
  destruct (write_one_fail env config tp w1 Hr) as (w' & p & Hw & Hfs).
  exists outs1, w', p. split_and!; [done| |by rewrite Hfs].
  unfold write_rendered_templates in *. rewrite for_each_app, (bind_Ok _ _ _ _ _ H1).
  simpl. by rewrite (bind_Err _ _ _ _ _ Hw).
Qed.

(** ** Registration *)

(** [Template::new] on success: one read, and the template holds the text
    of its source file. *)
Lemma template_new_Ok n src rp w w' tp :
  new n src rp w = (w', Ok tp) ->
  w' = log (EvRead src) w /\
  ∃ c, Fs.read_to_string (w_cwd w) (components src) (w_fs w) = Ok c /\ tp = mk n c rp.
Proof.
  unfold new. intros (w1 & r & Hs & H)%bind_Ok_inv.
  apply read_to_string_inv in Hs as [-> ->].
  apply bind_Ok_inv in H as (w2 & c & Hu & H). apply unwrap_or_panic_inv in Hu as [Hr ->].
  apply ret_inv in H as [-> ->]. eauto.
Qed.

Lemma read_one_effect env tp w w' env' :
  read_one env tp w = (w', Ok env') ->
  w' = log (EvPrintln (lit "Reading template: " ++ name tp)) w /\
  ∃ c, compile (trim_blocks env) (name tp) (content tp) = Ok c /\
       env' = mkEnv (trim_blocks env) (<[name tp := c]> (templates env)).
Proof.
  unfold read_one. intros H. apply bind_Ok_inv in H as (w1 & [] & Hs & H).
  apply println_inv in Hs as ->. apply expect_inv in H as [Ha ->]. split; [done|].
  unfold add_template in Ha. destruct (compile _ _ _) as [c|]; [|done].
  injection Ha as <-. eauto.
Qed.

(** [Template::new] reads its source and nothing else: the template holds
    the text of the file. *)
Lemma template_new_eq n src rp w c :
  Fs.read_to_string (w_cwd w) (components src) (w_fs w) = Ok c ->
  new n src rp w = (log (EvRead src) w, Ok (mk n c rp)).
Proof. intros Hc. unfold new, bind, read_to_string. simpl. by rewrite Hc. Qed.

(** Registration completes when every template compiles with the
    environment's settings. *)
Lemma read_templates_succeeds ts env w :
  (∀ tp, tp ∈ ts -> ∃ c, compile (trim_blocks env) (name tp) (content tp) = Ok c) ->
  ∃ env', read_templates ts env w =
    (foldl (λ w tp, log (EvPrintln (lit "Reading template: " ++ name tp)) w) w ts, Ok env').
Proof.
  revert env w. induction ts as [|tp ts IH]; intros env w Hc; simpl; [by eexists|].
  destruct (Hc tp) as [c Hct]; [set_solver|].
  destruct (IH (mkEnv (trim_blocks env) (<[name tp := c]> (templates env)))
              (log (EvPrintln (lit "Reading template: " ++ name tp)) w)) as [env' Henv].
  { intros tp' Htp'. apply Hc. set_solver. }
  exists env'. unfold bind, read_one, println, expect, add_template. simpl.
  by rewrite Hct.
Qed.

(** [read_templates] prints one line per template, touches nothing else of
    the world, keeps the environment's settings, and registers each template
    (of distinct names) compiled with them. *)
Lemma read_templates_effect ts env w w' env' :
  read_templates ts env w = (w', Ok env') ->
  w' = foldl (λ w tp, log (EvPrintln (lit "Reading template: " ++ name tp)) w) w ts /\
  trim_blocks env' = trim_blocks env /\
  (∀ k, k ∉ map name ts -> templates env' !! k = templates env !! k) /\
  (NoDup (map name ts) -> ∀ tp, tp ∈ ts ->
     ∃ c, compile (trim_blocks env) (name tp) (content tp) = Ok c /\
          templates env' !! name tp = Some c).
Proof.
  revert env w. induction ts as [|tp ts IH]; intros env w H; simpl in H.
  - injection H as <- <-. split_and!; try done. intros _ tp Htp. by apply elem_of_nil in Htp.
  - apply bind_Ok_inv in H as (w1 & env1 & H1 & H).
    apply read_one_effect in H1 as (-> & c & Hc & ->).
    destruct (IH _ _ H) as (-> & Htb & Hk & Hr); simpl in *.
    split_and!; [done|done| |].
    + intros k [Hne Hnot]%not_elem_of_cons. rewrite Hk by done.
      by apply lookup_insert_ne.
    + intros [Hn Hnd]%NoDup_cons tp' [->|Htp']%elem_of_cons.
      * exists c. split; [done|]. rewrite Hk by done. apply lookup_insert_eq.
      * by apply Hr.
Qed.

(** Registration stops with a panic at the first template that does not
    compile with the environment's settings, before any rendering, and
    leaves the file system as it was. *)
Lemma read_templates_fail ts env w tp e :
  tp ∈ ts -> compile (trim_blocks env) (name tp) (content tp) = Err e ->
  ∃ w' msg, read_templates ts env w =
              (w', Err (ExpectFailed (lit "Failed to add template to environment")
                          (CauseTemplate msg))) /\ w_fs w' = w_fs w.
Proof.
  revert env w. induction ts as [|tp' ts IH]; intros env w Htp He; [set_solver|].
  apply elem_of_cons in Htp. simpl. unfold bind, read_one, println, expect, add_template. simpl.
  destruct (compile (trim_blocks env) (name tp') (content tp')) as [c|e'] eqn:Hc; simpl.
  - destruct Htp as [->|Htp]; [congruence|].
    destruct (IH (mkEnv (trim_blocks env) (<[name tp' := c]> (templates env)))
                 (log (EvPrintln (lit "Reading template: " ++ name tp')) w) Htp He)
      as (w' & msg & H & Hf).
    exists w', msg. split; [exact H|]. by rewrite Hf.
  - by eexists _, _.
Qed.

(** ** The file-system invariant *)

Lemma template_new_preserves_wf n src rp : preserves_wf (new n src rp).
Proof. unfold new. solve_wf. Qed.

Lemma read_templates_preserves_wf ts env : preserves_wf (read_templates ts env).
Proof. revert env. induction ts; intros env; simpl; unfold read_one; solve_wf. Qed.


End WithEngine.

#[export] Hint Resolve template_new_preserves_wf read_templates_preserves_wf
  write_rendered_templates_preserves_wf : fs_wf.
End Template.
