(* ===== verification/Trace.v ===== *)
(** * The effects of a run as a prefix of a plan

    [emits c w evs]: run from [w], [c] appends to the trace a prefix of the
    events [evs], and all of [evs] when it returns.  A panic cuts the plan
    short but never adds or reorders an effect.  The rules follow the
    primitives of [Process] and [bind] (as [succeeds] does for completion),
    and the lemmas below give the plan of each function of [generate.rs]:
    [Config::new], [Template::new], [join_root_path], the registration loop
    and the rendering loop.  [Main.main_trace_prefix] composes them.

    [writes_logged c]: a run of [c] keeps the working directory, and every
    file whose contents it changes is at the location of a [EvWrite] event
    it logged.  With the plan, [Main.main_writes_only] bounds what the
    program can overwrite. *)

From S2P Require Import Prelude RustStr Utf8 RustPath Fs Serde Process Git Template.
Local Open Scope Z_scope.

Module Trace.
Import RustPath Fs Process Git Template.
Local Open Scope m_scope.

Definition emits {A} (c : M A) (w : World) (evs : list Event) : Prop :=
  ∃ l, w_trace (fst (c w)) = w_trace w ++ l /\ l `prefix_of` evs /\
       (∀ a, snd (c w) = Ok a -> l = evs).

(** ** Rules *)

Lemma emits_eq {A} (c : M A) w e e' : emits c w e -> e = e' -> emits c w e'.
Proof. by intros ? <-. Qed.

Lemma emits_ret {A} (a : A) w : emits (ret a) w [].
Proof. exists []. split_and!; [by rewrite app_nil_r|done|done]. Qed.

(** A panic performs nothing more: it is a prefix of any plan. *)
Lemma emits_panic {A} p w e : emits (A:=A) (panic p) w e.
Proof. exists []. split_and!; [by rewrite app_nil_r|apply prefix_nil|done]. Qed.

Lemma emits_one {A} (c : M A) e w : w_trace (fst (c w)) = w_trace w ++ [e] -> emits c w [e].
Proof. intros H. by exists [e]. Qed.

Lemma emits_bind {A B} (c : M A) (k : A -> M B) w e1 e2 :
  emits c w e1 -> (∀ w1 a, c w = (w1, Ok a) -> emits (k a) w1 e2) ->
  emits (bind c k) w (e1 ++ e2).
Proof.
  intros (l1 & Ht1 & Hp1 & Hok1) Hk. unfold emits, bind.
  destruct (c w) as [w1 [a|p]] eqn:Ec; simpl in *.
  - rewrite (Hok1 a eq_refl) in Ht1. destruct (Hk w1 a eq_refl) as (l2 & Ht2 & Hp2 & Hok2).
    exists (e1 ++ l2). split_and!.
    + by rewrite Ht2, Ht1, <- app_assoc.
    + by apply prefix_app.
    + intros b Hb. by rewrite (Hok2 b Hb).
  - exists l1. split_and!; [done| |done]. by apply prefix_app_r.
Qed.

Lemma emits_expect {A E} (f : E -> Cause) (r : result A E) msg w : emits (expect f r msg) w [].
Proof. destruct r; [apply emits_ret|apply emits_panic]. Qed.

Lemma emits_expect_some {A} (o : option A) msg w : emits (expect_some o msg) w [].
Proof. destruct o; [apply emits_ret|apply emits_panic]. Qed.

Lemma emits_unwrap_or_panic {A E} (r : result A E) msg w : emits (unwrap_or_panic r msg) w [].
Proof. destruct r; [apply emits_ret|apply emits_panic]. Qed.

Lemma emits_println l w : emits (println l) w [EvPrintln l].
Proof. by apply emits_one. Qed.

Lemma emits_command_output p args w : emits (command_output p args) w [EvSpawn p args].
Proof. by apply emits_one. Qed.

Lemma emits_read_to_string p w : emits (read_to_string p) w [EvRead p].
Proof. by apply emits_one. Qed.

Lemma emits_create_dir_all p w : emits (create_dir_all p) w [EvCreateDirAll p].
Proof. apply emits_one. unfold create_dir_all. by case_match. Qed.

Lemma emits_write p s w : emits (write p s) w [EvWrite p].
Proof. apply emits_one. unfold Process.write. by case_match. Qed.

Create HintDb emits.
#[export] Hint Resolve emits_ret emits_panic emits_expect emits_expect_some
  emits_unwrap_or_panic emits_println emits_command_output emits_read_to_string
  emits_create_dir_all emits_write : emits.

(** [solve_emits]: follow the code, leaving the plan as an evar that the
    primitives fill in; a branch that panics fits any plan. *)
Ltac solve_emits :=
  repeat first
    [ solve [eauto with emits]
    | eapply emits_bind; [|intros ?w ?a ?Hc]
    | progress cbv zeta
    | case_match ].

(** ** The plans of the program's functions *)

Section Plans.
Context {YF : YamlFormat} {TE : TemplateEngine}.

Lemma emits_config_new path w :
  emits (ConfigImpl.new path) w [EvRead path; EvSpawn git remote_args; EvSpawn git get_url_args].
Proof.
  unfold ConfigImpl.new, ConfigImpl.serialize, ConfigImpl.extract_repo_name_and_owner.
  eapply emits_eq; [solve_emits|reflexivity].
Qed.

Lemma emits_template_new n src rp w : emits (Template.new n src rp) w [EvRead src].
Proof. unfold Template.new. eapply emits_eq; [solve_emits|reflexivity]. Qed.

Lemma emits_join_root_path rel w : emits (join_root_path rel) w [EvSpawn git root_args].
Proof.
  unfold join_root_path, get_repository_root_path.
  eapply emits_eq; [solve_emits|reflexivity].
Qed.

Lemma emits_read_templates ts env w :
  emits (read_templates ts env) w (map (λ tp, EvPrintln (lit "Reading template: " ++ name tp)) ts).
Proof.
  revert env w. induction ts as [|tp ts IH]; intros env w; simpl; [apply emits_ret|].
  eapply emits_eq; [eapply emits_bind; [unfold read_one; solve_emits|intros; apply IH]|].
  reflexivity.
Qed.

Lemma emits_write_one env config tp w : emits (write_one env config tp) w (write_events tp).
Proof.
  unfold write_one, write_events.
  destruct (parent _); (eapply emits_eq; [solve_emits|reflexivity]).
Qed.

Lemma emits_write_rendered_templates ts env config w :
  emits (write_rendered_templates ts env config) w (mjoin (map write_events ts)).
Proof.
  unfold write_rendered_templates. revert w.
  induction ts as [|tp ts IH]; intros w; [apply emits_ret|]. cbn [for_each].
  eapply emits_eq; [eapply emits_bind; [apply emits_write_one|intros; apply IH]|reflexivity].
Qed.

End Plans.

(** ** The files a run changes are those it logs a write to *)

Definition writes_logged {A} (c : M A) : Prop :=
  ∀ w, w_cwd (fst (c w)) = w_cwd w /\
    ∃ l, w_trace (fst (c w)) = w_trace w ++ l /\
      ∀ a, fs_files (w_fs (fst (c w))) !! a <> fs_files (w_fs w) !! a ->
        ∃ p, EvWrite p ∈ l /\ a = resolve (w_cwd w) (components p).

(** A computation that leaves the files and the working directory alone
    and only appends to the trace. *)
Lemma writes_logged_quiet {A} (c : M A) :
  (∀ w, fs_files (w_fs (fst (c w))) = fs_files (w_fs w) /\ w_cwd (fst (c w)) = w_cwd w /\
        ∃ l, w_trace (fst (c w)) = w_trace w ++ l) -> writes_logged c.
Proof.
  intros H w. destruct (H w) as (Hf & Hc & l & Ht). split; [done|].
  exists l. split; [done|]. by rewrite Hf.
Qed.

Lemma writes_logged_ret {A} (a : A) : writes_logged (ret a).
Proof. apply writes_logged_quiet. intros w. split_and!; [done|done|]. exists []. by rewrite app_nil_r. Qed.

Lemma writes_logged_panic {A} p : writes_logged (A:=A) (panic p).
Proof. apply writes_logged_quiet. intros w. split_and!; [done|done|]. exists []. by rewrite app_nil_r. Qed.

Lemma writes_logged_log {A} (c : M A) :
  (∀ w, ∃ e r, c w = (log e w, r)) -> writes_logged c.
Proof.
  intros H. apply writes_logged_quiet. intros w. destruct (H w) as (e & r & ->).
  split_and!; [done|done|]. by exists [e].
Qed.

Lemma writes_logged_println l : writes_logged (println l).
Proof. apply writes_logged_log. intros w. by do 2 eexists. Qed.

Lemma writes_logged_command_output p args : writes_logged (command_output p args).
Proof. apply writes_logged_log. intros w. by do 2 eexists. Qed.

Lemma writes_logged_read_to_string p : writes_logged (read_to_string p).
Proof. apply writes_logged_log. intros w. by do 2 eexists. Qed.

Lemma writes_logged_create_dir_all p : writes_logged (create_dir_all p).
Proof.
  apply writes_logged_quiet. intros w. unfold create_dir_all.
  destruct (Fs.create_dir_all _ _ _) as [fs'|] eqn:Hc; simpl; [|split_and!; [done|done|by exists [EvCreateDirAll p]]].
  apply Fs.create_dir_all_mono in Hc as [Hf _]. split_and!; [done|done|by exists [EvCreateDirAll p]].
Qed.

Lemma writes_logged_write p s : writes_logged (write p s).
Proof.
  intros w. unfold Process.write. destruct (Fs.write _ _ _ _) as [fs'|] eqn:Hw; simpl;
    (split; [done|exists [EvWrite p]; split; [done|]]); [|done].
  apply Fs.write_Ok in Hw as (_ & _ & _ & ->). simpl. intros a Ha.
  exists p. split; [set_solver|]. destruct (decide (a = resolve (w_cwd w) (components p))); [done|].
  by rewrite lookup_insert_ne in Ha.
Qed.

Lemma writes_logged_expect {A E} (f : E -> Cause) (r : result A E) msg :
  writes_logged (expect f r msg).
Proof. destruct r; [apply writes_logged_ret|apply writes_logged_panic]. Qed.

Lemma writes_logged_expect_some {A} (o : option A) msg : writes_logged (expect_some o msg).
Proof. destruct o; [apply writes_logged_ret|apply writes_logged_panic]. Qed.

Lemma writes_logged_unwrap_or_panic {A E} (r : result A E) msg :
  writes_logged (unwrap_or_panic r msg).
Proof. destruct r; [apply writes_logged_ret|apply writes_logged_panic]. Qed.

Lemma writes_logged_bind {A B} (c : M A) (k : A -> M B) :
  writes_logged c -> (∀ a, writes_logged (k a)) -> writes_logged (bind c k).
Proof.
  intros Hc Hk w. unfold bind. destruct (Hc w) as (Hcwd & l1 & Ht1 & Hf1).
  destruct (c w) as [w1 [a|p]]; simpl in *; [|split; [done|by exists l1]].
  destruct (Hk a w1) as (Hcwd2 & l2 & Ht2 & Hf2). split; [congruence|].
  exists (l1 ++ l2). split; [by rewrite Ht2, Ht1, <- app_assoc|]. intros x Hx.
  destruct (decide (fs_files (w_fs w1) !! x = fs_files (w_fs w) !! x)) as [E|E].
  - rewrite <- E in Hx. destruct (Hf2 x Hx) as (p & Hp & ->). exists p.
    rewrite Hcwd. split; [set_solver|done].
  - destruct (Hf1 x E) as (p & Hp & ->). exists p. split; [set_solver|done].
Qed.

Lemma writes_logged_for_each {A} (l : list A) body :
  (∀ x, writes_logged (body x)) -> writes_logged (for_each l body).
Proof.
  intros Hb. induction l as [|x l IH]; simpl; [apply writes_logged_ret|].
  by apply writes_logged_bind.
Qed.

Create HintDb logged.
#[export] Hint Resolve writes_logged_ret writes_logged_panic writes_logged_println
  writes_logged_command_output writes_logged_read_to_string writes_logged_create_dir_all
  writes_logged_write writes_logged_expect writes_logged_expect_some
  writes_logged_unwrap_or_panic : logged.

Ltac solve_logged :=
  repeat first
    [ solve [eauto with logged]
    | apply writes_logged_bind; [|intros ?]
    | apply writes_logged_for_each; intros ?
    | progress cbv zeta
    | case_match ].

Section Logged.
Context {YF : YamlFormat} {TE : TemplateEngine}.

Lemma writes_logged_config_new path : writes_logged (ConfigImpl.new path).
Proof.
  unfold ConfigImpl.new, ConfigImpl.serialize, ConfigImpl.extract_repo_name_and_owner.
  solve_logged.
Qed.

Lemma writes_logged_template_new n src rp : writes_logged (Template.new n src rp).
Proof. unfold Template.new. solve_logged. Qed.

Lemma writes_logged_join_root_path rel : writes_logged (join_root_path rel).
Proof. unfold join_root_path, get_repository_root_path. solve_logged. Qed.

Lemma writes_logged_read_templates ts env : writes_logged (read_templates ts env).
Proof. revert env. induction ts; intros env; simpl; unfold read_one; solve_logged. Qed.

Lemma writes_logged_write_rendered_templates ts env config :
  writes_logged (write_rendered_templates ts env config).
Proof. unfold write_rendered_templates, write_one. solve_logged. Qed.

End Logged.

#[export] Hint Resolve writes_logged_config_new writes_logged_template_new
  writes_logged_join_root_path writes_logged_read_templates
  writes_logged_write_rendered_templates : logged.

(** A write event of the rendering loop's plan is the write of one of its
    templates. *)
Lemma write_in_plan p ts :
  EvWrite p ∈ mjoin (map write_events ts) -> ∃ tp, tp ∈ ts /\ p = rendered_path tp.
Proof.
  intros (evs & Hp & (tp & -> & Htp)%list_elem_of_fmap)%list_elem_of_join.
  exists tp. split; [done|]. unfold write_events in Hp.
  destruct (parent _); rewrite !elem_of_app, ?elem_of_cons, ?elem_of_nil in Hp; naive_solver.
Qed.

End Trace.
