(* ===== verification/Main.v ===== *)
(** * The entry point

    [main] (lines 6-25): build the configuration, create the environment with
    [trim_blocks] set, construct the four templates (the fourth's
    destination is found by [git rev-parse --show-toplevel]), register them
    and render them.  The theorems relate a successful run to a pure
    specification of what the program produces ([main_files]), give the
    exact order of its effects, and state when [main] completes without a
    panic ([main_succeeds]). *)

From S2P Require Import Prelude RustStr Utf8 RustPath Fs Serde Process Git Template Trace.
Local Open Scope Z_scope.

Module Main.
Import RustPath Fs Serde Process Git Template Trace.
Local Open Scope m_scope.

Section WithCapabilities.
Context {YF : YamlFormat} {TE : TemplateEngine}.

Definition config_path : list Z := lit "../config.yaml".
Definition test_action_rel : list Z := lit ".github/workflows/test_action.yml".

(** [fn main()] (lines 6-25).  The [vec!] evaluates its elements in order;
    the argument [&join_root_path(..)] of the fourth runs before that
    [Template::new]. *)
Definition main : M unit :=
  let! config := ConfigImpl.new config_path in
  let env := set_trim_blocks true env_new in
  let! t1 := Template.new (lit "action") (lit "../templates/action.yml.j2") (lit "../action.yml") in
  let! t2 := Template.new (lit "readme") (lit "../templates/README.md.j2") (lit "../README.md") in
  let! t3 := Template.new (lit "cargo") (lit "../templates/cargo.toml.j2") (lit "Cargo.toml") in
  let! p := join_root_path test_action_rel in
  let! t4 := Template.new (lit "test-action") (lit "../templates/test-action.yml.j2") p in
  let templates := [t1; t2; t3; t4] in
  let! env := read_templates templates env in
  write_rendered_templates templates env config.

(** ** The specification *)

(** The four templates: name, source file and destination. *)
Definition specs (workflow_dest : list Z) : list (list Z * list Z * list Z) :=
  [(lit "action", lit "../templates/action.yml.j2", lit "../action.yml");
   (lit "readme", lit "../templates/README.md.j2", lit "../README.md");
   (lit "cargo", lit "../templates/cargo.toml.j2", lit "Cargo.toml");
   (lit "test-action", lit "../templates/test-action.yml.j2", workflow_dest)].

(** The files a run reads, and the files it writes (the fourth under the
    root [git rev-parse] printed). *)
Definition main_sources : list (list Z) := config_path :: map (λ '(_, src, _), src) (specs []).

Definition main_dests (workflow_dest : list Z) : list (list Z) :=
  map (λ '(_, _, dst), dst) (specs workflow_dest).

(** The templates as read from the file system [fs]. *)
Definition load (cwd : list (list Z)) (fs : Fs.Fs) (l : list (list Z * list Z * list Z))
    : option (list Template.t) :=
  mapM (λ '(n, src, dst),
          match Fs.read_to_string cwd (components src) fs with
          | Ok c => Some (Template.mk n c dst)
          | Err _ => None
          end) l.

(** What one template contributes: compiled with [trim_blocks] on, rendered
    with the serialized configuration, encoded, at its destination. *)
Definition spec_one (cwd : list (list Z)) (config : Config.t) (tp : Template.t)
    : option (list (list Z) * list Z) :=
  match compile true (name tp) (content tp) with
  | Ok c => match render c (ser_Config config) with
            | Ok s => Some (dest cwd tp, Utf8.encode s)
            | Err _ => None
            end
  | Err _ => None
  end.

(** The writes a run performs, in order, from the initial world. *)
Definition main_files (w : World) (config : Config.t) (root : list Z)
    : option (list (list (list Z) * list Z)) :=
  tps ← load (w_cwd w) (w_fs w) (specs (join root test_action_rel));
  mapM (spec_one (w_cwd w) config) tps.

(** The events of a successful run, in order. *)
Definition main_events (tps : list Template.t) : list Event :=
  [EvRead config_path; EvSpawn git remote_args; EvSpawn git get_url_args;
   EvRead (lit "../templates/action.yml.j2"); EvRead (lit "../templates/README.md.j2");
   EvRead (lit "../templates/cargo.toml.j2"); EvSpawn git root_args;
   EvRead (lit "../templates/test-action.yml.j2")] ++
  map (λ tp, EvPrintln (lit "Reading template: " ++ name tp)) tps ++
  mjoin (map write_events tps).

(** The templates as [main] names and places them in the world [w]: the
    fourth under the root [git rev-parse] prints there (their contents do
    not show in the effects). *)
Definition main_plan (w : World) : list Template.t :=
  let p := match w_exec w git root_args with
           | Ok o => join (url_of o) test_action_rel
           | Err _ => []
           end in
  map (λ '(n, _, dst), Template.mk n [] dst) (specs p).

(** ** Lemmas *)

Lemma foldl_log_fields (f : Template.t -> Event) ts w :
  let w' := foldl (λ w tp, log (f tp) w) w ts in
  w_fs w' = w_fs w /\ w_cwd w' = w_cwd w /\ w_exec w' = w_exec w /\
  w_trace w' = w_trace w ++ map f ts.
Proof.
  revert w. induction ts as [|tp ts IH]; intros w; simpl.
  - by rewrite app_nil_r.
  - specialize (IH (log (f tp) w)). cbv zeta in IH. destruct IH as (-> & -> & -> & ->).
    simpl. by rewrite <- app_assoc.
Qed.

(** With every template registered under its compiled form, the loop's
    outputs are the specification's. *)
Lemma outputs_spec cwd env config ts :
  (∀ tp, tp ∈ ts -> ∃ c, compile true (name tp) (content tp) = Ok c /\
                         templates env !! name tp = Some c) ->
  outputs cwd env config ts = mapM (spec_one cwd config) ts.
Proof.
  induction ts as [|tp ts IH]; intros Hr; [done|]. simpl.
  destruct (Hr tp) as (c & Hc & Hl); [set_solver|].
  rewrite IH by set_solver. unfold render_one, spec_one, get_template.
  rewrite Hc, Hl. destruct (render c _); [|done].
  by destruct (mapM _ ts).
Qed.

(** The phases of a successful run. *)
Lemma main_Ok w w' :
  main w = (w', Ok tt) ->
  ∃ config o c1 c2 c3 c4 env' w5,
    snd (ConfigImpl.new config_path w) = Ok config /\
    w_exec w git root_args = Ok o /\ success o = true /\
    to_str (join (url_of o) test_action_rel) = Some (join (url_of o) test_action_rel) /\
    load (w_cwd w) (w_fs w) (specs (join (url_of o) test_action_rel)) =
      Some [Template.mk (lit "action") c1 (lit "../action.yml");
            Template.mk (lit "readme") c2 (lit "../README.md");
            Template.mk (lit "cargo") c3 (lit "Cargo.toml");
            Template.mk (lit "test-action") c4 (join (url_of o) test_action_rel)] /\
    let ts := [Template.mk (lit "action") c1 (lit "../action.yml");
               Template.mk (lit "readme") c2 (lit "../README.md");
               Template.mk (lit "cargo") c3 (lit "Cargo.toml");
               Template.mk (lit "test-action") c4 (join (url_of o) test_action_rel)] in
    read_templates ts (set_trim_blocks true env_new) w5 =
      (foldl (λ w tp, log (EvPrintln (lit "Reading template: " ++ name tp)) w) w5 ts, Ok env') /\
    w_fs w5 = w_fs w /\ w_cwd w5 = w_cwd w /\ w_exec w5 = w_exec w /\
    w_trace w5 = w_trace w ++ take 8 (main_events ts) /\
    write_rendered_templates ts env' config
      (foldl (λ w tp, log (EvPrintln (lit "Reading template: " ++ name tp)) w) w5 ts) = (w', Ok tt).
Proof.
  unfold main. intros H.
  mstep H. rename Hs into Hn. destruct (config_new_Ok _ _ _ _ Hn) as [-> _].
  mstep H. apply template_new_Ok in Hs as [-> (c1 & H1 & ->)].
  mstep H. apply template_new_Ok in Hs as [-> (c2 & H2 & ->)].
  mstep H. apply template_new_Ok in Hs as [-> (c3 & H3 & ->)].
  mstep H. apply join_root_path_Ok in Hs as (o & Ho & So & Hp & ->).
  pose proof Hp as Hts. unfold to_str in Hp. case_bool_decide; [|done]. injection Hp as <-.
  mstep H. apply template_new_Ok in Hs as [-> (c4 & H4 & ->)].
  mstep H. pose proof Hs as Hrt. apply read_templates_effect in Hs as (-> & _).
  cbn [w_fs w_cwd w_exec log] in *.
  exists x, o, c1, c2, c3, c4, x0.
  eexists. rewrite Hn. split_and!; try done.
  unfold load, specs. simpl. rewrite H1, H2, H3, H4. done.
  unfold main_events. rewrite (take_app_length' _ _ 8) by done. simpl. by rewrite <- !app_assoc.
Qed.

(** The four names are distinct, so no registration replaces another. *)
Lemma names_NoDup c1 c2 c3 c4 p :
  NoDup (map name [Template.mk (lit "action") c1 (lit "../action.yml");
                   Template.mk (lit "readme") c2 (lit "../README.md");
                   Template.mk (lit "cargo") c3 (lit "Cargo.toml");
                   Template.mk (lit "test-action") c4 p]).
Proof. apply (bool_decide_unpack _). vm_compute. reflexivity. Qed.

(** ** Theorems *)

(** What a successful run did, phase by phase: the configuration, the
    root, the templates read, and the rendering loop run from a world with
    the initial file system, with outputs those of the specification. *)
Lemma main_Ok_loop w w' :
  main w = (w', Ok tt) ->
  ∃ config o tps env' w6,
    snd (ConfigImpl.new config_path w) = Ok config /\
    w_exec w git root_args = Ok o /\ success o = true /\
    to_str (join (url_of o) test_action_rel) = Some (join (url_of o) test_action_rel) /\
    load (w_cwd w) (w_fs w) (specs (join (url_of o) test_action_rel)) = Some tps /\
    outputs (w_cwd w) env' config tps = mapM (spec_one (w_cwd w) config) tps /\
    w_fs w6 = w_fs w /\ w_cwd w6 = w_cwd w /\ w_exec w6 = w_exec w /\
    write_rendered_templates tps env' config w6 = (w', Ok tt).
Proof.
  intros (config & o & c1 & c2 & c3 & c4 & env' & w5 & Hc & Ho & So & Hts & Hl & Hr &
          Hfs & Hcwd & Hex & _ & Hw)%main_Ok.
  apply read_templates_effect in Hr as (_ & _ & _ & Hreg).
  destruct (foldl_log_fields (λ tp, EvPrintln (lit "Reading template: " ++ name tp))
              [Template.mk (lit "action") c1 (lit "../action.yml");
               Template.mk (lit "readme") c2 (lit "../README.md");
               Template.mk (lit "cargo") c3 (lit "Cargo.toml");
               Template.mk (lit "test-action") c4 (join (url_of o) test_action_rel)] w5)
    as (Hfs' & Hcwd' & Hex' & _).
  eexists config, o, _, env', _. split_and!; [..|exact Hw]; try eassumption; try congruence.
  rewrite outputs_spec; [done|]. apply Hreg, names_NoDup.
Qed.

(** [main] as a whole keeps the file system well formed. *)
Lemma main_wf : preserves_wf main.
Proof. unfold main. solve_wf. Qed.

(** [load] of the four specifications: each source file reads. *)
Lemma load_specs_inv cwd fs p tps :
  load cwd fs (specs p) = Some tps ->
  ∃ c1 c2 c3 c4,
    Fs.read_to_string cwd (components (lit "../templates/action.yml.j2")) fs = Ok c1 /\
    Fs.read_to_string cwd (components (lit "../templates/README.md.j2")) fs = Ok c2 /\
    Fs.read_to_string cwd (components (lit "../templates/cargo.toml.j2")) fs = Ok c3 /\
    Fs.read_to_string cwd (components (lit "../templates/test-action.yml.j2")) fs = Ok c4 /\
    tps = [Template.mk (lit "action") c1 (lit "../action.yml");
           Template.mk (lit "readme") c2 (lit "../README.md");
           Template.mk (lit "cargo") c3 (lit "Cargo.toml");
           Template.mk (lit "test-action") c4 p].
Proof.
  unfold load, specs. cbn [mapM].
  destruct (Fs.read_to_string cwd (components (lit "../templates/action.yml.j2")) fs)
    as [c1|]; [|done].
  destruct (Fs.read_to_string cwd (components (lit "../templates/README.md.j2")) fs)
    as [c2|]; [|done].
  destruct (Fs.read_to_string cwd (components (lit "../templates/cargo.toml.j2")) fs)
    as [c3|]; [|done].
  destruct (Fs.read_to_string cwd (components (lit "../templates/test-action.yml.j2")) fs)
    as [c4|]; [|done].
  intros [= <-]. by exists c1, c2, c3, c4.
Qed.

(** From registration on: when every template compiles with [trim_blocks]
    on and renders, and every output is writable, registration and the
    rendering loop complete without creating a directory. *)
Lemma registered_then_rendered ts config w :
  NoDup (map name ts) ->
  (∀ tp, tp ∈ ts -> is_Some (spec_one (w_cwd w) config tp)) ->
  (∀ tp, tp ∈ ts -> writable (w_cwd w) (fs_dirs (w_fs w)) tp) ->
  ∃ w', (let! env := read_templates ts (set_trim_blocks true env_new) in
         write_rendered_templates ts env config) w = (w', Ok tt) /\
        fs_dirs (w_fs w') = fs_dirs (w_fs w).
Proof.
  intros Hnd Hs Hw.
  destruct (read_templates_succeeds ts (set_trim_blocks true env_new) w) as [env' Hr].
  { intros tp Htp. destruct (Hs tp Htp) as [x Hx]. unfold spec_one in Hx. cbn [trim_blocks set_trim_blocks].
    destruct (compile true (name tp) (content tp)) as [c|]; [by exists c|done]. }
  rewrite (bind_Ok _ _ _ _ _ Hr).
  pose proof Hr as (_ & _ & _ & Hreg)%read_templates_effect.
  set (w6 := foldl (λ w tp, log (EvPrintln (lit "Reading template: " ++ name tp)) w) w ts).
  destruct (foldl_log_fields (λ tp, EvPrintln (lit "Reading template: " ++ name tp)) ts w)
    as (Hf & Hc & _). cbv zeta in Hf, Hc. fold w6 in Hf, Hc.
  destruct (write_rendered_templates_succeeds ts env' config w6) as (w' & Hw' & Hd').
  { intros tp Htp. rewrite Hf, Hc. split; [|by apply Hw].
    destruct (Hreg Hnd tp Htp) as (c & Hcc & Hlk). destruct (Hs tp Htp) as [x Hx].
    unfold spec_one in Hx. cbn [trim_blocks set_trim_blocks] in Hcc. rewrite Hcc in Hx.
    unfold render_one, get_template. rewrite Hlk.
    destruct (render c _); [by eexists|done]. }
  exists w'. split; [done|]. by rewrite Hd', Hf.
Qed.

(** Up to registration, a run in which [Config::new], the template reads
    and [git rev-parse] succeed reaches [read_templates] in a world with the
    initial working directory and file system. *)
Lemma main_to_registration w w1 config o c1 c2 c3 c4 p :
  ConfigImpl.new config_path w = (w1, Ok config) ->
  w_exec w git root_args = Ok o -> success o = true -> to_str (join (url_of o) test_action_rel) = Some p ->
  Fs.read_to_string (w_cwd w) (components (lit "../templates/action.yml.j2")) (w_fs w) = Ok c1 ->
  Fs.read_to_string (w_cwd w) (components (lit "../templates/README.md.j2")) (w_fs w) = Ok c2 ->
  Fs.read_to_string (w_cwd w) (components (lit "../templates/cargo.toml.j2")) (w_fs w) = Ok c3 ->
  Fs.read_to_string (w_cwd w) (components (lit "../templates/test-action.yml.j2")) (w_fs w) = Ok c4 ->
  ∃ w5, w_cwd w5 = w_cwd w /\ w_fs w5 = w_fs w /\
    main w = (let ts := [Template.mk (lit "action") c1 (lit "../action.yml");
                         Template.mk (lit "readme") c2 (lit "../README.md");
                         Template.mk (lit "cargo") c3 (lit "Cargo.toml");
                         Template.mk (lit "test-action") c4 p] in
              let! env := read_templates ts (set_trim_blocks true env_new) in
              write_rendered_templates ts env config) w5.
Proof.
  intros En Ho So Hp H1 H2 H3 H4. pose proof En as [-> _]%config_new_Ok.
  unfold main. rewrite (bind_Ok _ _ _ _ _ En).
  erewrite bind_Ok; [|apply template_new_eq; exact H1].
  erewrite bind_Ok; [|apply template_new_eq; exact H2].
  erewrite bind_Ok; [|apply template_new_eq; exact H3].
  erewrite bind_Ok; [|apply (join_root_path_eq _ _ o); [exact Ho|exact So|exact Hp]].
  erewrite bind_Ok; [|apply template_new_eq; exact H4].
  eexists; split_and!; [..|reflexivity]; reflexivity.
Qed.

(** The run completes when [Config::new] succeeds, [git rev-parse]
    prints a root that joins into a valid path, the templates read, and
    each renders to a writable destination; no directory is created. *)
Lemma main_completes w config o tps :
  snd (ConfigImpl.new config_path w) = Ok config ->
  w_exec w git root_args = Ok o -> success o = true ->
  to_str (join (url_of o) test_action_rel) = Some (join (url_of o) test_action_rel) ->
  load (w_cwd w) (w_fs w) (specs (join (url_of o) test_action_rel)) = Some tps ->
  (∀ tp, tp ∈ tps -> is_Some (spec_one (w_cwd w) config tp) /\
                     writable (w_cwd w) (fs_dirs (w_fs w)) tp) ->
  ∃ w', main w = (w', Ok tt) /\ fs_dirs (w_fs w') = fs_dirs (w_fs w).
Proof.
  intros Hc Ho So Hp Hl Hts.
  destruct (ConfigImpl.new config_path w) as [w1 r] eqn:En; simpl in Hc; subst r.
  apply load_specs_inv in Hl as (c1 & c2 & c3 & c4 & H1 & H2 & H3 & H4 & ->).
  destruct (main_to_registration w w1 config o c1 c2 c3 c4 (join (url_of o) test_action_rel))
    as (w5 & Hc5 & Hf5 & ->); try done.
  cbv zeta. rewrite <- Hf5. apply registered_then_rendered; [apply names_NoDup| |];
    rewrite ?Hc5, ?Hf5; intros tp Htp; apply Hts, Htp.
Qed.

(** ** What a run depends on *)

(** The templates read the same from a well-formed file system holding
    the same bytes at their sources. *)
Lemma load_frame cwd fs fs' l tps :
  fs_wf fs' ->
  (∀ src, src ∈ map (λ '(_, src, _), src) l ->
     fs_files fs' !! resolve cwd (components src) = fs_files fs !! resolve cwd (components src)) ->
  load cwd fs l = Some tps -> load cwd fs' l = Some tps.
Proof.
  intros Hwf. revert tps. induction l as [|[[n src] dst] l IH]; intros tps Hs; [done|].
  unfold load in *. simpl.
  destruct (Fs.read_to_string cwd (components src) fs) as [c|] eqn:E; [|done].
  rewrite (read_to_string_frame _ _ _ _ _ Hwf (Hs src (list_elem_of_here _ _)) E). simpl.
  destruct (mapM _ l) as [k|] eqn:Ek; [|done]. intros [= <-].
  rewrite (IH k); [done| |done]. intros s' Hs'. apply Hs. by apply list_elem_of_further.
Qed.

(** A loop writing the destinations [main_dests] leaves every source
    location that is none of them as it was. *)
Lemma sources_untouched (cwd : list (list Z)) (outs : list (list (list Z) * list Z))
    (tps : list Template.t) (m : gmap (list (list Z)) (list Z)) (p : list Z) :
  map fst outs = map (dest cwd) tps -> map rendered_path tps = main_dests p ->
  Forall (λ src, Forall (λ dst, resolve cwd (components src) <> resolve cwd (components dst))
                   (main_dests p)) main_sources ->
  ∀ src, src ∈ main_sources -> inserts outs m !! resolve cwd (components src) = m !! resolve cwd (components src).
Proof.
  intros Hk Hr Hd src Hs. apply lookup_inserts_not_in. rewrite Hk.
  intros (tp & Heq & Htp)%list_elem_of_fmap.
  rewrite Forall_forall in Hd. specialize (Hd src Hs). rewrite Forall_forall in Hd.
  apply (Hd (rendered_path tp)); [|done]. rewrite <- Hr. by apply list_elem_of_fmap_2.
Qed.

(** ** Theorems *)

(** C1 A successful run of the program writes exactly what the
    specification [main_files] says, in its order: each of the four
    templates, read from the file system as it was when the program started,
    compiled with [trim_blocks] on, rendered with the configuration that
    [Config::new] built, at its destination, the fourth under the root that
    [git rev-parse --show-toplevel] printed; other files are untouched and
    directories are only added. *)
Theorem main_refines w w' :
  main w = (w', Ok tt) ->
  ∃ config o outs,
    snd (ConfigImpl.new config_path w) = Ok config /\
    w_exec w git root_args = Ok o /\ success o = true /\
    main_files w config (url_of o) = Some outs /\
    fs_files (w_fs w') = inserts outs (fs_files (w_fs w)) /\
    fs_dirs (w_fs w) ⊆ fs_dirs (w_fs w').
Proof.
  intros (config & o & tps & env' & w6 & Hc & Ho & So & _ & Hl & Hsp & Hf6 & Hc6 & _ & Hw)%main_Ok_loop.
  apply write_rendered_templates_run in Hw as (outs & Hout & Hf & Hd & _).
  rewrite Hc6, Hsp in Hout. exists config, o, outs. unfold main_files. rewrite Hl. simpl.
  rewrite Hf, Hf6. rewrite Hf6 in Hd. by split_and!.
Qed.

(** C2 The effects of a successful run, in order: the configuration file is
    read, [git remote] and [git remote get-url origin] run, three template
    files are read, then [git rev-parse] runs, then the fourth template file
    is read; the four templates are registered, then each is rendered and
    written in turn. *)
Theorem main_trace w w' :
  main w = (w', Ok tt) ->
  ∃ ts, map name ts = [lit "action"; lit "readme"; lit "cargo"; lit "test-action"] /\
        w_trace w' = w_trace w ++ main_events ts.
Proof.
  intros (config & o & c1 & c2 & c3 & c4 & env' & w5 & _ & _ & _ & _ & _ & _ &
          _ & _ & _ & Ht5 & Hw)%main_Ok.
  apply write_rendered_templates_run in Hw as (_ & _ & _ & _ & _ & _ & Ht).
  eexists. split; cycle 1.
  - rewrite Ht, (proj2 (proj2 (proj2 (foldl_log_fields _ _ _)))), Ht5.
    unfold main_events. rewrite (take_app_length' _ _ 8) by done.
    rewrite <- !app_assoc. reflexivity.
  - reflexivity.
Qed.

(** C8 When [../config.yaml] cannot be read, the program panics with
    [Failed to read config file: ../config.yaml] right after that one read:
    [git] is never run and nothing is written. *)
Theorem main_config_unreadable w e :
  Fs.read_to_string (w_cwd w) (components config_path) (w_fs w) = Err e ->
  main w = (log (EvRead config_path) w,
            Err (PanicMsg (lit "Failed to read config file: " ++ config_path))).
Proof.
  intros He. unfold main, ConfigImpl.new, ConfigImpl.serialize, bind, read_to_string.
  simpl. by rewrite He.
Qed.

(** C4 The program completes (no panic) when everything it depends on is
    in place: [Config::new] succeeds, [git rev-parse] succeeds with byte
    output, the four template files read, each template compiles with
    [trim_blocks] on and renders, and each destination is writable in the
    initial file system (its parent directory exists, it is not itself a
    directory). *)
Theorem main_succeeds w config o tps :
  snd (ConfigImpl.new config_path w) = Ok config ->
  w_exec w git root_args = Ok o -> success o = true -> Forall Utf8.is_byte (stdout o) ->
  load (w_cwd w) (w_fs w) (specs (join (url_of o) test_action_rel)) = Some tps ->
  (∀ tp, tp ∈ tps -> is_Some (spec_one (w_cwd w) config tp) /\
                     writable (w_cwd w) (fs_dirs (w_fs w)) tp) ->
  ∃ w', main w = (w', Ok tt).
Proof.
  intros Hc Ho So Hb Hl Hts.
  destruct (main_completes w config o tps Hc Ho So) as (w' & Hm & _); [|done|done|by exists w'].
  apply to_str_join_url; [done|decide_vm].
Qed.

(** C5 The generator is idempotent: from a well-formed file system in
    which no destination is one of the files the program reads, a second
    run after a successful one also completes, and leaves the file system
    exactly as the first left it (same files with the same bytes, same
    directories). *)
Theorem main_idempotent w w1 o :
  fs_wf (w_fs w) -> w_exec w git root_args = Ok o ->
  Forall (λ src, Forall (λ dst, resolve (w_cwd w) (components src) <>
                                resolve (w_cwd w) (components dst))
                   (main_dests (join (url_of o) test_action_rel))) main_sources ->
  main w = (w1, Ok tt) ->
  ∃ w2, main w1 = (w2, Ok tt) /\ w_fs w2 = w_fs w1.
Proof.
  intros Hwf Ho Hdisj H.
  pose proof (main_wf w Hwf) as Hwf1. rewrite H in Hwf1. simpl in Hwf1.
  destruct (main_Ok_loop _ _ H) as (config & o' & tps & env' & w6 & Hc & Ho' & So & Hts & Hl &
                                    Hsp & Hf6 & Hc6 & He6 & Hw).
  rewrite Ho in Ho'. injection Ho' as <-.
  pose proof Hw as (outs & Hout & Hf1 & _ & Hc1 & He1 & _)%write_rendered_templates_run.
  rewrite Hf6 in Hf1. rewrite Hc6 in Hc1, Hout. rewrite He6 in He1.
  assert (Hsrc : ∀ src, src ∈ main_sources ->
            fs_files (w_fs w1) !! resolve (w_cwd w) (components src) =
            fs_files (w_fs w) !! resolve (w_cwd w) (components src)).
  { rewrite Hf1. apply (sources_untouched _ _ tps _ (join (url_of o) test_action_rel));
      [by eapply outputs_keys| |done].
    by apply load_specs_inv in Hl as (c1 & c2 & c3 & c4 & _ & _ & _ & _ & ->). }
  assert (Hl1 : load (w_cwd w1) (w_fs w1) (specs (join (url_of o) test_action_rel)) = Some tps).
  { rewrite Hc1. eapply load_frame; [done| |exact Hl].
    intros src Hs. apply Hsrc. by apply list_elem_of_further. }
  assert (Hc1' : snd (ConfigImpl.new config_path w1) = Ok config).
  { rewrite <- Hc. apply config_new_frame; [congruence|congruence|].
    destruct (config_new_read _ _ _ Hc) as [s Hs]. rewrite Hs.
    apply (read_to_string_frame _ _ (w_fs w)); [done| |done]. apply Hsrc, list_elem_of_here. }
  rewrite Hsp in Hout.
  destruct (main_completes w1 config o tps) as (w2 & Hm & Hd2); [done|congruence|done|done|done| |].
  { intros tp Htp. split.
    - rewrite Hc1. assert (Hall : Forall (is_Some ∘ spec_one (w_cwd w) config) tps)
        by (apply mapM_is_Some_1; by rewrite Hout).
      rewrite Forall_forall in Hall. by apply (Hall tp).
    - apply (write_rendered_templates_writable tps env' config w6); [by rewrite Hf6|done|done]. }
  exists w2. split; [done|].
  destruct (main_Ok_loop _ _ Hm) as (config2 & o2 & tps2 & env2 & w7 & Hc2 & Ho2 & _ & _ & Hl2 &
                                     Hsp2 & Hf7 & Hc7 & _ & Hw2).
  rewrite Hc1' in Hc2. injection Hc2 as <-. rewrite He1, Ho in Ho2. injection Ho2 as <-.
  rewrite Hl1 in Hl2. injection Hl2 as <-.
  apply write_rendered_templates_run in Hw2 as (outs2 & Hout2 & Hf2 & _).
  rewrite Hc7, Hsp2, Hc1, Hout in Hout2. injection Hout2 as <-.
  apply fs_eq; [|done]. rewrite Hf2, Hf7, Hf1. apply inserts_idem.
Qed.

(** C10 Outside a git repository the program stops before writing
    anything: when [Config::new] succeeds and the first three templates
    read, [git rev-parse] exits unsuccessfully and the program panics with
    [Git command failed with status: <code>], right after that command;
    the file system is untouched. *)
Theorem main_root_failed w config o c1 c2 c3 :
  snd (ConfigImpl.new config_path w) = Ok config ->
  Fs.read_to_string (w_cwd w) (components (lit "../templates/action.yml.j2")) (w_fs w) = Ok c1 ->
  Fs.read_to_string (w_cwd w) (components (lit "../templates/README.md.j2")) (w_fs w) = Ok c2 ->
  Fs.read_to_string (w_cwd w) (components (lit "../templates/cargo.toml.j2")) (w_fs w) = Ok c3 ->
  w_exec w git root_args = Ok o -> success o = false ->
  ∃ w', main w = (w', Err (PanicMsg (status_msg (code_unwrap_or o (-1))))) /\
        w_fs w' = w_fs w /\
        w_trace w' = w_trace w ++ take 7 (main_events []).
Proof.
  intros Hc H1 H2 H3 Ho So.
  destruct (ConfigImpl.new config_path w) as [w1 r] eqn:En; simpl in Hc; subst r.
  pose proof En as [-> _]%config_new_Ok.
  unfold main. rewrite (bind_Ok _ _ _ _ _ En).
  erewrite bind_Ok; [|apply template_new_eq; exact H1].
  erewrite bind_Ok; [|apply template_new_eq; exact H2].
  erewrite bind_Ok; [|apply template_new_eq; exact H3].
  erewrite bind_Err; [|apply join_root_path_failed; [exact Ho|exact So]].
  eexists; split_and!; [reflexivity|reflexivity|]. simpl. by rewrite <- !app_assoc.
Qed.

(** C24 The workflow file goes to the repository, wherever the program is
    started: for an absolute root printed by [git rev-parse], the fourth
    template's destination is the root's location followed by
    [.github/workflows/test_action.yml], independently of the working
    directory ([Path::join] then [Path::components] and the lookup). *)
Theorem test_action_dest cwd root c :
  has_root root = true ->
  dest cwd (Template.mk (lit "test-action") c (join root test_action_rel)) =
    resolve [] (components root) ++ [lit ".github"; lit "workflows"; lit "test_action.yml"].
Proof.
  intros Hr. unfold dest. cbn [rendered_path].
  rewrite components_join by (done || reflexivity).
  rewrite resolve_app, (resolve_absolute cwd []) by done.
  assert (E : omap classify (RustStr.split test_action_rel slash) =
              map Normal [lit ".github"; lit "workflows"; lit "test_action.yml"]) by reflexivity.
  rewrite E. apply resolve_normals.
Qed.

(** C9 Every template is compiled before any is rendered: when the run
    gets as far as registration and some template does not compile (with
    [trim_blocks] on), the program panics with
    [Failed to add template to environment] and the file system is as it
    was: no output is written, not even those of the templates before it. *)
Theorem main_compile_failed w config o tps tp e :
  snd (ConfigImpl.new config_path w) = Ok config ->
  w_exec w git root_args = Ok o -> success o = true -> Forall Utf8.is_byte (stdout o) ->
  load (w_cwd w) (w_fs w) (specs (join (url_of o) test_action_rel)) = Some tps ->
  tp ∈ tps -> compile true (name tp) (content tp) = Err e ->
  ∃ w' msg, main w = (w', Err (ExpectFailed (lit "Failed to add template to environment")
                                (CauseTemplate msg))) /\ w_fs w' = w_fs w.
Proof.
  intros Hc Ho So Hb Hl Htp He.
  destruct (ConfigImpl.new config_path w) as [w1 r] eqn:En; simpl in Hc; subst r.
  apply load_specs_inv in Hl as (c1 & c2 & c3 & c4 & H1 & H2 & H3 & H4 & ->).
  destruct (main_to_registration w w1 config o c1 c2 c3 c4 (join (url_of o) test_action_rel))
    as (w5 & Hc5 & Hf5 & ->); try done.
  { apply to_str_join_url; [done|decide_vm]. }
  destruct (read_templates_fail _ (set_trim_blocks true env_new) w5 tp e Htp He)
    as (w' & msg & Hr & Hf).
  exists w', msg. cbv zeta. rewrite (bind_Err _ _ _ _ _ Hr). split; [done|congruence].
Qed.

(** The plan of [main], read off its code. *)
Lemma emits_main w : emits main w (main_events (main_plan w)).
Proof.
  unfold main.
  apply (emits_eq _ _ ([EvRead config_path; EvSpawn git remote_args; EvSpawn git get_url_args] ++
    [EvRead (lit "../templates/action.yml.j2")] ++ [EvRead (lit "../templates/README.md.j2")] ++
    [EvRead (lit "../templates/cargo.toml.j2")] ++ [EvSpawn git root_args] ++
    [EvRead (lit "../templates/test-action.yml.j2")] ++
    map (λ tp, EvPrintln (lit "Reading template: " ++ name tp)) (main_plan w) ++
    mjoin (map write_events (main_plan w)))); [|reflexivity].
  apply emits_bind; [apply emits_config_new|intros w1 config Hc]. cbv zeta.
  apply emits_bind; [apply emits_template_new|intros w2 t1 H1].
  apply emits_bind; [apply emits_template_new|intros w3 t2 H2].
  apply emits_bind; [apply emits_template_new|intros w4 t3 H3].
  apply emits_bind; [apply emits_join_root_path|intros w5 p Hp].
  apply emits_bind; [apply emits_template_new|intros w6 t4 H4].
  apply config_new_Ok in Hc as [-> _].
  apply template_new_Ok in H1 as [-> (c1 & _ & ->)], H2 as [-> (c2 & _ & ->)],
    H3 as [-> (c3 & _ & ->)], H4 as [-> (c4 & _ & ->)].
  apply join_root_path_Ok in Hp as (o & Ho & _ & Hp & ->). cbn [w_exec log] in Ho.
  unfold to_str in Hp. case_bool_decide; [|done]. injection Hp as <-.
  unfold main_plan. rewrite Ho.
  eapply emits_eq; [apply emits_bind; [apply emits_read_templates|intros; apply emits_write_rendered_templates]|].
  reflexivity.
Qed.

(** C6 Every run of the program, whether it completes or panics, performs
    a prefix of the planned sequence of effects [main_events] (the
    configuration read, the [git] commands, the template reads, the
    registrations, then per template its render, directory creation and
    write): a panic only cuts the sequence short, so no file is written
    before every template has been read and registered, and [git rev-parse]
    never runs before the first three template reads. *)
Theorem main_trace_prefix w :
  ∃ l, w_trace (fst (main w)) = w_trace w ++ l /\ l `prefix_of` main_events (main_plan w).
Proof. destruct (emits_main w) as (l & Ht & Hp & _). by exists l. Qed.

(** Every file [main] changes is at the location of a write it logs. *)
Lemma writes_logged_main : writes_logged main.
Proof. unfold main. solve_logged. Qed.

(** C3 The program writes only its four outputs: in every run, whether it
    completes or panics part-way, a file whose contents differ afterwards is
    the destination of one of the four templates of [main] (the fourth
    under the root [git rev-parse] printed).  The configuration, the
    template sources and every other file keep their contents. *)
Theorem main_writes_only w a :
  fs_files (w_fs (fst (main w))) !! a <> fs_files (w_fs w) !! a ->
  ∃ tp, tp ∈ main_plan w /\ a = dest (w_cwd w) tp.
Proof.
  intros Ha. destruct (writes_logged_main w) as (_ & l & Ht & Hl).
  destruct (Hl a Ha) as (p & Hp & ->).
  destruct (emits_main w) as (l' & Ht' & Hpre & _).
  rewrite Ht in Ht'. apply app_inv_head in Ht' as <-.
  pose proof (elem_of_prefix _ _ _ Hp Hpre) as Hm. unfold main_events in Hm.
  rewrite !elem_of_app in Hm. destruct Hm as [Hm|[Hm|Hm]].
  - rewrite !elem_of_cons, elem_of_nil in Hm. naive_solver.
  - apply list_elem_of_fmap in Hm as (? & ? & _). discriminate.
  - destruct (write_in_plan _ _ Hm) as (tp & Htp & ->). by exists tp.
Qed.

End WithCapabilities.
End Main.
