(* ===== verification/Samples.v ===== *)
(** * Sample runs

    Concrete inputs on which the theorems of the development are applied:
    a clone of [git@github.com:octocat/hello-world.git] at [/repo], the
    program run from [/repo/rust-action] (where [Cargo.toml] lives, as the
    relative paths of [main] expect), the configuration and the four
    templates as files of [/repo].  The YAML parser and the template engine
    are test doubles: the configuration parses to a fixed value, a template
    compiles to its text and renders to it.  Each witness below evaluates the
    program's definitions on these inputs to discharge a theorem's
    hypotheses. *)

From S2P Require Import Prelude RustStr Utf8 RustPath Fs Serde Process Git Template Main.
Local Open Scope Z_scope.

Module Samples.
Import RustStr RustPath Fs Serde Process Git Template Main.

Definition nl : Z := 10.

(** A successful command printing one line. *)
Definition out (s : list Z) : Output := mkOutput (Some 0) (s ++ [nl]) [].

(** [git remote get-url origin] without an [origin] remote exits with 2. *)
Definition no_such_remote : Output :=
  mkOutput (Some 2) [] (lit "error: No such remote 'origin'").

(** [git] in a clone whose remotes are [remotes]. *)
Definition exec_with (remotes : list Z) (get_url : Output)
    (program : list Z) (args : list (list Z)) : result Output IoErrorKind :=
  if decide (args = remote_args) then Ok (out remotes)
  else if decide (args = get_url_args) then Ok get_url
  else if decide (args = root_args) then Ok (out (lit "/repo"))
  else Err NotFound.

Definition url : list Z := lit "git@github.com:octocat/hello-world.git".

Definition exec := exec_with (lit "origin") (out url).

Definition cfg : Config.t :=
  Config.mk (lit "Hello") (lit "A greeting") (lit "octocat") [] []
    (Rust.mk (lit "hello") (lit "2021") (lit "0.1.0")) None None.

#[export] Instance yaml : YamlFormat := {| yaml_from_str := λ _, Ok (ser_Config cfg) |}.

#[export] Instance engine : TemplateEngine :=
  {| Compiled := list Z; compile := λ _ _ src, Ok src; render := λ c _, Ok c |}.

Definition fs0 : Fs :=
  mkFs (list_to_map [([lit "repo"; lit "config.yaml"], lit "action_name: Hello");
                     ([lit "repo"; lit "templates"; lit "action.yml.j2"], lit "name: x");
                     ([lit "repo"; lit "templates"; lit "README.md.j2"], lit "# x");
                     ([lit "repo"; lit "templates"; lit "cargo.toml.j2"], lit "[package]");
                     ([lit "repo"; lit "templates"; lit "test-action.yml.j2"], lit "on: push")])
       {[ []; [lit "repo"]; [lit "repo"; lit "rust-action"]; [lit "repo"; lit "templates"] ]}.

Definition cwd0 : list (list Z) := [lit "repo"; lit "rust-action"].

Definition w0 : World := mkWorld fs0 cwd0 exec [].

(** A directory that is not a git repository. *)
Definition not_a_repo : Output := mkOutput (Some 128) [] (lit "fatal: not a git repository").

Definition w_norepo : World := mkWorld fs0 cwd0 (λ _ _, Ok not_a_repo) [].

(** The program run where no configuration file exists. *)
Definition w_empty : World := mkWorld (mkFs ∅ {[ [] ]}) cwd0 exec [].

(** The same clone with a single remote [upstream-origin]. *)
Definition w_upstream : World :=
  mkWorld fs0 cwd0 (exec_with (lit "upstream-origin") no_such_remote) [].

(** The configuration [Config::new] builds in the sample clone. *)
Definition cfg_cloned : Config.t :=
  with_repository_owner (with_repository_name cfg (Some (lit "hello-world"))) (Some (lit "octocat")).

(** ** The program on the sample clone *)

Lemma main_refines_witness :
  ∃ config o outs,
    snd (ConfigImpl.new config_path w0) = Ok config /\
    w_exec w0 git root_args = Ok o /\ success o = true /\
    main_files w0 config (url_of o) = Some outs /\
    fs_files (w_fs (fst (main w0))) = inserts outs (fs_files (w_fs w0)) /\
    fs_dirs (w_fs w0) ⊆ fs_dirs (w_fs (fst (main w0))).
Proof. apply main_refines, run_Ok. vm_compute. reflexivity. Defined.

Lemma main_trace_witness :
  ∃ ts, map name ts = [lit "action"; lit "readme"; lit "cargo"; lit "test-action"] /\
        w_trace (fst (main w0)) = w_trace w0 ++ main_events ts.
Proof. apply main_trace, run_Ok. vm_compute. reflexivity. Defined.

(** ** Configuration and the repository inspector *)

Lemma extract_ok_witness :
  ConfigImpl.extract_repo_name_and_owner cfg w0 =
    (log (EvSpawn git get_url_args) (log (EvSpawn git remote_args) w0),
     Ok (with_repository_owner (with_repository_name cfg (Some (lit "hello-world")))
           (Some (lit "octocat")))).
Proof.
  apply (extract_ok cfg w0 (out (lit "origin")) (out url)); vm_compute; reflexivity.
Defined.

Lemma repo_name_of_url_ssh_witness :
  repo_name_of_url (lit "git@github.com:octocat" ++ slash :: lit "hello-world" ++ lit ".git") =
    Some (lit "hello-world").
Proof. apply repo_name_of_url_ssh. decide_vm. Defined.

Lemma owner_of_url_ssh_witness :
  owner_of_url (lit "git@github.com" ++ colon :: lit "octocat" ++ slash :: lit "hello-world.git") =
    Some (lit "octocat").
Proof. apply owner_of_url_ssh; decide_vm. Defined.

Lemma repo_name_of_url_no_git_witness :
  repo_name_of_url (lit "https://github.com/octocat" ++ slash :: lit "hello-world") = None.
Proof.
  apply repo_name_of_url_no_git; [decide_vm|].
  intros r Hr. apply (f_equal (@rev _)) in Hr. rewrite rev_app_distr in Hr.
  vm_compute in Hr. congruence.
Defined.

Lemma extract_no_origin_witness :
  ConfigImpl.extract_repo_name_and_owner cfg
    (mkWorld fs0 cwd0 (exec_with (lit "upstream") (out url)) []) =
    (log (EvSpawn git remote_args) (mkWorld fs0 cwd0 (exec_with (lit "upstream") (out url)) []),
     Err (PanicMsg no_origin_msg)).
Proof. apply (extract_no_origin _ _ (out (lit "upstream"))); vm_compute; reflexivity. Defined.

Lemma new_populates_witness :
  ∃ n o, Config.repository_name cfg_cloned = Some n /\ Config.repository_owner cfg_cloned = Some o.
Proof.
  apply (new_populates config_path w0 (fst (ConfigImpl.new config_path w0))), run_Ok.
  vm_compute. reflexivity.
Defined.

Lemma join_root_path_total_witness :
  join_root_path test_action_rel w0 =
    (log (EvSpawn git root_args) w0, Ok (join (url_of (out (lit "/repo"))) test_action_rel)).
Proof.
  apply join_root_path_total; [vm_compute; reflexivity|vm_compute; reflexivity|decide_vm|decide_vm].
Defined.

Lemma extract_origin_substring_witness :
  snd (ConfigImpl.extract_repo_name_and_owner cfg w_upstream) <> Err (PanicMsg no_origin_msg) /\
  EvSpawn git get_url_args ∈ w_trace (fst (ConfigImpl.extract_repo_name_and_owner cfg w_upstream)).
Proof.
  apply (extract_origin_substring cfg w_upstream (out (lit "upstream-origin")) (lit "upstream-") []);
    vm_compute; reflexivity.
Defined.

(** ** Templates *)

Definition tp_action : Template.t := Template.mk (lit "action") (lit "name: x") (lit "../action.yml").

Definition env_action : Environment := mkEnv true {[ lit "action" := lit "name: x" ]}.

Definition render_run (w : World) : World := fst (write_rendered_templates [tp_action] env_action cfg w).

Lemma write_rendered_templates_idem_witness :
  fs_files (w_fs (render_run (render_run w0))) = fs_files (w_fs (render_run w0)).
Proof.
  apply (write_rendered_templates_idem [tp_action] env_action cfg w0 (render_run w0)
           (render_run (render_run w0)));
    apply (run_Ok (write_rendered_templates [tp_action] env_action cfg _)); vm_compute; reflexivity.
Defined.

(** ** Deserialization *)

Lemma de_Config_unknown_field_witness :
  de_Config (VMap (config_entries cfg ++ (lit "homepage", VStr (lit "x")) :: [])) =
    de_Config (VMap (config_entries cfg ++ [])).
Proof. apply de_Config_unknown_field. vm_compute. reflexivity. Defined.

Lemma de_Config_missing_field_witness :
  de_Config (VMap (filter (λ kv, kv.1 <> lit "author") (config_entries cfg))) =
    Err (MissingField (lit "author")).
Proof. apply de_Config_missing_field. decide_vm. Defined.

(** ** UTF-8 and files *)

Lemma from_utf8_iff_witness :
  Utf8.from_utf8 [0xC3; 0xA9] = Some [0xE9] <->
    [0xC3; 0xA9] = Utf8.encode [0xE9] /\ Forall valid_scalar [0xE9].
Proof. apply Utf8.from_utf8_iff. decide_vm. Defined.

Definition cargo : list Component := components (lit "Cargo.toml").

Lemma write_read_witness :
  Fs.read_to_string cwd0 cargo (unwrap_or (Fs.write cwd0 cargo (lit "[package]") fs0) fs0) =
    Ok (lit "[package]").
Proof.
  apply (write_read _ _ _ fs0); [decide_vm|apply Ok_unwrap_or; vm_compute; reflexivity].
Defined.

(** ** Further error paths *)

Lemma extract_remote_failed_witness :
  ConfigImpl.extract_repo_name_and_owner cfg w_norepo =
    (log (EvSpawn git remote_args) w_norepo,
     Err (PanicMsg (status_msg (code_unwrap_or not_a_repo (-1))))).
Proof. apply extract_remote_failed; vm_compute; reflexivity. Defined.

Lemma main_config_unreadable_witness :
  main w_empty = (log (EvRead config_path) w_empty,
                  Err (PanicMsg (lit "Failed to read config file: " ++ config_path))).
Proof. apply (main_config_unreadable _ NotFound). vm_compute. reflexivity. Defined.

Definition tp_readme : Template.t := Template.mk (lit "readme") (lit "# x") (lit "../README.md").

Lemma write_rendered_templates_partial_witness :
  ∃ outs1 w' p, outputs (w_cwd w0) env_action cfg [tp_action] = Some outs1 /\
    write_rendered_templates ([tp_action] ++ tp_readme :: []) env_action cfg w0 = (w', Err p) /\
    fs_files (w_fs w') = inserts outs1 (fs_files (w_fs w0)).
Proof.
  apply (write_rendered_templates_partial _ _ _ _ _ _ (render_run w0)).
  - apply (run_Ok (write_rendered_templates [tp_action] env_action cfg _)). vm_compute. reflexivity.
  - vm_compute. reflexivity.
Defined.

Lemma de_Config_duplicate_field_witness :
  de_Config (VMap ((lit "author", VStr (lit "a")) :: (lit "author", VStr (lit "b")) ::
                   config_entries cfg)) = Err (DuplicateField (lit "author")).
Proof. apply (de_Config_duplicate_field _ _ _ _ 2); vm_compute; reflexivity. Defined.

(** ** Invariants and bounds *)

Definition action_yml : list (list Z) := [lit "repo"; lit "action.yml"].

Lemma main_writes_only_witness :
  ∃ tp, tp ∈ main_plan w0 /\ action_yml = dest (w_cwd w0) tp.
Proof.
  apply (main_writes_only w0 action_yml). vm_compute. discriminate.
Defined.

Lemma display_i32_spec_witness :
  ∃ ds, display_i32 (-42) = (if -42 <? 0 then [45] else []) ++ ds /\ numeral ds /\
        digits_value ds = Z.abs (-42).
Proof. apply display_i32_spec. lia. Defined.



Definition workflows : list Component := components (lit ".github/workflows").

Lemma create_dir_all_exists_witness :
  resolve [lit "repo"] workflows ∈
    fs_dirs (unwrap_or (Fs.create_dir_all [lit "repo"] workflows fs0) fs0).
Proof.
  apply (create_dir_all_exists _ _ fs0); [vm_compute; congruence|].
  apply Ok_unwrap_or. vm_compute. reflexivity.
Defined.

Lemma create_dir_all_existing_witness :
  Fs.create_dir_all cwd0 (components (lit "../templates")) fs0 = Ok fs0.
Proof. apply create_dir_all_existing. decide_vm. Defined.

(** ** Completion and liveness *)

Lemma config_new_ok_witness :
  ConfigImpl.new config_path w0 =
    (log (EvSpawn git get_url_args) (log (EvSpawn git remote_args) (log (EvRead config_path) w0)),
     Ok cfg_cloned).
Proof.
  apply (config_new_ok _ _ (lit "action_name: Hello") cfg (out (lit "origin")) (out url));
    vm_compute; reflexivity.
Defined.

(** The clone with [.github/workflows] in place, so that every destination
    is writable. *)
Definition fs_ok : Fs :=
  mkFs (fs_files fs0) ({[ [lit "repo"; lit ".github"]; [lit "repo"; lit ".github"; lit "workflows"] ]}
                       ∪ fs_dirs fs0).

Definition w_ok : World := mkWorld fs_ok cwd0 exec [].

Definition tps_ok : list Template.t :=
  unwrap_or (ok_or (load cwd0 fs_ok (specs (join (lit "/repo") test_action_rel))) tt) [].

Lemma main_succeeds_witness : ∃ w', main w_ok = (w', Ok tt).
Proof.
  apply (main_succeeds w_ok cfg_cloned (out (lit "/repo")) tps_ok);
    [vm_compute; reflexivity..|decide_vm|vm_compute; reflexivity|].
  apply Forall_forall. decide_vm.
Defined.



(** ** Idempotence and the remaining error paths *)

Lemma main_idempotent_witness :
  ∃ w2, main (fst (main w0)) = (w2, Ok tt) /\ w_fs w2 = w_fs (fst (main w0)).
Proof.
  apply (main_idempotent w0 (fst (main w0)) (out (lit "/repo")));
    [decide_vm|vm_compute; reflexivity|decide_vm|].
  apply run_Ok. vm_compute. reflexivity.
Defined.

(** The clone where [git rev-parse] fails (the working tree was moved out
    of the repository, say) while the remotes still answer. *)
Definition exec_noroot (program : list Z) (args : list (list Z)) : result Output IoErrorKind :=
  if decide (args = root_args) then Ok not_a_repo else exec program args.

Definition w_noroot : World := mkWorld fs0 cwd0 exec_noroot [].

Lemma main_root_failed_witness :
  ∃ w', main w_noroot = (w', Err (PanicMsg (status_msg (code_unwrap_or not_a_repo (-1))))) /\
        w_fs w' = w_fs w_noroot /\ w_trace w' = w_trace w_noroot ++ take 7 (main_events []).
Proof.
  apply (main_root_failed w_noroot cfg_cloned not_a_repo (lit "name: x") (lit "# x") (lit "[package]"));
    vm_compute; reflexivity.
Defined.

Lemma extract_get_url_failed_witness :
  ConfigImpl.extract_repo_name_and_owner cfg (mkWorld fs0 cwd0 (exec_with (lit "origin") no_such_remote) []) =
    (log (EvSpawn git get_url_args) (log (EvSpawn git remote_args)
       (mkWorld fs0 cwd0 (exec_with (lit "origin") no_such_remote) [])),
     Err (PanicMsg (get_url_err_msg ++ lit ", status code: '" ++
                    display_i32 (code_unwrap_or no_such_remote (-1)) ++ lit "'"))).
Proof.
  apply (extract_get_url_failed _ _ (out (lit "origin")) no_such_remote); vm_compute; reflexivity.
Defined.

Definition https_url : list Z := lit "https://github.com/octocat/hello-world".

Lemma extract_no_repo_name_witness :
  ConfigImpl.extract_repo_name_and_owner cfg (mkWorld fs0 cwd0 (exec_with (lit "origin") (out https_url)) []) =
    (log (EvSpawn git get_url_args) (log (EvSpawn git remote_args)
       (mkWorld fs0 cwd0 (exec_with (lit "origin") (out https_url)) [])),
     Err (PanicMsg (lit "Failed to extract repository name from URL: " ++ url_of (out https_url)))).
Proof.
  apply (extract_no_repo_name _ _ (out (lit "origin")) (out https_url)); vm_compute; reflexivity.
Defined.

Lemma test_action_dest_witness :
  dest cwd0 (Template.mk (lit "test-action") (lit "on: push") (join (lit "/repo") test_action_rel)) =
    resolve [] (components (lit "/repo")) ++ [lit ".github"; lit "workflows"; lit "test_action.yml"].
Proof. apply test_action_dest. reflexivity. Defined.

(** A template engine that rejects a source with an unclosed block tag,
    and the clone whose README template has one. *)
Definition engine_strict : TemplateEngine :=
  {| Compiled := list Z;
     compile := λ _ _ src, if contains src (lit "{%") then Err (lit "unexpected end of input")
                           else Ok src;
     render := λ c _, Ok c |}.

Definition fs_bad : Fs :=
  mkFs (<[ [lit "repo"; lit "templates"; lit "README.md.j2"] := lit "{% if x" ]> (fs_files fs0))
       (fs_dirs fs0).

Definition w_bad : World := mkWorld fs_bad cwd0 exec [].

Definition tps_bad : list Template.t :=
  [Template.mk (lit "action") (lit "name: x") (lit "../action.yml");
   Template.mk (lit "readme") (lit "{% if x") (lit "../README.md");
   Template.mk (lit "cargo") (lit "[package]") (lit "Cargo.toml");
   Template.mk (lit "test-action") (lit "on: push") (join (lit "/repo") test_action_rel)].

Lemma main_compile_failed_witness :
  ∃ w' msg, @main yaml engine_strict w_bad =
              (w', Err (ExpectFailed (lit "Failed to add template to environment")
                          (CauseTemplate msg))) /\ w_fs w' = w_fs w_bad.
Proof.
  apply (@main_compile_failed yaml engine_strict w_bad cfg_cloned (out (lit "/repo")) tps_bad
           (Template.mk (lit "readme") (lit "{% if x") (lit "../README.md"))
           (lit "unexpected end of input"));
    [vm_compute; reflexivity..|decide_vm|vm_compute; reflexivity| |vm_compute; reflexivity].
  apply list_elem_of_further, list_elem_of_here.
Defined.

Lemma from_utf8_lossy_invalid_byte_witness :
  Utf8.from_utf8_lossy (Utf8.encode (lit "ok") ++ 0xFF :: Utf8.encode [0xE9]) =
    lit "ok" ++ Utf8.replacement_char :: [0xE9].
Proof. apply Utf8.from_utf8_lossy_invalid_byte; [decide_vm|decide_vm|lia]. Defined.

End Samples.
